(** * CoastSeg: [coastseg/extracted_shoreline.py]

    A shallow embedding of the [Extracted_Shoreline] class and of the module
    function [get_reference_shoreline].

    Python objects with identity (dicts, lists, GeoDataFrames, arrays) live in
    a store indexed by locations; a Python variable holding such an object is
    a reference [VRef l].  Calls into coastsat, geopandas, numpy, json,
    ipyleaflet and [coastseg.common] are answered by an oracle and recorded,
    with their arguments and result, in a trace.  Files written with
    [GeoDataFrame.to_file] are kept in the state.  Logging and [print] have
    no effect on any of this and are left out. *)

From Stdlib Require Import ZArith Ascii String.
From stdpp Require Import base gmap strings list fin_maps.

Open Scope string_scope.
Open Scope nat_scope.
Open Scope list_scope.

#[local] Set Warnings "-clear-no-such-hyp".

(** ** Values and objects *)

Abbreviation loc := positive.

Inductive value : Type :=
  | VNone
  | VBool (b : bool)
  | VInt (z : Z)
  | VFloat (bits : Z)
  | VStr (s : string)
  | VRef (l : loc).

#[global] Instance value_eq_dec : EqDecision value.
Proof. solve_decision. Defined.

(** A [geopandas.GeoDataFrame]: its coordinate reference system, the length
    of its index and its columns. *)
Record GeoDataFrame : Type := mkGeoDataFrame {
  gdf_crs : value;
  gdf_len : nat;
  gdf_columns : gmap string (list value)
}.

Inductive object : Type :=
  | ODict (d : gmap string value)
  | OList (xs : list value)
  | OGdf (g : GeoDataFrame)
  | OForeign (cls : string) (payload : Z).

Inductive pytype : Type :=
  | TNoneType | TBool | TInt | TFloat | TStr
  | TDict | TList | TGeoDataFrame | TForeign (cls : string).

#[global] Instance pytype_eq_dec : EqDecision pytype.
Proof. solve_decision. Defined.

Definition type_of_object (o : object) : pytype :=
  match o with
  | ODict _ => TDict
  | OList _ => TList
  | OGdf _ => TGeoDataFrame
  | OForeign cls _ => TForeign cls
  end.

Definition type_of (h : gmap loc object) (v : value) : option pytype :=
  match v with
  | VNone => Some TNoneType
  | VBool _ => Some TBool
  | VInt _ => Some TInt
  | VFloat _ => Some TFloat
  | VStr _ => Some TStr
  | VRef l => type_of_object <$> h !! l
  end.

(** ** Exceptions, external calls, machine state *)

Inductive extfn : Type :=
  | SDS_download_get_metadata
  | SDS_shoreline_extract_shorelines
  | SDS_tools_remove_duplicates
  | SDS_tools_remove_inaccurate_georef
  | SDS_tools_output_to_gdf
  | GeoDataFrame_to_crs
  | GeoDataFrame_to_file
  | GeoDataFrame_to_json
  | GeoDataFrame_crs_setter
  | json_loads
  | common_make_coastsat_compatible
  | common_get_colors
  | np_vstack
  | np_zeros
  | np_insert
  | builtin_len
  | ipyleaflet_GeoJSON.

#[global] Instance extfn_eq_dec : EqDecision extfn.
Proof. solve_decision. Defined.

Inductive exn : Type :=
  | ValueError
  | KeyError (k : string)
  | TypeError
  | AttributeError
  | IndexError
  | AssertionError
  | RecursionError
  | SystemError
  | No_Extracted_Shoreline (roi_id : value)
  | ExternalError (f : extfn) (code : Z).

#[global] Instance exn_eq_dec : EqDecision exn.
Proof. solve_decision. Defined.

(** One call into a collaborator: the function, its arguments and what it
    returned or raised. *)
Record event : Type := Call {
  ev_fn : extfn;
  ev_args : list value;
  ev_ret : exn + value
}.

(** The fields of one [Extracted_Shoreline] instance. *)
Record instance : Type := mkInstance {
  self_gdf : value;
  self_roi_id : value;
  self_extracted_shorelines : value;
  self_shoreline_settings : value
}.

(** A file written with [GeoDataFrame.to_file]. *)
Record file : Type := mkFile {
  file_driver : string;
  file_encoding : string;
  file_content : GeoDataFrame
}.

Record state : Type := mkState {
  heap : gmap loc object;
  self : instance;
  trace : list event;
  files : gmap string file
}.

Definition set_heap (h : gmap loc object) (s : state) : state :=
  mkState h (self s) (trace s) (files s).
Definition set_self (i : instance) (s : state) : state :=
  mkState (heap s) i (trace s) (files s).
Definition set_trace (t : list event) (s : state) : state :=
  mkState (heap s) (self s) t (files s).
Definition set_files (f : gmap string file) (s : state) : state :=
  mkState (heap s) (self s) (trace s) f.

(** ** The monad of Python computations: state and exceptions *)

Inductive outcome (A : Type) : Type :=
  | Ok (a : A) (s : state)
  | Raise (e : exn) (s : state).
Arguments Ok {A} a s.
Arguments Raise {A} e s.

Definition M (A : Type) : Type := state -> outcome A.

Definition ret {A} (a : A) : M A := fun s => Ok a s.
Definition raise {A} (e : exn) : M A := fun s => Raise e s.
Definition bind {A B} (m : M A) (k : A -> M B) : M B :=
  fun s => match m s with
           | Ok a s' => k a s'
           | Raise e s' => Raise e s'
           end.

Notation "'let*' x ':=' m 'in' k" := (bind m (fun x => k))
  (at level 10, x pattern, m at level 100, k at level 200).
Notation "m ';;' k" := (bind m (fun _ => k))
  (at level 100, k at level 200, right associativity).

Definition final_state {A} (o : outcome A) : state :=
  match o with Ok _ s => s | Raise _ s => s end.

Definition get_heap : M (gmap loc object) := fun s => Ok (heap s) s.
Definition get_self : M instance := fun s => Ok (self s) s.

(** Allocation of a new object. *)
Definition alloc (o : object) : M value :=
  fun s => let l := fresh (dom (heap s)) in
           Ok (VRef l) (set_heap (<[l := o]> (heap s)) s).

(** [isinstance(v, ty)] for the types the module tests. *)
Definition isinstance (v : value) (ty : pytype) : M bool :=
  fun s => Ok (bool_decide (type_of (heap s) v = Some ty)) s.

(** [v[k]] for a string key.  The module subscripts dictionaries only; a
    list refuses a string index with [TypeError], and objects of the other
    classes are taken to do the same. *)
Definition getitem (v : value) (k : string) : M value :=
  fun s => match v with
           | VRef l =>
             match heap s !! l with
             | Some (ODict d) =>
               match d !! k with
               | Some x => Ok x s
               | None => Raise (KeyError k) s
               end
             | Some _ => Raise TypeError s
             | None => Raise SystemError s
             end
           | _ => Raise TypeError s
           end.

(** [v[k] = x] for a string key; on anything but a dictionary as for
    [getitem]. *)
Definition setitem (v : value) (k : string) (x : value) : M unit :=
  fun s => match v with
           | VRef l =>
             match heap s !! l with
             | Some (ODict d) =>
               Ok tt (set_heap (<[l := ODict (<[k := x]> d)]> (heap s)) s)
             | Some _ => Raise TypeError s
             | None => Raise SystemError s
             end
           | _ => Raise TypeError s
           end.

(** [v == {}]. *)
Definition eq_empty_dict (v : value) : M bool :=
  fun s => match v with
           | VRef l =>
             match heap s !! l with
             | Some (ODict d) => Ok (bool_decide (d = ∅)) s
             | _ => Ok false s
             end
           | _ => Ok false s
           end.

(** ** [copy.deepcopy] *)

Definition deepcopy_items
    (cp : value -> gmap loc loc -> gmap loc object ->
          exn + (value * gmap loc loc * gmap loc object)) :
    list value -> gmap loc loc -> gmap loc object ->
    exn + (list value * gmap loc loc * gmap loc object) :=
  fix go vs m h :=
    match vs with
    | [] => inr ([], m, h)
    | v :: vs' =>
      match cp v m h with
      | inl e => inl e
      | inr (v', m1, h1) =>
        match go vs' m1 h1 with
        | inl e => inl e
        | inr (vs'', m2, h2) => inr (v' :: vs'', m2, h2)
        end
      end
    end.

(** [deepcopy depth v memo h].  Values without identity are returned as they
    are.  An object met before is answered from the memo.  A dictionary or a
    list gets a new, empty object, entered in the memo before its items are
    copied in turn, as [_deepcopy_dict] and [_deepcopy_list] do; the finished
    copy is stored once the items are done.  A GeoDataFrame or a foreign
    object is copied as a whole; [copy.deepcopy] returns some foreign
    objects as they are (a tuple of numbers, a function, a class) and refuses
    others, so what is proved of the copy is stated for dictionaries and
    lists, see [containers].  [depth] is the number of containers nested
    in one another that the interpreter's recursion limit still allows;
    beyond it the copy raises [RecursionError].  A reference to no object
    cannot arise in Python and is answered with [SystemError]. *)
Fixpoint deepcopy (depth : nat) (v : value) (m : gmap loc loc)
    (h : gmap loc object) {struct depth} :
    exn + (value * gmap loc loc * gmap loc object) :=
  match v with
  | VRef l =>
    match m !! l with
    | Some l' => inr (VRef l', m, h)
    | None =>
      match h !! l with
      | None => inl SystemError
      | Some (ODict d) =>
        match depth with
        | O => inl RecursionError
        | S depth' =>
          let l' := fresh (dom h) in
          let items := map_to_list d in
          match deepcopy_items (deepcopy depth') (items.*2)
                  (<[l := l']> m) (<[l' := ODict ∅]> h) with
          | inl e => inl e
          | inr (vs, m', h') =>
            inr (VRef l', m', <[l' := ODict (list_to_map (zip (items.*1) vs))]> h')
          end
        end
      | Some (OList xs) =>
        match depth with
        | O => inl RecursionError
        | S depth' =>
          let l' := fresh (dom h) in
          match deepcopy_items (deepcopy depth') xs
                  (<[l := l']> m) (<[l' := OList []]> h) with
          | inl e => inl e
          | inr (vs, m', h') => inr (VRef l', m', <[l' := OList vs]> h')
          end
        end
      | Some o =>
        let l' := fresh (dom h) in
        inr (VRef l', <[l := l']> m, <[l' := o]> h)
      end
    end
  | _ => inr (v, m, h)
  end.


Definition copy_deepcopy (recursion_limit : nat) (v : value) : M value :=
  fun s => match deepcopy recursion_limit v ∅ (heap s) with
           | inl e => Raise e s
           | inr (v', _, h') => Ok v' (set_heap h' s)
           end.

(** ** [os.path.join] (posixpath) *)

Definition starts_with_sep (b : string) : bool :=
  match b with
  | String c _ => bool_decide (c = "/"%char)
  | EmptyString => false
  end.

Fixpoint ends_with_sep (p : string) : bool :=
  match p with
  | EmptyString => false
  | String c EmptyString => bool_decide (c = "/"%char)
  | String _ r => ends_with_sep r
  end.

Definition path_join2 (path b : string) : string :=
  if starts_with_sep b then b
  else if bool_decide (path = "") || ends_with_sep path then path +:+ b
  else path +:+ "/" +:+ b.

Definition as_str (v : value) : M string :=
  match v with
  | VStr x => ret x
  | _ => raise TypeError
  end.

Definition os_path_join (a : value) (p : list value) : M string :=
  let* a := as_str a in
  (fix go (path : string) (p : list value) : M string :=
     match p with
     | [] => ret path
     | b :: p' => let* b := as_str b in go (path_join2 path b) p'
     end) a p.

(** ** Operations on instance fields, lists and GeoDataFrames *)

Definition set_gdf (v : value) : M unit :=
  fun s => Ok tt (set_self (mkInstance v (self_roi_id (self s))
                    (self_extracted_shorelines (self s))
                    (self_shoreline_settings (self s))) s).
Definition set_roi_id (v : value) : M unit :=
  fun s => Ok tt (set_self (mkInstance (self_gdf (self s)) v
                    (self_extracted_shorelines (self s))
                    (self_shoreline_settings (self s))) s).
Definition set_extracted_shorelines (v : value) : M unit :=
  fun s => Ok tt (set_self (mkInstance (self_gdf (self s)) (self_roi_id (self s))
                    v (self_shoreline_settings (self s))) s).
Definition set_shoreline_settings (v : value) : M unit :=
  fun s => Ok tt (set_self (mkInstance (self_gdf (self s)) (self_roi_id (self s))
                    (self_extracted_shorelines (self s)) v) s).

(** [gpd.GeoDataFrame()] *)
Definition empty_gdf : GeoDataFrame := mkGeoDataFrame VNone 0 ∅.

(** [DataFrame.empty]: some axis has length 0. *)
Definition gdf_is_empty (g : GeoDataFrame) : bool :=
  bool_decide (gdf_len g = 0) || bool_decide (gdf_columns g = ∅).

(** [v.empty], asked of a value known to be a GeoDataFrame. *)
Definition gdf_empty (v : value) : M bool :=
  fun s => match v with
           | VRef l =>
             match heap s !! l with
             | Some (OGdf g) => Ok (gdf_is_empty g) s
             | Some _ => Raise AttributeError s
             | None => Raise SystemError s
             end
           | _ => Raise AttributeError s
           end.

(** [v[c].to_list()] on a GeoDataFrame: the column [c], or [KeyError]. *)
Definition gdf_column (v : value) (c : string) : M (list value) :=
  fun s => match v with
           | VRef l =>
             match heap s !! l with
             | Some (OGdf g) =>
               match gdf_columns g !! c with
               | Some col => Ok col s
               | None => Raise (KeyError c) s
               end
             | Some _ => Raise TypeError s
             | None => Raise SystemError s
             end
           | _ => Raise TypeError s
           end.

(** The elements of a list object, read when an iteration over it starts. *)
Definition list_items (v : value) : M (list value) :=
  fun s => match v with
           | VRef l =>
             match heap s !! l with
             | Some (OList xs) => Ok xs s
             | Some _ => Raise TypeError s
             | None => Raise SystemError s
             end
           | _ => Raise TypeError s
           end.

(** [v[idx]] on a list object. *)
Definition list_index (v : value) (idx : nat) : M value :=
  let* xs := list_items v in
  match xs !! idx with
  | Some x => ret x
  | None => raise IndexError
  end.

(** [v.append(x)] *)
Definition list_append (v : value) (x : value) : M unit :=
  fun s => match v with
           | VRef l =>
             match heap s !! l with
             | Some (OList xs) =>
               Ok tt (set_heap (<[l := OList (xs ++ [x])]> (heap s)) s)
             | Some _ => Raise AttributeError s
             | None => Raise SystemError s
             end
           | _ => Raise AttributeError s
           end.

(** [a + b] on strings. *)
Definition str_add (a b : value) : M value :=
  match a, b with
  | VStr x, VStr y => ret (VStr (x +:+ y))
  | _, _ => raise TypeError
  end.

Fixpoint mapM {A B} (f : A -> M B) (xs : list A) : M (list B) :=
  match xs with
  | [] => ret []
  | x :: xs' => let* y := f x in let* ys := mapM f xs' in ret (y :: ys)
  end.

(** [for idx, x in enumerate(xs): body idx x], counting from [idx]. *)
Fixpoint for_enumerate (body : nat -> value -> M unit) (idx : nat)
    (xs : list value) : M unit :=
  match xs with
  | [] => ret tt
  | x :: xs' => body idx x ;; for_enumerate body (S idx) xs'
  end.

Definition write_file (path : string) (f : file) : M unit :=
  fun s => Ok tt (set_files (<[path := f]> (files s)) s).

(** ** The class [Extracted_Shoreline] *)

Definition LAYER_NAME : string := "extracted_shoreline".
Definition FILE_NAME : string := "extracted_shorelines.geojson".

(** The IEEE 754 double nearest to 0.7, as its bit pattern. *)
Definition float_0_7 : Z := 4604480259023595110.

Section Extracted_Shoreline.

(** The collaborators.  [ext] answers a call from the calls made so far,
    the function, its arguments and the current store, with an exception or
    with a result and a store.  [is_list_empty] is [common.is_list_empty].
    [recursion_limit] bounds the nesting [copy.deepcopy] may descend. *)
Variable ext : list event -> extfn -> list value -> gmap loc object ->
               exn + (value * gmap loc object).
Variable is_list_empty : gmap loc object -> value -> exn + bool.
Variable recursion_limit : nat.

Definition ext_call (f : extfn) (args : list value) : M value :=
  fun s => match ext (trace s) f args (heap s) with
           | inl e => Raise e (set_trace (trace s ++ [Call f args (inl e)]) s)
           | inr (v, h') =>
             Ok v (mkState h' (self s) (trace s ++ [Call f args (inr v)]) (files s))
           end.

(** A method of [GeoDataFrame], called on [obj]. *)
Definition gdf_method (f : extfn) (obj : value) (args : list value) : M value :=
  let* b := isinstance obj TGeoDataFrame in
  if b then ext_call f (obj :: args) else raise AttributeError.

(** [v.crs = crs].  [None], dictionaries and lists have no such attribute;
    foreign objects are taken to have none either.  On a GeoDataFrame the
    assignment runs the setter of geopandas, which validates the value and
    may refuse it with an exception: the collaborators are asked, as for a
    call, but an assignment is not entered among the calls.  A value that is
    accepted is stored in the frame [v], in place. *)
Definition set_crs (v : value) (crs : value) : M unit :=
  fun s => match v with
           | VRef l =>
             match heap s !! l with
             | Some (OGdf g) =>
               match ext (trace s) GeoDataFrame_crs_setter [v; crs] (heap s) with
               | inl e => Raise e s
               | inr _ =>
                 Ok tt (set_heap (<[l := OGdf (mkGeoDataFrame crs (gdf_len g)
                                                 (gdf_columns g))]> (heap s)) s)
               end
             | Some _ => Raise AttributeError s
             | None => Raise SystemError s
             end
           | _ => Raise AttributeError s
           end.

(** [obj.to_file(savepath, driver=driver, encoding=encoding)] *)
Definition to_file (obj : value) (savepath driver encoding : string) : M unit :=
  fun s => match obj with
           | VRef l =>
             match heap s !! l with
             | Some (OGdf g) =>
               (ext_call GeoDataFrame_to_file
                  [obj; VStr savepath; VStr driver; VStr encoding] ;;
                write_file savepath (mkFile driver encoding g)) s
             | Some _ => Raise AttributeError s
             | None => Raise SystemError s
             end
           | _ => Raise AttributeError s
           end.

(** [len(v)] *)
Definition py_len (v : value) : M value :=
  fun s => match v with
           | VStr x => Ok (VInt (Z.of_nat (String.length x))) s
           | VRef l =>
             match heap s !! l with
             | Some (ODict d) => Ok (VInt (Z.of_nat (size d))) s
             | Some (OList xs) => Ok (VInt (Z.of_nat (length xs))) s
             | Some (OGdf g) => Ok (VInt (Z.of_nat (gdf_len g))) s
             | Some (OForeign _ _) => ext_call builtin_len [v] s
             | None => Raise SystemError s
             end
           | _ => Raise TypeError s
           end.

Definition call_is_list_empty (v : value) : M bool :=
  fun s => match is_list_empty (heap s) v with
           | inl e => Raise e s
           | inr b => Ok b s
           end.

Definition get_reference_shoreline (shoreline_gdf output_crs : value) : M value :=
  let* reprojected_shorlines :=
    gdf_method GeoDataFrame_to_crs shoreline_gdf [output_crs] in
  let* shorelines :=
    ext_call common_make_coastsat_compatible [reprojected_shorlines] in
  let* shorelines := ext_call np_vstack [shorelines] in
  let* n := py_len shorelines in
  let* zeros := ext_call np_zeros [n] in
  let* shorelines := ext_call np_insert [shorelines; VInt 2; zeros; VInt 1] in
  ret shorelines.

Definition create_shoreline_settings
    (settings roi_settings reference_shoreline : value) : M unit :=
  let* shoreline_settings := copy_deepcopy recursion_limit settings in
  setitem shoreline_settings "reference_shoreline" reference_shoreline ;;
  setitem shoreline_settings "adjust_detection" (VBool false) ;;
  setitem shoreline_settings "check_detection" (VBool false) ;;
  setitem shoreline_settings "inputs" roi_settings ;;
  set_shoreline_settings shoreline_settings.

Definition extract_shorelines
    (shoreline_gdf roi_settings settings : value) : M value :=
  let* output_epsg := getitem settings "output_epsg" in
  let* reference_shoreline :=
    get_reference_shoreline shoreline_gdf output_epsg in
  create_shoreline_settings settings roi_settings reference_shoreline ;;
  let* this := get_self in
  let* inputs := getitem (self_shoreline_settings this) "inputs" in
  let* metadata := ext_call SDS_download_get_metadata [inputs] in
  let* this := get_self in
  let* extracted_shorelines :=
    ext_call SDS_shoreline_extract_shorelines
      [metadata; self_shoreline_settings this] in
  let* extracted_shorelines :=
    ext_call SDS_tools_remove_duplicates [extracted_shorelines] in
  let* extracted_shorelines :=
    ext_call SDS_tools_remove_inaccurate_georef
      [extracted_shorelines; VInt 10] in
  ret extracted_shorelines.

Definition create_geodataframe (input_crs output_crs : value) : M value :=
  let* this := get_self in
  let* extract_shoreline_gdf :=
    ext_call SDS_tools_output_to_gdf
      [self_extracted_shorelines this; VStr "lines"] in
  set_crs extract_shoreline_gdf input_crs ;;
  match output_crs with
  | VNone => ret extract_shoreline_gdf
  | _ => gdf_method GeoDataFrame_to_crs extract_shoreline_gdf [output_crs]
  end.

Definition __init__ (roi_id shoreline roi_settings settings : value) : M unit :=
  let* is_str := isinstance roi_id TStr in
  if negb is_str then raise ValueError else
  let* is_gdf := isinstance shoreline TGeoDataFrame in
  if negb is_gdf then raise ValueError else
  let* empty := gdf_empty shoreline in
  if empty then raise ValueError else
  let* is_dict := isinstance roi_settings TDict in
  if negb is_dict then raise ValueError else
  let* empty := eq_empty_dict roi_settings in
  if empty then raise ValueError else
  let* is_dict := isinstance settings TDict in
  if negb is_dict then raise ValueError else
  let* empty := eq_empty_dict settings in
  if empty then raise ValueError else
  let* g := alloc (OGdf empty_gdf) in
  set_gdf g ;;
  set_roi_id roi_id ;;
  let* d := alloc (ODict ∅) in
  set_extracted_shorelines d ;;
  let* d := alloc (ODict ∅) in
  set_shoreline_settings d ;;
  let* extracted := extract_shorelines shoreline roi_settings settings in
  set_extracted_shorelines extracted ;;
  let* this := get_self in
  let* shorelines := getitem (self_extracted_shorelines this) "shorelines" in
  let* none_extracted := call_is_list_empty shorelines in
  if none_extracted then raise (No_Extracted_Shoreline (self_roi_id this)) else
  let map_crs := VStr "EPSG:4326" in
  let* this := get_self in
  let* input_crs := getitem (self_shoreline_settings this) "output_epsg" in
  let* g := create_geodataframe input_crs map_crs in
  set_gdf g.

Definition save_to_file (sitename filepath : value) : M unit :=
  let* savepath := os_path_join filepath [sitename; VStr FILE_NAME] in
  let* this := get_self in
  to_file (self_gdf this) savepath "GeoJSON" "utf-8".

Definition style_layer (geojson layer_name color : value) : M value :=
  let* empty := eq_empty_dict geojson in
  if empty then raise AssertionError else
  let* style :=
    alloc (ODict (<["color" := color]>
                  (<["opacity" := VInt 1]> (<["weight" := VInt 4]> ∅)))) in
  let* hover_style :=
    alloc (ODict (<["color" := VStr "red"]>
                  (<["dashArray" := VStr "4"]>
                   (<["fillOpacity" := VFloat float_0_7]> ∅)))) in
  ext_call ipyleaflet_GeoJSON [geojson; layer_name; style; hover_style].

Definition get_layer_names : M value :=
  let* this := get_self in
  let roi_id := self_roi_id this in
  let* dates := gdf_column (self_gdf this) "date" in
  let* layer_names :=
    mapM (fun date_str =>
            let* a := str_add (VStr "ID") roi_id in
            let* b := str_add a (VStr "_") in
            str_add b date_str) dates in
  alloc (OList layer_names).

Definition get_styled_layers : M value :=
  let map_crs := VInt 4326 in
  let* this := get_self in
  let* reprojected := gdf_method GeoDataFrame_to_crs (self_gdf this) [map_crs] in
  let* text := gdf_method GeoDataFrame_to_json reprojected [] in
  let* features_json := ext_call json_loads [text] in
  let* features := getitem features_json "features" in
  let* n := py_len features in
  let* layer_colors := ext_call common_get_colors [n] in
  let* layer_names := get_layer_names in
  let* layers := alloc (OList []) in
  let* features := getitem features_json "features" in
  let* items := list_items features in
  for_enumerate
    (fun idx feature =>
       let* name := list_index layer_names idx in
       let* color := list_index layer_colors idx in
       let* geojson_layer := style_layer feature name color in
       list_append layers geojson_layer)
    0 items ;;
  ret layers.

(** The entry points of the module. *)
Inductive operation : Type :=
  | Op_init (roi_id shoreline roi_settings settings : value)
  | Op_extract_shorelines (shoreline_gdf roi_settings settings : value)
  | Op_create_shoreline_settings
      (settings roi_settings reference_shoreline : value)
  | Op_create_geodataframe (input_crs output_crs : value)
  | Op_save_to_file (sitename filepath : value)
  | Op_style_layer (geojson layer_name color : value)
  | Op_get_layer_names
  | Op_get_styled_layers
  | Op_get_reference_shoreline (shoreline_gdf output_crs : value).

Definition run (op : operation) : M value :=
  match op with
  | Op_init a b c d => __init__ a b c d ;; ret VNone
  | Op_extract_shorelines a b c => extract_shorelines a b c
  | Op_create_shoreline_settings a b c =>
    create_shoreline_settings a b c ;; ret VNone
  | Op_create_geodataframe a b => create_geodataframe a b
  | Op_save_to_file a b => save_to_file a b ;; ret VNone
  | Op_style_layer a b c => style_layer a b c
  | Op_get_layer_names => get_layer_names
  | Op_get_styled_layers => get_styled_layers
  | Op_get_reference_shoreline a b => get_reference_shoreline a b
  end.

End Extracted_Shoreline.

(** ** Notions used to state the properties *)

(** The image of a value and of an object under a correspondence [m] between
    objects and their copies. *)
Definition rename (m : gmap loc loc) (v : value) : value :=
  match v with
  | VRef l => match m !! l with Some l' => VRef l' | None => v end
  | _ => v
  end.

Definition rename_obj (m : gmap loc loc) (o : object) : object :=
  match o with
  | ODict d => ODict (rename m <$> d)
  | OList xs => OList (rename m <$> xs)
  | _ => o
  end.

(** The references of a value, of an object, lie in [D]. *)
Definition val_in (D : gset loc) (v : value) : Prop :=
  match v with
  | VRef l => l ∈ D
  | _ => True
  end.

Definition obj_in (D : gset loc) (o : object) : Prop :=
  match o with
  | ODict d => map_Forall (fun _ v => val_in D v) d
  | OList xs => Forall (val_in D) xs
  | _ => True
  end.

(** [L] is a set of allocated objects closed under reference, and the memo
    [m] sends objects of [L] to allocated objects. *)
Definition region (L : gset loc) (m : gmap loc loc) (h : gmap loc object) : Prop :=
  L ⊆ dom h ∧ dom m ⊆ L ∧
  (∀ l, l ∈ L → ∃ o, h !! l = Some o ∧ obj_in L o) ∧
  (∀ l l', m !! l = Some l' → l' ∈ dom h).

(** What a copy started with memo [m] in store [h] has achieved when it
    ends with memo [m'] in store [h']: nothing that existed was touched, and
    every object entered in the memo since has a new object of its own as
    its copy, equal to it up to [m']. *)
Definition copied (L : gset loc) (m : gmap loc loc) (h : gmap loc object)
    (m' : gmap loc loc) (h' : gmap loc object) : Prop :=
  m ⊆ m' ∧ dom m' ⊆ L ∧
  (∀ x, x ∈ dom h → h' !! x = h !! x) ∧
  (∀ l l', m' !! l = Some l' → m !! l = None →
     (l' ∉ dom h) ∧
     (∃ o, h !! l = Some o ∧ obj_in (dom m') o ∧ h' !! l' = Some (rename_obj m' o))) ∧
  (∀ l1 l2 c, m' !! l1 = Some c → m' !! l2 = Some c → m !! l1 = None → l1 = l2).

(** The objects of [L] are dictionaries and lists; with [region], what they
    hold, directly or not, is dictionaries, lists and values without
    identity ([None], booleans, numbers, strings). *)
Definition containers (L : gset loc) (h : gmap loc object) : Prop :=
  ∀ l o, l ∈ L → h !! l = Some o →
         match o with ODict _ | OList _ => True | _ => False end.

(** The keys [create_shoreline_settings] rebinds. *)
Definition patched_keys : list string :=
  ["reference_shoreline"; "adjust_detection"; "check_detection"; "inputs"].

(** Both manual steps of the detection are switched off in the settings the
    instance holds. *)
Definition detection_disabled (s : state) : Prop :=
  ∃ l d, self_shoreline_settings (self s) = VRef l ∧
         heap s !! l = Some (ODict d) ∧
         d !! "adjust_detection" = Some (VBool false) ∧
         d !! "check_detection" = Some (VBool false).

(** The functions of coastsat, the detection library. *)
Definition is_coastsat (f : extfn) : bool :=
  match f with
  | SDS_download_get_metadata | SDS_shoreline_extract_shorelines
  | SDS_tools_remove_duplicates | SDS_tools_remove_inaccurate_georef
  | SDS_tools_output_to_gdf => true
  | _ => false
  end.

Definition coastsat_calls (t : list event) : list event :=
  filter (fun e => is_coastsat (ev_fn e) = true) t.

(** The arguments the constructor accepts. *)
Definition valid_args (h : gmap loc object)
    (roi_id shoreline roi_settings settings : value) : Prop :=
  type_of h roi_id = Some TStr ∧
  (∃ l g, shoreline = VRef l ∧ h !! l = Some (OGdf g) ∧ gdf_is_empty g = false) ∧
  (∃ l d, roi_settings = VRef l ∧ h !! l = Some (ODict d) ∧ d ≠ ∅) ∧
  (∃ l d, settings = VRef l ∧ h !! l = Some (ODict d) ∧ d ≠ ∅).

(** The instance as lines 63 to 69 of the constructor leave it, before the
    extraction starts. *)
Definition fresh_instance (roi_id : value) : M unit :=
  let* g := alloc (OGdf empty_gdf) in
  set_gdf g ;;
  set_roi_id roi_id ;;
  let* d := alloc (ODict ∅) in
  set_extracted_shorelines d ;;
  let* d := alloc (ODict ∅) in
  set_shoreline_settings d.

(** Two states that differ at most in the files. *)
Definition same_but_files (s1 s2 : state) : Prop :=
  heap s1 = heap s2 ∧ self s1 = self s2 ∧ trace s1 = trace s2.

Definition same_outcome {A} (o1 o2 : outcome A) : Prop :=
  match o1, o2 with
  | Ok a1 s1, Ok a2 s2 => a1 = a2 ∧ same_but_files s1 s2
  | Raise e1 s1, Raise e2 s2 => e1 = e2 ∧ same_but_files s1 s2
  | _, _ => False
  end.

(** A computation that never looks at the files. *)
Definition files_blind {A} (m : M A) : Prop :=
  ∀ s1 s2, same_but_files s1 s2 → same_outcome (m s1) (m s2).

(** ** Contracts of the collaborators *)

(** A call returns without touching the objects that exist. *)
Definition ext_frame
    (ext : list event -> extfn -> list value -> gmap loc object ->
           exn + (value * gmap loc object)) : Prop :=
  ∀ t f args h v h', ext t f args h = inr (v, h') →
    ∀ l o, h !! l = Some o → h' !! l = Some o.

(** [to_crs] returns a GeoDataFrame in the coordinate system asked for. *)
Definition to_crs_contract
    (ext : list event -> extfn -> list value -> gmap loc object ->
           exn + (value * gmap loc object)) : Prop :=
  ∀ t g crs h v h', ext t GeoDataFrame_to_crs [g; crs] h = inr (v, h') →
    ∃ l g', v = VRef l ∧ h' !! l = Some (OGdf g') ∧ gdf_crs g' = crs.

(** [l] is a dictionary in which both manual steps are switched off. *)
Definition flags_off (h : gmap loc object) (l : loc) : Prop :=
  ∃ d, h !! l = Some (ODict d) ∧
       d !! "adjust_detection" = Some (VBool false) ∧
       d !! "check_detection" = Some (VBool false).

(** A call may change the objects it can reach, the settings it is handed
    among them, but it leaves the two flags alone: a dictionary in which both
    are [False] is, when the call returns, a dictionary in which both are
    [False]. *)
Definition keeps_detection_flags
    (ext : list event -> extfn -> list value -> gmap loc object ->
           exn + (value * gmap loc object)) : Prop :=
  ∀ t f args h v h', ext t f args h = inr (v, h') →
    ∀ l, flags_off h l → flags_off h' l.

(** [common.is_list_empty] answers [True] on a list without elements. *)
Definition is_list_empty_contract
    (is_list_empty : gmap loc object -> value -> exn + bool) : Prop :=
  ∀ h l, h !! l = Some (OList []) → is_list_empty h (VRef l) = inr true.

(** ** A concrete run *)

(** Modelled from the spec: [coastseg.common.is_list_empty] is not among the
    sources; the constructor uses it to decide whether the ['shorelines'] list
    of the extracted-shorelines dictionary is empty. *)
Definition is_list_empty_model (h : gmap loc object) (v : value) : exn + bool :=
  match v with
  | VRef l =>
    match h !! l with
    | Some (OList xs) => inr (bool_decide (xs = []))
    | Some _ => inl TypeError
    | None => inl SystemError
    end
  | _ => inl TypeError
  end.

Definition halloc (o : object) (h : gmap loc object) : loc * gmap loc object :=
  let l := fresh (dom h) in (l, <[l := o]> h).

Definition sample_date : string := "2018-12-31 19:03:17".

(** Collaborators that extract [n] shorelines, all on one date. *)
Definition sample_ext (n : nat) (t : list event) (f : extfn) (args : list value)
    (h : gmap loc object) : exn + (value * gmap loc object) :=
  match f, args with
  | GeoDataFrame_to_crs, [VRef g; crs] =>
    match h !! g with
    | Some (OGdf x) =>
      let '(l, h1) := halloc (OGdf (mkGeoDataFrame crs (gdf_len x) (gdf_columns x))) h in
      inr (VRef l, h1)
    | _ => inl (ExternalError f 1)
    end
  | common_make_coastsat_compatible, [_] =>
    let '(l, h1) := halloc (OForeign "list" 0) h in inr (VRef l, h1)
  | np_vstack, [_] | np_zeros, [_] | np_insert, [_; _; _; _] =>
    let '(l, h1) := halloc (OForeign "ndarray" 0) h in inr (VRef l, h1)
  | builtin_len, [_] => inr (VInt 2, h)
  | SDS_download_get_metadata, [_] =>
    let '(l, h1) := halloc (ODict ∅) h in inr (VRef l, h1)
  | SDS_shoreline_extract_shorelines, [_; _] =>
    let '(a, h1) := halloc (OForeign "ndarray" 1) h in
    let '(sl, h2) := halloc (OList (replicate n (VRef a))) h1 in
    let '(dl, h3) := halloc (OList (replicate n (VStr sample_date))) h2 in
    let '(l, h4) := halloc (ODict (<["shorelines" := VRef sl]>
                                   (<["dates" := VRef dl]> ∅))) h3 in
    inr (VRef l, h4)
  | SDS_tools_remove_duplicates, [VRef x] | SDS_tools_remove_inaccurate_georef, [VRef x; _] =>
    match h !! x with
    | Some o => let '(l, h1) := halloc o h in inr (VRef l, h1)
    | None => inl (ExternalError f 2)
    end
  | SDS_tools_output_to_gdf, [_; _] =>
    let '(l, h1) :=
      halloc (OGdf (mkGeoDataFrame VNone n
                      (<["date" := replicate n (VStr sample_date)]>
                       (<["geometry" := replicate n (VStr "LINESTRING")]> ∅)))) h in
    inr (VRef l, h1)
  | GeoDataFrame_to_file, [_; _; _; _] => inr (VNone, h)
  | GeoDataFrame_to_json, [_] => inr (VStr "FeatureCollection", h)
  | GeoDataFrame_crs_setter, [_; _] => inr (VNone, h)
  | json_loads, [_] =>
    let '(ft, h1) := halloc (ODict (<["type" := VStr "Feature"]> ∅)) h in
    let '(fl, h2) := halloc (OList (replicate n (VRef ft))) h1 in
    let '(l, h3) := halloc (ODict (<["features" := VRef fl]> ∅)) h2 in
    inr (VRef l, h3)
  | common_get_colors, [VInt k] =>
    let '(l, h1) := halloc (OList (replicate (Z.to_nat k) (VStr "#ff0000"))) h in
    inr (VRef l, h1)
  | ipyleaflet_GeoJSON, [_; _; _; _] =>
    let '(l, h1) := halloc (OForeign "GeoJSON" 0) h in inr (VRef l, h1)
  | _, _ => inl (ExternalError f 0)
  end.

(** The same collaborators, with a detection that records a minimum length
    in the settings it is handed before it extracts. *)
Definition sample_ext_writing (n : nat) (t : list event) (f : extfn)
    (args : list value) (h : gmap loc object) : exn + (value * gmap loc object) :=
  match f, args with
  | SDS_shoreline_extract_shorelines, [_; VRef st] =>
    match h !! st with
    | Some (ODict d) =>
      sample_ext n t f args (<[st := ODict (<["min_length_sl" := VInt 500]> d)]> h)
    | _ => sample_ext n t f args h
    end
  | _, _ => sample_ext n t f args h
  end.

(** A caller's store: the reference shoreline at 1, the ROI settings at 2,
    the settings at 3, holding the list at 4. *)
Definition sample_heap : gmap loc object :=
  <[1%positive := OGdf (mkGeoDataFrame (VStr "EPSG:4326") 1
                          (<["geometry" := [VStr "LINESTRING"]]> ∅))]>
  (<[2%positive := ODict (<["sitename" := VStr "ID21"]>
                          (<["dates" := VStr "2018-12-01"]> ∅))]>
  (<[3%positive := ODict (<["output_epsg" := VInt 32610]>
                          (<["adjust_detection" := VBool true]>
                           (<["sat_list" := VRef 4%positive]> ∅)))]>
  (<[4%positive := OList [VStr "L8"; VStr "S2"]]> ∅))).

Definition blank_instance : instance := mkInstance VNone VNone VNone VNone.

Definition sample_state : state := mkState sample_heap blank_instance [] ∅.

(** The state after constructing an instance in [sample_state] with [n]
    extracted shorelines. *)
Definition sample_run (n : nat) : outcome unit :=
  __init__ (sample_ext n) is_list_empty_model 10
    (VStr "21") (VRef 1%positive) (VRef 2%positive) (VRef 3%positive) sample_state.

(** ** Notions used in the proofs and the sample run *)

(** Every object of [h] is the same object in [h']. *)
Definition untouched (h h' : gmap loc object) : Prop :=
  ∀ x, x ∈ dom h → h' !! x = h !! x.

(** [m] keeps [P] true, however it ends. *)
Definition preserves {A} (P : state → Prop) (m : M A) : Prop :=
  ∀ s, P s → P (final_state (m s)).

(** When [m] returns, [Q] holds. *)
Definition ensures {A} (Q : state → Prop) (m : M A) : Prop :=
  ∀ s a s', m s = Ok a s' → Q s'.

(** [m] leaves every dictionary that exists as it is, and does not assign
    [self.shoreline_settings]. *)
Definition stable {A} (m : M A) : Prop :=
  ∀ s, self_shoreline_settings (self (final_state (m s))) =
       self_shoreline_settings (self s) ∧
       ∀ l d, heap s !! l = Some (ODict d) →
              heap (final_state (m s)) !! l = Some (ODict d).

(** [m] does not assign [self.shoreline_settings] and leaves the two flags
    alone in every dictionary in which both are [False]. *)
Definition flag_stable {A} (m : M A) : Prop :=
  ∀ s, self_shoreline_settings (self (final_state (m s))) =
       self_shoreline_settings (self s) ∧
       ∀ l, flags_off (heap s) l → flags_off (heap (final_state (m s))) l.

(** [m] relates the objects reachable from [root] in [h] to new objects of
    [h'], one each, with [root'] for [root]; the copy of every object but
    the root is equal to it up to [m]. *)
Definition deep_copy_of (h h' : gmap loc object) (m : gmap loc loc)
    (root root' : loc) : Prop :=
  m !! root = Some root' ∧
  (∀ l c, m !! l = Some c →
     (c ∉ dom h) ∧
     (∃ o, h !! l = Some o ∧ obj_in (dom m) o ∧
           (l ≠ root → h' !! c = Some (rename_obj m o)))) ∧
  (∀ l1 l2 c, m !! l1 = Some c → m !! l2 = Some c → l1 = l2).

(** An operation other than the constructor. *)
Definition is_method (op : operation) : Prop :=
  match op with
  | Op_init _ _ _ _ => False
  | _ => True
  end.

(** [v] is an empty GeoDataFrame, an empty dictionary. *)
Definition is_empty_gdf (h : gmap loc object) (v : value) : Prop :=
  ∃ l g, v = VRef l ∧ h !! l = Some (OGdf g) ∧ gdf_is_empty g = true.

Definition is_empty_dict (h : gmap loc object) (v : value) : Prop :=
  ∃ l, v = VRef l ∧ h !! l = Some (ODict ∅).

(** The arguments the constructor refuses. *)
Definition invalid_args (h : gmap loc object)
    (roi_id shoreline roi_settings settings : value) : Prop :=
  type_of h roi_id ≠ Some TStr ∨
  type_of h shoreline ≠ Some TGeoDataFrame ∨ is_empty_gdf h shoreline ∨
  type_of h roi_settings ≠ Some TDict ∨ is_empty_dict h roi_settings ∨
  type_of h settings ≠ Some TDict ∨ is_empty_dict h settings.

(** [m] calls no collaborator. *)
Definition silent {A} (m : M A) : Prop :=
  ∀ s, trace (final_state (m s)) = trace s.

(** Every call [m] makes satisfies [P]. *)
Definition emits {A} (P : event → Prop) (m : M A) : Prop :=
  ∀ s, ∃ t, trace (final_state (m s)) = trace s ++ t ∧ Forall P t.

(** The constructor from the assignment of line 72 on, once
    [extract_shorelines] has returned [extracted]. *)
Definition init_finish
    (ext : list event -> extfn -> list value -> gmap loc object ->
           exn + (value * gmap loc object))
    (is_list_empty : gmap loc object -> value -> exn + bool)
    (extracted : value) : M unit :=
  set_extracted_shorelines extracted ;;
  let* this := get_self in
  let* shorelines := getitem (self_extracted_shorelines this) "shorelines" in
  let* none_extracted := call_is_list_empty is_list_empty shorelines in
  if none_extracted then raise (No_Extracted_Shoreline (self_roi_id this)) else
  let* this := get_self in
  let* input_crs := getitem (self_shoreline_settings this) "output_epsg" in
  let* g := create_geodataframe ext input_crs (VStr "EPSG:4326") in
  set_gdf g.

(** [m] does not change the component [f] of the state. *)
Definition keeps {A X} (f : state → X) (m : M A) : Prop :=
  ∀ s, f (final_state (m s)) = f s.

(** ['ID' + roi_id + '_' + date_str] *)
Definition layer_name (roi_id date_str : string) : string :=
  (("ID" +:+ roi_id) +:+ "_") +:+ date_str.

(** An operation that changes the files, and one whose behaviour depends on
    them. *)
Definition writes_files
    (ext : list event -> extfn -> list value -> gmap loc object ->
           exn + (value * gmap loc object))
    (is_list_empty : gmap loc object -> value -> exn + bool)
    (recursion_limit : nat) (op : operation) : Prop :=
  ∃ s, files (final_state (run ext is_list_empty recursion_limit op s)) ≠ files s.

Definition reads_files
    (ext : list event -> extfn -> list value -> gmap loc object ->
           exn + (value * gmap loc object))
    (is_list_empty : gmap loc object -> value -> exn + bool)
    (recursion_limit : nat) (op : operation) : Prop :=
  ¬ files_blind (run ext is_list_empty recursion_limit op).

(** The claim of the specification: some operation writes the feature
    collection to a file and some operation reads one back. *)
Definition serializes_and_deserializes
    (ext : list event -> extfn -> list value -> gmap loc object ->
           exn + (value * gmap loc object))
    (is_list_empty : gmap loc object -> value -> exn + bool)
    (recursion_limit : nat) : Prop :=
  (∃ op, writes_files ext is_list_empty recursion_limit op) ∧
  (∃ op, reads_files ext is_list_empty recursion_limit op).

(** The construction of [sample_run] with the detection that writes into
    the settings. *)
Definition sample_run_writing : outcome unit :=
  __init__ (sample_ext_writing 1) is_list_empty_model 10
    (VStr "21") (VRef 1%positive) (VRef 2%positive) (VRef 3%positive) sample_state.

(** The caller's settings of [sample_heap] and the objects reachable from
    them. *)
Definition sample_settings : gmap string value :=
  <["output_epsg" := VInt 32610]>
  (<["adjust_detection" := VBool true]>
   (<["sat_list" := VRef 4%positive]> ∅)).

Definition sample_region : gset loc := {[3%positive; 4%positive]}.

(** [extract_shorelines] run in [sample_state]. *)
Definition sample_extraction : outcome value :=
  extract_shorelines (sample_ext 1) 10
    (VRef 1%positive) (VRef 2%positive) (VRef 3%positive) sample_state.

(** The value an outcome returns, if it does. *)
Definition returned {A} (o : outcome A) (default : A) : A :=
  match o with Ok a _ => a | Raise _ _ => default end.

(** The frame the sample construction leaves in [self.gdf]. *)
Definition sample_gdf : GeoDataFrame :=
  mkGeoDataFrame (VStr "EPSG:4326") 1
    (<["date" := [VStr sample_date]]> (<["geometry" := [VStr "LINESTRING"]]> ∅)).

(** The state after the sample construction, and a path to save to. *)
Definition sample_instance : state := final_state (sample_run 1).

Definition sample_savepath : string :=
  path_join2 (path_join2 "/data" "ID21") FILE_NAME.

(** [extract_shorelines] as the constructor runs it when the detection finds
    no shoreline. *)
Definition sample_empty_extraction : outcome value :=
  extract_shorelines (sample_ext 0) 10
    (VRef 1%positive) (VRef 2%positive) (VRef 3%positive)
    (final_state (fresh_instance (VStr "21") sample_state)).

(** ** Notions of the further properties *)
(** [m] leaves every dictionary that exists as it is. *)
Definition dicts_kept {A} (m : M A) : Prop :=
  ∀ s l d, heap s !! l = Some (ODict d) →
           heap (final_state (m s)) !! l = Some (ODict d).

(** The operation is [save_to_file]. *)
Definition is_save_to_file (op : operation) : Prop :=
  match op with
  | Op_save_to_file _ _ => True
  | _ => False
  end.

(** The value is a [str]. *)
Definition is_str (v : value) : Prop :=
  match v with VStr _ => True | _ => False end.

#[local] Instance is_str_dec v : Decision (is_str v).
Proof. destruct v; simpl; apply _. Defined.

(** The value has no identity: [None], a boolean, a number or a string. *)
Definition is_atom (v : value) : Prop :=
  match v with VRef _ => False | _ => True end.

(** The layer name [get_layer_names] builds for one date. *)
Definition name_of_date (roi_id date_str : value) : M value :=
  let* a := str_add (VStr "ID") roi_id in
  let* b := str_add a (VStr "_") in
  str_add b date_str.

(** The style and the hover style [style_layer] gives a layer. *)
Definition layer_style (color : value) : gmap string value :=
  <["color" := color]> (<["opacity" := VInt 1]> (<["weight" := VInt 4]> ∅)).
Definition layer_hover_style : gmap string value :=
  <["color" := VStr "red"]>
  (<["dashArray" := VStr "4"]> (<["fillOpacity" := VFloat float_0_7]> ∅)).

(** [json.loads] returns a feature collection, a dictionary with a list
    under ['features'], and [get_colors] returns a list. *)
Definition layers_contract
    (ext : list event -> extfn -> list value -> gmap loc object ->
           exn + (value * gmap loc object)) : Prop :=
  (∀ t text h v h', ext t json_loads [text] h = inr (v, h') →
     ∃ lj dj lf features,
       v = VRef lj ∧ h' !! lj = Some (ODict dj) ∧
       dj !! "features" = Some (VRef lf) ∧ h' !! lf = Some (OList features)) ∧
  (∀ t n h v h', ext t common_get_colors [n] h = inr (v, h') →
     ∃ lc colors, v = VRef lc ∧ h' !! lc = Some (OList colors)).

(** [v] is a list of [h] whose element [i] is [x]. *)
Definition item (h : gmap loc object) (v : value) (i : nat) (x : value) : Prop :=
  ∃ l xs, v = VRef l ∧ h !! l = Some (OList xs) ∧ xs !! i = Some x.

(** [e] is a call [GeoJSON(data=feature, name=name, style=..., hover_style=...)]
    that returned [layer]; its two style dictionaries are objects of [h], the
    first in [color]. *)
Definition styled (h : gmap loc object) (feature name color layer : value)
    (e : event) : Prop :=
  ∃ ls lh, ls ≠ lh ∧
    e = Call ipyleaflet_GeoJSON [feature; name; VRef ls; VRef lh] (inr layer) ∧
    h !! ls = Some (ODict (layer_style color)) ∧
    h !! lh = Some (ODict layer_hover_style).

(** [get_reference_shoreline] run in [sample_state]. *)
Definition sample_reference : outcome value :=
  get_reference_shoreline (sample_ext 1) (VRef 1%positive) (VInt 32610)
    sample_state.

(** [get_styled_layers] run on the sample instance. *)
Definition sample_layers : outcome value :=
  get_styled_layers (sample_ext 1) sample_instance.

(** The sample instance once its [roi_id] has been set to [None]. *)
Definition sample_unnamed : state :=
  final_state (set_roi_id VNone sample_instance).

(** * Properties *)

(** ** [copy.deepcopy] *)

Lemma val_in_mono (D D' : gset loc) v : D ⊆ D' → val_in D v → val_in D' v.
Proof. destruct v; simpl; set_solver. Qed.

Lemma obj_in_mono (D D' : gset loc) o : D ⊆ D' → obj_in D o → obj_in D' o.
Proof.
  intros HD. destruct o; simpl; try done.
  - intros Ho. eapply map_Forall_impl; [exact Ho|].
    intros k v; by apply val_in_mono.
  - intros Ho. eapply Forall_impl; [exact Ho|].
    intros v; by apply val_in_mono.
Qed.

Lemma rename_mono (m m' : gmap loc loc) v :
  m ⊆ m' → val_in (dom m) v → rename m' v = rename m v.
Proof.
  intros Hm Hv. destruct v as [| | | | |l]; simpl in *; try done.
  apply elem_of_dom in Hv as [l' Hl'].
  by rewrite Hl', (lookup_weaken _ _ _ _ Hl' Hm).
Qed.

Lemma rename_obj_mono (m m' : gmap loc loc) o :
  m ⊆ m' → obj_in (dom m) o → rename_obj m' o = rename_obj m o.
Proof.
  intros Hm Ho. destruct o as [d|xs| |]; simpl in *; try done.
  - f_equal. apply map_eq; intros k. rewrite !lookup_fmap.
    destruct (d !! k) as [v|] eqn:Hk; simpl; [|done].
    f_equal. apply rename_mono; [done|]. by apply (Ho k v).
  - f_equal. apply list_fmap_ext; intros i v Hi.
    apply rename_mono; [done|].
    rewrite Forall_lookup in Ho. by apply (Ho i v).
Qed.

Lemma copied_refl L (m : gmap loc loc) (h : gmap loc object) :
  dom m ⊆ L → copied L m h m h.
Proof.
  intros HL. split; [done|]. split; [done|]. split; [done|].
  split; [intros l l' Hl Hn|intros l1 l2 c Hl _ Hn]; congruence.
Qed.

Lemma copied_dom L (m m' : gmap loc loc) (h h' : gmap loc object) :
  copied L m h m' h' → dom h ⊆ dom h'.
Proof.
  intros (_ & _ & Hfr & _) x Hx. apply elem_of_dom.
  rewrite (Hfr x Hx). by apply elem_of_dom.
Qed.

Lemma copied_trans L (m m1 m2 : gmap loc loc) (h h1 h2 : gmap loc object) :
  L ⊆ dom h →
  copied L m h m1 h1 → copied L m1 h1 m2 h2 → copied L m h m2 h2.
Proof.
  intros HL H1 H2.
  pose proof (copied_dom _ _ _ _ _ H1) as Hd1.
  destruct H1 as (Hm1 & HL1 & Hfr1 & Hnew1 & Hinj1).
  destruct H2 as (Hm2 & HL2 & Hfr2 & Hnew2 & Hinj2).
  split; [by trans m1|]. split; [done|]. split; [|split].
  - intros x Hx. rewrite Hfr2; [by apply Hfr1|by apply Hd1].
  - intros l l' Hl Hn. destruct (m1 !! l) as [l1|] eqn:Hl1.
    + assert (l1 = l') as -> by (pose proof (lookup_weaken _ _ _ _ Hl1 Hm2); congruence).
      destruct (Hnew1 l l' Hl1 Hn) as (Hfresh & o & Ho & Hin & Hcp).
      split; [done|]. exists o. split; [done|]. split.
      * eapply obj_in_mono; [|done]. by apply subseteq_dom.
      * rewrite Hfr2 by (apply elem_of_dom; eauto).
        rewrite Hcp. f_equal. symmetry. by apply rename_obj_mono.
    + destruct (Hnew2 l l' Hl Hl1) as (Hfresh & o & Ho & Hin & Hcp).
      split; [intros Hx; by apply Hfresh, Hd1|]. exists o. split; [|done].
      rewrite <- Hfr1; [done|].
      apply HL, HL2. apply elem_of_dom; eauto.
  - intros l1 l2 c Hl1 Hl2 Hn. destruct (m1 !! l1) as [c1|] eqn:Hc1.
    + assert (c1 = c) as -> by (pose proof (lookup_weaken _ _ _ _ Hc1 Hm2); congruence).
      destruct (m1 !! l2) as [c2|] eqn:Hc2.
      * assert (c2 = c) as -> by (pose proof (lookup_weaken _ _ _ _ Hc2 Hm2); congruence).
        by eapply Hinj1.
      * exfalso. destruct (Hnew2 l2 c Hl2 Hc2) as (Hfresh & _).
        destruct (Hnew1 l1 c Hc1 Hn) as (_ & o & _ & _ & Hcp).
        apply Hfresh. apply elem_of_dom; eauto.
    + by eapply Hinj2.
Qed.

Lemma region_copied L (m m' : gmap loc loc) (h h' : gmap loc object) :
  region L m h → copied L m h m' h' → region L m' h'.
Proof.
  intros (HL & Hm & Hcl & Himg) Hc.
  pose proof (copied_dom _ _ _ _ _ Hc) as Hd.
  destruct Hc as (Hmm & HL' & Hfr & Hnew & _).
  split; [set_solver|]. split; [done|]. split.
  - intros l Hl. destruct (Hcl l Hl) as (o & Ho & Hin).
    exists o. split; [|done]. rewrite Hfr; [done|]. by apply HL.
  - intros l l' Hl. destruct (m !! l) as [c|] eqn:Hc.
    + assert (c = l') as -> by (pose proof (lookup_weaken _ _ _ _ Hc Hmm); congruence).
      apply Hd. by eapply Himg.
    + destruct (Hnew l l' Hl Hc) as (_ & o & _ & _ & Hcp).
      apply elem_of_dom; eauto.
Qed.

Section deepcopy_items.
Variable L : gset loc.
Variable cp : value -> gmap loc loc -> gmap loc object ->
              exn + (value * gmap loc loc * gmap loc object).
Hypothesis cp_copied : ∀ v m h v' m' h',
  region L m h → val_in L v → cp v m h = inr (v', m', h') →
  copied L m h m' h' ∧ v' = rename m' v ∧ val_in (dom m') v.

Lemma deepcopy_items_copied vs : ∀ m h vs' m' h',
  region L m h → Forall (val_in L) vs →
  deepcopy_items cp vs m h = inr (vs', m', h') →
  copied L m h m' h' ∧ vs' = rename m' <$> vs ∧ Forall (val_in (dom m')) vs.
Proof.
  induction vs as [|v vs IH]; intros m h vs' m' h' Hreg Hvs Hrun; simpl in Hrun.
  - simplify_eq. split; [apply copied_refl, Hreg|]. by split.
  - apply Forall_cons in Hvs as [Hv Hvs].
    destruct (cp v m h) as [e|[[v1 m1] h1]] eqn:Hcp; [done|].
    destruct (deepcopy_items cp vs m1 h1) as [e|[[vs2 m2] h2]] eqn:Hrest; [done|].
    simplify_eq.
    destruct (cp_copied _ _ _ _ _ _ Hreg Hv Hcp) as (Hc1 & -> & Hin1).
    pose proof (region_copied _ _ _ _ _ Hreg Hc1) as Hreg1.
    destruct (IH _ _ _ _ _ Hreg1 Hvs Hrest) as (Hc2 & -> & Hin2).
    assert (m1 ⊆ m') as Hsub by apply Hc2.
    split; [eapply copied_trans; [apply Hreg|done..]|]. split.
    + simpl. f_equal. symmetry. by apply rename_mono.
    + constructor; [|done]. eapply val_in_mono; [|done]. by apply subseteq_dom.
Qed.
End deepcopy_items.

Lemma region_enter L (m : gmap loc loc) (h : gmap loc object) l l' ph :
  region L m h → l ∈ L → l' ∉ dom h →
  region L (<[l := l']> m) (<[l' := ph]> h).
Proof.
  intros (HL & Hm & Hcl & Himg) Hl Hfresh. split; [|split; [|split]].
  - rewrite dom_insert_L. set_solver.
  - rewrite dom_insert_L. set_solver.
  - intros x Hx. destruct (Hcl x Hx) as (o & Ho & Hin). exists o.
    split; [|done]. rewrite lookup_insert_ne; [done|].
    intros ->. by apply Hfresh, HL.
  - intros k k' Hk. rewrite dom_insert_L.
    destruct (decide (k = l)) as [->|Hne].
    + rewrite lookup_insert_eq in Hk. set_solver.
    + rewrite lookup_insert_ne in Hk by done. apply Himg in Hk. set_solver.
Qed.

(** Closing the copy of one object: [l'] was reserved for the copy of [l],
    the parts of [l] were copied, and the finished copy is stored at [l']. *)
Lemma copied_close L (m m' : gmap loc loc) (h h' : gmap loc object) l o l' ph :
  region L m h → l ∈ L → m !! l = None → h !! l = Some o → l' ∉ dom h →
  copied L (<[l := l']> m) (<[l' := ph]> h) m' h' →
  obj_in (dom m') o →
  copied L m h m' (<[l' := rename_obj m' o]> h').
Proof.
  intros (HL & Hm & Hcl & Himg) Hl Hnone Ho Hfresh
    (Hsub & HL' & Hfr & Hnew & Hinj) Hin.
  assert (m' !! l = Some l') as Hl'.
  { eapply lookup_weaken; [|done]. apply lookup_insert_eq. }
  split; [|split; [done|split; [|split]]].
  - trans (<[l := l']> m); [by apply insert_subseteq|done].
  - intros x Hx. assert (x ≠ l') by (intros ->; done).
    rewrite lookup_insert_ne by done.
    rewrite Hfr by (rewrite dom_insert_L; set_solver).
    by rewrite lookup_insert_ne.
  - intros k k' Hk Hkn. destruct (decide (k = l)) as [->|Hne].
    + assert (k' = l') as -> by congruence.
      split; [done|]. exists o. split; [done|]. split; [done|].
      apply lookup_insert_eq.
    + destruct (Hnew k k' Hk) as (Hk' & o' & Ho' & Hin' & Hcp).
      { by rewrite lookup_insert_ne. }
      rewrite dom_insert_L in Hk'.
      assert (k' ≠ l') by set_solver.
      split; [set_solver|]. exists o'. split; [|split; [done|]].
      * rewrite lookup_insert_ne in Ho'; [done|].
        intros ->. apply Hfresh, HL, HL'. apply elem_of_dom; eauto.
      * by rewrite lookup_insert_ne.
  - intros l1 l2 c Hl1 Hl2 Hn. destruct (decide (l1 = l)) as [->|Hne].
    + assert (c = l') as -> by congruence.
      destruct (decide (l2 = l)) as [->|Hne2]; [done|]. exfalso.
      destruct (m !! l2) as [c2|] eqn:Hc2.
      * assert (m' !! l2 = Some c2) as Hc2'.
        { eapply lookup_weaken; [|done]. by rewrite lookup_insert_ne. }
        assert (c2 = l') as -> by congruence.
        by apply Hfresh, (Himg l2).
      * destruct (Hnew l2 l' Hl2) as (Hk' & _).
        { by rewrite lookup_insert_ne. }
        apply Hk'. rewrite dom_insert_L. set_solver.
    + eapply Hinj; [done..|]. by rewrite lookup_insert_ne.
Qed.

Lemma zip_fmap_snd {A B C} (f : B → C) (l : list (A * B)) :
  zip (l.*1) (f <$> l.*2) = prod_map id f <$> l.
Proof. induction l as [|[a b] l IH]; csimpl; [done|]. by rewrite IH. Qed.

Lemma list_to_map_zip_fmap (f : value → value) (d : gmap string value) :
  list_to_map (zip ((map_to_list d).*1) (f <$> (map_to_list d).*2)) = f <$> d.
Proof.
  rewrite zip_fmap_snd, list_to_map_fmap. by rewrite list_to_map_to_list.
Qed.

Lemma obj_in_dict_items (D : gset loc) (d : gmap string value) :
  obj_in D (ODict d) ↔ Forall (val_in D) ((map_to_list d).*2).
Proof.
  simpl. rewrite map_Forall_to_list, Forall_fmap.
  apply Forall_iff. by intros [k v].
Qed.

(** A copy that returns has copied: the result is the image of the argument,
    and each object met on the way has a new object as its copy. *)
Lemma deepcopy_copied L depth : ∀ v m h v' m' h',
  region L m h → val_in L v →
  deepcopy depth v m h = inr (v', m', h') →
  copied L m h m' h' ∧ v' = rename m' v ∧ val_in (dom m') v.
Proof.
  assert (∀ (m : gmap loc loc) (h : gmap loc object) l o,
            region L m h → l ∈ L → m !! l = None → h !! l = Some o →
            rename_obj (<[l := fresh (dom h)]> m) o = o →
            obj_in (dom (<[l := fresh (dom h)]> m)) o →
            copied L m h (<[l := fresh (dom h)]> m) (<[fresh (dom h) := o]> h) ∧
            VRef (fresh (dom h)) = rename (<[l := fresh (dom h)]> m) (VRef l) ∧
            val_in (dom (<[l := fresh (dom h)]> m)) (VRef l)) as Hleaf.
  { intros m h l o Hreg Hl Hnone Ho Hid Hin.
    pose proof (is_fresh (dom h)) as Hfresh.
    split; [|split].
    - replace (<[fresh (dom h) := o]> h)
        with (<[fresh (dom h) := rename_obj (<[l := fresh (dom h)]> m) o]>
                (<[fresh (dom h) := o]> h))
        by (by rewrite Hid, insert_insert_eq).
      eapply copied_close; try done.
      apply copied_refl. rewrite dom_insert_L.
      destruct Hreg as (_ & ? & _). set_solver.
    - simpl. by rewrite lookup_insert_eq.
    - simpl. rewrite dom_insert_L. set_solver. }
  induction depth as [|depth IH]; intros v m h v' m' h' Hreg Hv Hrun.
  - destruct v as [| | | | |l]; simpl in Hrun; simplify_eq;
      try (split; [apply copied_refl, Hreg|by split]).
    destruct (m !! l) as [l1|] eqn:Hm.
    { simplify_eq. split; [apply copied_refl, Hreg|]. simpl. rewrite Hm.
      split; [done|]. apply elem_of_dom; eauto. }
    destruct (h !! l) as [[d|xs|g|c p]|] eqn:Ho; simplify_eq.
    + by apply Hleaf.
    + by apply Hleaf.
  - destruct v as [| | | | |l]; simpl in Hrun; simplify_eq;
      try (split; [apply copied_refl, Hreg|by split]).
    destruct (m !! l) as [l1|] eqn:Hm.
    { simplify_eq. split; [apply copied_refl, Hreg|]. simpl. rewrite Hm.
      split; [done|]. apply elem_of_dom; eauto. }
    pose proof (is_fresh (dom h)) as Hfresh.
    simpl in Hv.
    destruct (h !! l) as [[d|xs|g|c p]|] eqn:Ho; simplify_eq.
    + destruct (deepcopy_items _ _ _ _) as [e|[[vs m1] h1]] eqn:Hitems; simplify_eq.
      assert (obj_in L (ODict d)) as Hd.
      { destruct Hreg as (_ & _ & Hcl & _). destruct (Hcl l Hv) as (o & Ho' & ?).
        by simplify_eq. }
      eapply (deepcopy_items_copied L _ IH) in Hitems as (Hc & -> & Hin);
        [|by apply region_enter|by apply obj_in_dict_items].
      assert (m' !! l = Some (fresh (dom h))) as Hl'.
      { eapply lookup_weaken; [apply lookup_insert_eq|apply Hc]. }
      split; [|split].
      * rewrite list_to_map_zip_fmap.
        change (ODict (rename m' <$> d)) with (rename_obj m' (ODict d)).
        eapply copied_close; try done. by apply obj_in_dict_items.
      * simpl. by rewrite Hl'.
      * simpl. apply elem_of_dom; eauto.
    + destruct (deepcopy_items _ _ _ _) as [e|[[vs m1] h1]] eqn:Hitems; simplify_eq.
      assert (obj_in L (OList xs)) as Hd.
      { destruct Hreg as (_ & _ & Hcl & _). destruct (Hcl l Hv) as (o & Ho' & ?).
        by simplify_eq. }
      eapply (deepcopy_items_copied L _ IH) in Hitems as (Hc & -> & Hin);
        [|by apply region_enter|done].
      assert (m' !! l = Some (fresh (dom h))) as Hl'.
      { eapply lookup_weaken; [apply lookup_insert_eq|apply Hc]. }
      split; [|split].
      * change (OList (rename m' <$> xs)) with (rename_obj m' (OList xs)).
        eapply copied_close; try done.
      * simpl. by rewrite Hl'.
      * simpl. apply elem_of_dom; eauto.
    + by apply Hleaf.
    + by apply Hleaf.
Qed.

Lemma untouched_refl h : untouched h h.
Proof. by intros x Hx. Qed.

Lemma untouched_trans h h1 h2 :
  untouched h h1 → untouched h1 h2 → untouched h h2.
Proof.
  intros H1 H2 x Hx. rewrite H2; [by apply H1|].
  apply elem_of_dom. rewrite (H1 x Hx). by apply elem_of_dom.
Qed.

Lemma untouched_insert h l' o : l' ∉ dom h → untouched h (<[l' := o]> h).
Proof.
  intros Hfresh x Hx. rewrite lookup_insert_ne; [done|]. by intros ->.
Qed.

Lemma untouched_reserve h h' l' ph o :
  l' ∉ dom h → untouched (<[l' := ph]> h) h' → untouched h (<[l' := o]> h').
Proof.
  intros Hfresh Hu x Hx. assert (x ≠ l') by (intros ->; done).
  rewrite lookup_insert_ne by done.
  rewrite Hu by (rewrite dom_insert_L; set_solver).
  by rewrite lookup_insert_ne.
Qed.

Lemma untouched_lookup h h' l o :
  untouched h h' → h !! l = Some o → h' !! l = Some o.
Proof. intros Hu Ho. rewrite Hu; [done|]. apply elem_of_dom; eauto. Qed.

Lemma deepcopy_items_untouched cp :
  (∀ v m h v' m' h', cp v m h = inr (v', m', h') → untouched h h') →
  ∀ vs m h vs' m' h',
    deepcopy_items cp vs m h = inr (vs', m', h') → untouched h h'.
Proof.
  intros Hcp. induction vs as [|v vs IH]; intros m h vs' m' h' Hrun; simpl in Hrun.
  - simplify_eq. apply untouched_refl.
  - destruct (cp v m h) as [e|[[v1 m1] h1]] eqn:Hv; [done|].
    destruct (deepcopy_items cp vs m1 h1) as [e|[[vs2 m2] h2]] eqn:Hrest; [done|].
    simplify_eq. eapply untouched_trans; eauto.
Qed.

(** Without any assumption on the store, a copy leaves every object that
    exists as it is. *)
Lemma deepcopy_untouched depth : ∀ v m h v' m' h',
  deepcopy depth v m h = inr (v', m', h') → untouched h h'.
Proof.
  induction depth as [|depth IH]; intros v m h v' m' h' Hrun;
    destruct v as [| | | | |l]; simpl in Hrun; simplify_eq;
    try apply untouched_refl;
    (destruct (m !! l) as [l1|]; [simplify_eq; apply untouched_refl|]);
    pose proof (is_fresh (dom h)) as Hfresh;
    destruct (h !! l) as [[d|xs|g|c p]|] eqn:Ho; simplify_eq;
    try (by apply untouched_insert).
  - destruct (deepcopy_items _ _ _ _) as [e|[[vs m1] h1]] eqn:Hitems; simplify_eq.
    eapply untouched_reserve; [done|].
    eapply deepcopy_items_untouched; [apply IH|done].
  - destruct (deepcopy_items _ _ _ _) as [e|[[vs m1] h1]] eqn:Hitems; simplify_eq.
    eapply untouched_reserve; [done|].
    eapply deepcopy_items_untouched; [apply IH|done].
Qed.

(** Started with an empty memo, the copy of an object is a new object of the
    same type. *)
Lemma deepcopy_new depth l h v' m' h' :
  deepcopy depth (VRef l) ∅ h = inr (v', m', h') →
  ∃ o o', v' = VRef (fresh (dom h)) ∧ h !! l = Some o ∧
          h' !! fresh (dom h) = Some o' ∧ type_of_object o' = type_of_object o.
Proof.
  intros Hrun. destruct depth as [|depth]; simpl in Hrun;
    rewrite lookup_empty in Hrun;
    destruct (h !! l) as [[d|xs|g|c p]|] eqn:Ho; simplify_eq;
    try (eexists _, _; split; [done|split; [done|split;
           [apply lookup_insert_eq|done]]]).
  - destruct (deepcopy_items _ _ _ _) as [e|[[vs m1] h1]]; simplify_eq.
    eexists _, _; split; [done|split; [done|split; [apply lookup_insert_eq|done]]].
  - destruct (deepcopy_items _ _ _ _) as [e|[[vs m1] h1]]; simplify_eq.
    eexists _, _; split; [done|split; [done|split; [apply lookup_insert_eq|done]]].
Qed.

Lemma deepcopy_atom depth v m h :
  (∀ l, v ≠ VRef l) → deepcopy depth v m h = inr (v, m, h).
Proof. intros Hv. destruct depth, v; simpl; try done; by destruct (Hv l). Qed.

Section deepcopy_items_total.
Variable L : gset loc.
Variable n : nat.
Variable cp : value -> gmap loc loc -> gmap loc object ->
              exn + (value * gmap loc loc * gmap loc object).
Hypothesis cp_copied : ∀ v m h v' m' h',
  region L m h → val_in L v → cp v m h = inr (v', m', h') →
  copied L m h m' h' ∧ v' = rename m' v ∧ val_in (dom m') v.
Hypothesis cp_total : ∀ v m h,
  region L m h → val_in L v → size (L ∖ dom m) ≤ n → ∃ r, cp v m h = inr r.

Lemma deepcopy_items_total vs : ∀ m h,
  region L m h → Forall (val_in L) vs → size (L ∖ dom m) ≤ n →
  ∃ r, deepcopy_items cp vs m h = inr r.
Proof.
  induction vs as [|v vs IH]; intros m h Hreg Hvs Hn; simpl; [by eexists|].
  apply Forall_cons in Hvs as [Hv Hvs].
  destruct (cp_total v m h Hreg Hv Hn) as [[[v1 m1] h1] Hcp]. rewrite Hcp.
  destruct (cp_copied _ _ _ _ _ _ Hreg Hv Hcp) as (Hc & _ & _).
  destruct (IH m1 h1) as [[[vs2 m2] h2] Hrest]; [by eapply region_copied|done| |].
  - etrans; [|exact Hn]. apply subseteq_size.
    destruct Hc as (Hsub%subseteq_dom & _). set_solver.
  - rewrite Hrest. by eexists.
Qed.
End deepcopy_items_total.

(** A copy returns when the recursion limit is at least the number of
    objects of the region that are not in the memo yet. *)
Lemma deepcopy_total L depth : ∀ v m h,
  region L m h → val_in L v → size (L ∖ dom m) ≤ depth →
  ∃ r, deepcopy depth v m h = inr r.
Proof.
  induction depth as [|depth IH]; intros v m h Hreg Hv Hn.
  - destruct v as [| | | | |l]; simpl; try by eexists.
    destruct (m !! l) as [l1|] eqn:Hm; [by eexists|].
    exfalso. simpl in Hv.
    assert (l ∈ L ∖ dom m) as Hl.
    { apply elem_of_difference. split; [done|]. by apply not_elem_of_dom. }
    assert (size (L ∖ dom m) ≠ 0) as Hsz.
    { intros Hz%size_empty_inv. set_solver. }
    lia.
  - destruct v as [| | | | |l]; simpl; try by eexists.
    destruct (m !! l) as [l1|] eqn:Hm; [by eexists|].
    simpl in Hv. pose proof (is_fresh (dom h)) as Hfresh.
    assert (size (L ∖ dom (<[l := fresh (dom h)]> m)) ≤ depth) as Hn'.
    { assert (L ∖ dom m = {[l]} ∪ L ∖ dom (<[l := fresh (dom h)]> m)) as Heq.
      { rewrite dom_insert_L. apply not_elem_of_dom in Hm.
        apply set_eq; intros x. destruct (decide (x = l)) as [->|]; set_solver. }
      rewrite Heq, size_union, size_singleton in Hn; [lia|].
      rewrite dom_insert_L. set_solver. }
    destruct Hreg as (HL & HmL & Hcl & Himg).
    destruct (Hcl l Hv) as (o & Ho & Hin). rewrite Ho.
    assert (region L m h) as Hreg by done.
    destruct o as [d|xs|g|c p]; try by eexists.
    + edestruct (deepcopy_items_total L depth (deepcopy depth)
                   (deepcopy_copied L depth) IH ((map_to_list d).*2))
        as [[[vs m1] h1] Hitems];
        [by apply region_enter|by apply obj_in_dict_items|exact Hn'|].
      rewrite Hitems. by eexists.
    + edestruct (deepcopy_items_total L depth (deepcopy depth)
                   (deepcopy_copied L depth) IH xs)
        as [[[vs m1] h1] Hitems];
        [by apply region_enter|done|exact Hn'|].
      rewrite Hitems. by eexists.
Qed.

(** ** Reasoning about computations *)

Lemma bind_ok_inv {A B} (m : M A) (k : A → M B) s b s' :
  bind m k s = Ok b s' → ∃ a s1, m s = Ok a s1 ∧ k a s1 = Ok b s'.
Proof. unfold bind. destruct (m s) as [a s1|e s1]; [eauto|done]. Qed.

Lemma final_state_bind {A B} (m : M A) (k : A → M B) s :
  final_state (bind m k s) =
  match m s with
  | Ok a s1 => final_state (k a s1)
  | Raise _ s1 => s1
  end.
Proof. unfold bind. by destruct (m s). Qed.

Lemma preserves_bind {A B} P (m : M A) (k : A → M B) :
  preserves P m → (∀ a, preserves P (k a)) → preserves P (bind m k).
Proof.
  intros Hm Hk s HP. rewrite final_state_bind. specialize (Hm s HP).
  destruct (m s) as [a s1|e s1]; [by apply Hk|done].
Qed.

Lemma ensures_bind_r {A B} Q (m : M A) (k : A → M B) :
  (∀ a, ensures Q (k a)) → ensures Q (bind m k).
Proof.
  intros Hk s b s' (a & s1 & _ & Hks)%bind_ok_inv. by eapply Hk.
Qed.

Lemma ensures_bind_l {A B} Q (m : M A) (k : A → M B) :
  ensures Q m → (∀ a, preserves Q (k a)) → ensures Q (bind m k).
Proof.
  intros Hm Hk s b s' (a & s1 & Hms & Hks)%bind_ok_inv.
  apply Hm in Hms. apply (Hk a) in Hms. by rewrite Hks in Hms.
Qed.

Lemma ensures_raise {A} Q e : ensures Q (@raise A e).
Proof. by intros s a s'. Qed.

Lemma stable_bind {A B} (m : M A) (k : A → M B) :
  stable m → (∀ a, stable (k a)) → stable (bind m k).
Proof.
  intros Hm Hk s. rewrite final_state_bind. destruct (Hm s) as [Hf Hd].
  destruct (m s) as [a s1|e s1]; simpl in *; [|done].
  destruct (Hk a s1) as [Hf1 Hd1]. split; [congruence|]. eauto.
Qed.

Lemma stable_preserves {A} (m : M A) :
  stable m → preserves detection_disabled m.
Proof.
  intros Hm s (l & d & Hl & Hd & Ha & Hc). destruct (Hm s) as [Hf Hk].
  exists l, d. rewrite Hf. eauto.
Qed.

Lemma stable_ret {A} (a : A) : stable (ret a).
Proof. by intros s. Qed.

Lemma stable_raise {A} e : stable (@raise A e).
Proof. by intros s. Qed.

Lemma stable_get_self : stable get_self.
Proof. by intros s. Qed.

Lemma stable_alloc o : stable (alloc o).
Proof.
  intros s. split; [done|]. intros l d Hl. simpl.
  rewrite lookup_insert_ne; [done|]. intros <-.
  apply (is_fresh (dom (heap s))). apply elem_of_dom; eauto.
Qed.

Lemma stable_isinstance v ty : stable (isinstance v ty).
Proof. by intros s. Qed.

Lemma stable_getitem v k : stable (getitem v k).
Proof. intros s. unfold getitem. by repeat case_match. Qed.

Lemma stable_eq_empty_dict v : stable (eq_empty_dict v).
Proof. intros s. unfold eq_empty_dict. by repeat case_match. Qed.

Lemma stable_as_str v : stable (as_str v).
Proof. destruct v; by intros ?. Qed.

Lemma stable_os_path_join a p : stable (os_path_join a p).
Proof.
  unfold os_path_join. apply stable_bind; [apply stable_as_str|]. intros x.
  revert x. induction p as [|b p IH]; intros x; [apply stable_ret|].
  apply stable_bind; [apply stable_as_str|]. intros y. apply IH.
Qed.

Lemma stable_set_gdf v : stable (set_gdf v).
Proof. by intros s. Qed.

Lemma stable_set_roi_id v : stable (set_roi_id v).
Proof. by intros s. Qed.

Lemma stable_set_extracted_shorelines v : stable (set_extracted_shorelines v).
Proof. by intros s. Qed.

Lemma stable_gdf_empty v : stable (gdf_empty v).
Proof. intros s. unfold gdf_empty. by repeat case_match. Qed.

Lemma stable_set_crs ext v crs : stable (set_crs ext v crs).
Proof.
  intros s. unfold set_crs. repeat case_match; try done. simpl.
  split; [done|]. intros l' d Hl'. rewrite lookup_insert_ne; [done|].
  intros <-. congruence.
Qed.

Lemma stable_gdf_column v c : stable (gdf_column v c).
Proof. intros s. unfold gdf_column. by repeat case_match. Qed.

Lemma stable_list_items v : stable (list_items v).
Proof. intros s. unfold list_items. by repeat case_match. Qed.

Lemma stable_list_index v idx : stable (list_index v idx).
Proof.
  apply stable_bind; [apply stable_list_items|]. intros xs.
  destruct (xs !! idx); [apply stable_ret|apply stable_raise].
Qed.

Lemma stable_list_append v x : stable (list_append v x).
Proof.
  intros s. unfold list_append. repeat case_match; try done. simpl.
  split; [done|]. intros l' d Hl'. rewrite lookup_insert_ne; [done|].
  intros <-. congruence.
Qed.

Lemma stable_str_add a b : stable (str_add a b).
Proof. destruct a, b; by intros ?. Qed.

Lemma stable_mapM {A B} (f : A → M B) xs :
  (∀ x, stable (f x)) → stable (mapM f xs).
Proof.
  intros Hf. induction xs as [|x xs IH]; [apply stable_ret|].
  apply stable_bind; [apply Hf|]. intros y.
  apply stable_bind; [apply IH|]. intros ys. apply stable_ret.
Qed.

Lemma stable_for_enumerate body xs :
  (∀ i x, stable (body i x)) → ∀ idx, stable (for_enumerate body idx xs).
Proof.
  intros Hb. induction xs as [|x xs IH]; intros idx; [apply stable_ret|].
  apply stable_bind; [apply Hb|]. intros _. apply IH.
Qed.

Lemma stable_write_file path f : stable (write_file path f).
Proof. by intros s. Qed.

Lemma stable_copy_deepcopy n v : stable (copy_deepcopy n v).
Proof.
  intros s. unfold copy_deepcopy.
  destruct (deepcopy n v ∅ (heap s)) as [e|[[v' m'] h']] eqn:Hcp; [done|].
  simpl. split; [done|]. intros l d Hl.
  eapply untouched_lookup; [|done]. by eapply deepcopy_untouched.
Qed.

(** ** [create_shoreline_settings] *)

Lemma setitem_other v k x s l o :
  heap s !! l = Some o → v ≠ VRef l →
  heap (final_state (setitem v k x s)) !! l = Some o.
Proof.
  intros Hl Hv. unfold setitem. repeat case_match; try done. simpl.
  rewrite lookup_insert_ne; [done|]. congruence.
Qed.

Lemma setitem_dict l d k x s :
  heap s !! l = Some (ODict d) →
  setitem (VRef l) k x s =
  Ok tt (set_heap (<[l := ODict (<[k := x]> d)]> (heap s)) s).
Proof. intros Hl. unfold setitem. by rewrite Hl. Qed.

Lemma setitem_ok_inv v k x s u s' :
  setitem v k x s = Ok u s' →
  ∃ l d, v = VRef l ∧ heap s !! l = Some (ODict d) ∧
         s' = set_heap (<[l := ODict (<[k := x]> d)]> (heap s)) s.
Proof.
  unfold setitem. intros Hrun. repeat case_match; simplify_eq. eauto.
Qed.

(** The value [copy.deepcopy] returns is never an object that existed. *)
Lemma deepcopy_result_new depth v h v' m' h' l :
  deepcopy depth v ∅ h = inr (v', m', h') → l ∈ dom h → v' ≠ VRef l.
Proof.
  intros Hrun Hl. destruct v as [| | | | |l0];
    try (rewrite deepcopy_atom in Hrun by done; by simplify_eq).
  apply deepcopy_new in Hrun as (o & o' & -> & _). intros [= <-].
  by apply (is_fresh (dom h)).
Qed.

Lemma create_shoreline_settings_untouched
    recursion_limit settings roi_settings reference_shoreline s l o :
  heap s !! l = Some o →
  heap (final_state (create_shoreline_settings recursion_limit
                       settings roi_settings reference_shoreline s)) !! l = Some o.
Proof.
  intros Hl. unfold create_shoreline_settings. rewrite final_state_bind.
  unfold copy_deepcopy.
  destruct (deepcopy recursion_limit settings ∅ (heap s))
    as [e|[[v' m'] h']] eqn:Hcp; [done|].
  assert (v' ≠ VRef l) as Hv'.
  { eapply deepcopy_result_new; [done|]. apply elem_of_dom; eauto. }
  assert (heap (set_heap h' s) !! l = Some o) as Hl'.
  { simpl. eapply untouched_lookup; [|done]. by eapply deepcopy_untouched. }
  revert Hl'. generalize (set_heap h' s). clear Hcp Hl. intros s1 Hl.
  apply (preserves_bind (fun s => heap s !! l = Some o)); [|intros _|done].
  { intros s2 H2. by apply setitem_other. }
  apply (preserves_bind (fun s => heap s !! l = Some o)); [|intros _].
  { intros s2 H2. by apply setitem_other. }
  apply (preserves_bind (fun s => heap s !! l = Some o)); [|intros _].
  { intros s2 H2. by apply setitem_other. }
  apply (preserves_bind (fun s => heap s !! l = Some o)); [|intros _].
  { intros s2 H2. by apply setitem_other. }
  by intros s2 H2.
Qed.

(** C4. Whatever [create_shoreline_settings] is called with and however it
    ends, every object of the store that existed before the call, the
    caller's settings dictionary among them, is the same object after it: no
    key of it was added, removed or rebound. *)
Theorem create_shoreline_settings_leaves_objects
    recursion_limit settings roi_settings reference_shoreline s l o :
  heap s !! l = Some o →
  heap (final_state (create_shoreline_settings recursion_limit
                       settings roi_settings reference_shoreline s)) !! l = Some o.
Proof. apply create_shoreline_settings_untouched. Qed.

(** What [create_shoreline_settings] does once [copy.deepcopy] has returned. *)
Lemma create_shoreline_settings_after_copy
    recursion_limit s L settings d roi_settings reference_shoreline v' m h1 :
  region L ∅ (heap s) → settings ∈ L →
  heap s !! settings = Some (ODict d) →
  deepcopy recursion_limit (VRef settings) ∅ (heap s) = inr (v', m, h1) →
  ∃ s' l' d',
    create_shoreline_settings recursion_limit (VRef settings)
      roi_settings reference_shoreline s = Ok tt s' ∧
    self_shoreline_settings (self s') = VRef l' ∧
    heap s' !! l' = Some (ODict d') ∧
    d' !! "reference_shoreline" = Some reference_shoreline ∧
    d' !! "inputs" = Some roi_settings ∧
    d' !! "adjust_detection" = Some (VBool false) ∧
    d' !! "check_detection" = Some (VBool false) ∧
    (∀ k, k ∉ patched_keys → d' !! k = rename m <$> d !! k) ∧
    deep_copy_of (heap s) (heap s') m settings l'.
Proof.
  intros Hreg Hin Hd Hcp.
  destruct (deepcopy_copied L _ (VRef settings) _ _ _ _ _ Hreg Hin Hcp)
    as ((_ & HmL & Hfr & Hnew & Hinj) & -> & Hroot).
  simpl in Hroot. apply elem_of_dom in Hroot as [l' Hl'].
  unfold rename in Hcp. rewrite Hl' in Hcp.
  destruct (Hnew settings l' Hl' (lookup_empty _)) as (Hfresh & o & Ho & Hobj & Hcopy).
  assert (o = ODict d) as -> by congruence. simpl in Hcopy.
  set (d' := <["inputs" := roi_settings]>
             (<["check_detection" := VBool false]>
              (<["adjust_detection" := VBool false]>
               (<["reference_shoreline" := reference_shoreline]> (rename m <$> d))))).
  exists (set_self (mkInstance (self_gdf (self s)) (self_roi_id (self s))
                      (self_extracted_shorelines (self s)) (VRef l'))
            (set_heap (<[l' := ODict d']> h1) s)), l', d'.
  split; [|split; [done|split; [apply lookup_insert_eq|]]].
  { unfold create_shoreline_settings, bind, copy_deepcopy. rewrite Hcp.
    rewrite (setitem_dict l' (rename m <$> d)) by done.
    erewrite setitem_dict by apply lookup_insert_eq.
    erewrite setitem_dict by apply lookup_insert_eq.
    erewrite setitem_dict by apply lookup_insert_eq.
    unfold set_shoreline_settings, set_heap, set_self. simpl.
    rewrite !insert_insert_eq. reflexivity. }
  split; [by unfold d'; simplify_map_eq|].
  split; [by unfold d'; simplify_map_eq|].
  split; [by unfold d'; simplify_map_eq|].
  split; [by unfold d'; simplify_map_eq|]. split.
  { intros k Hk. unfold d', patched_keys in *.
    rewrite !lookup_insert_ne by set_solver. apply lookup_fmap. }
  split; [done|]. split; [|by eauto].
  intros l c Hlc.
  destruct (Hnew l c Hlc (lookup_empty _)) as (Hc & o & Hlo & Hobj' & Hcp').
  split; [done|]. exists o. split; [done|]. split; [done|].
  intros Hne. simpl. rewrite lookup_insert_ne; [done|].
  intros <-. apply Hne. by eapply Hinj.
Qed.

(** C3. Let [settings] be a dictionary of a store without dangling
    references, and let the objects reachable from it be dictionaries and
    lists.  Whenever [create_shoreline_settings] returns, it leaves in
    [self.shoreline_settings] a new dictionary: a deep copy of [settings] in
    which ['reference_shoreline'] is the reference shoreline given,
    ['inputs'] is [roi_settings] itself, ['adjust_detection'] and
    ['check_detection'] are [False], and every other key has the value, deep
    copied, that it has in [settings].  And it does return when the objects
    reachable from [settings] number at most the recursion limit. *)
Theorem create_shoreline_settings_patches_deep_copy
    recursion_limit s L settings d roi_settings reference_shoreline :
  region L ∅ (heap s) → containers L (heap s) → settings ∈ L →
  heap s !! settings = Some (ODict d) →
  (∀ u s',
     create_shoreline_settings recursion_limit (VRef settings)
       roi_settings reference_shoreline s = Ok u s' →
     ∃ l' d' m,
       self_shoreline_settings (self s') = VRef l' ∧
       heap s' !! l' = Some (ODict d') ∧
       d' !! "reference_shoreline" = Some reference_shoreline ∧
       d' !! "inputs" = Some roi_settings ∧
       d' !! "adjust_detection" = Some (VBool false) ∧
       d' !! "check_detection" = Some (VBool false) ∧
       (∀ k, k ∉ patched_keys → d' !! k = rename m <$> d !! k) ∧
       deep_copy_of (heap s) (heap s') m settings l') ∧
  (size L ≤ recursion_limit →
   ∃ s', create_shoreline_settings recursion_limit (VRef settings)
           roi_settings reference_shoreline s = Ok tt s').
Proof.
  intros Hreg _ Hin Hd. split.
  - intros u s' Hrun.
    destruct (deepcopy recursion_limit (VRef settings) ∅ (heap s))
      as [e|[[v' m] h1]] eqn:Hcp.
    { unfold create_shoreline_settings, bind, copy_deepcopy in Hrun.
      by rewrite Hcp in Hrun. }
    destruct (create_shoreline_settings_after_copy recursion_limit s L settings
                d roi_settings reference_shoreline v' m h1 Hreg Hin Hd Hcp)
      as (s'' & l' & d' & Hrun' & Hprops).
    rewrite Hrun' in Hrun. injection Hrun as _ <-. by exists l', d', m.
  - intros Hsize.
    destruct (deepcopy_total L recursion_limit (VRef settings) ∅ (heap s))
      as [[[v' m] h1] Hcp]; [done|done| |].
    { by rewrite dom_empty_L, difference_empty_L. }
    destruct (create_shoreline_settings_after_copy recursion_limit s L settings
                d roi_settings reference_shoreline v' m h1 Hreg Hin Hd Hcp)
      as (s' & _ & _ & Hrun & _).
    by exists s'.
Qed.

(** ** The operations and the settings of the instance *)

Create HintDb stable.
#[local] Hint Resolve stable_ret stable_raise stable_get_self stable_alloc
  stable_isinstance stable_getitem stable_eq_empty_dict stable_as_str
  stable_os_path_join stable_set_gdf stable_set_roi_id
  stable_set_extracted_shorelines stable_gdf_empty stable_set_crs
  stable_gdf_column stable_list_items stable_list_index stable_list_append
  stable_str_add stable_write_file stable_copy_deepcopy : stable.

Ltac stable_step :=
  first
    [ apply stable_bind; [|intros ?]
    | apply stable_mapM; intros ?
    | apply stable_for_enumerate; intros ? ?
    | solve [auto with stable]
    | match goal with
      | |- stable (if ?b then _ else _) => destruct b
      | |- stable (match ?v with _ => _ end) => destruct v
      end ].

Ltac solve_stable := repeat stable_step.

Section stability.
Variable ext : list event -> extfn -> list value -> gmap loc object ->
               exn + (value * gmap loc object).
Variable is_list_empty : gmap loc object -> value -> exn + bool.
Variable recursion_limit : nat.
Hypothesis ext_untouched : ext_frame ext.

Lemma stable_ext_call f args : stable (ext_call ext f args).
Proof.
  intros s. unfold ext_call.
  destruct (ext (trace s) f args (heap s)) as [e|[v h']] eqn:Hext; [done|].
  simpl. split; [done|]. intros l d Hl. by eapply ext_untouched.
Qed.
#[local] Hint Resolve stable_ext_call : stable.

Lemma stable_gdf_method f obj args : stable (gdf_method ext f obj args).
Proof. unfold gdf_method. solve_stable. Qed.
#[local] Hint Resolve stable_gdf_method : stable.

Lemma stable_to_file obj savepath driver encoding :
  stable (to_file ext obj savepath driver encoding).
Proof.
  intros s. unfold to_file. destruct obj as [| | | | |l]; try done.
  destruct (heap s !! l) as [[d|xs|g|c p]|]; try done.
  apply (stable_bind (ext_call ext _ _) (fun _ => write_file _ _));
    auto with stable.
Qed.
#[local] Hint Resolve stable_to_file : stable.

Lemma stable_py_len v : stable (py_len ext v).
Proof.
  intros s. unfold py_len. repeat case_match; try done.
  apply stable_ext_call.
Qed.
#[local] Hint Resolve stable_py_len : stable.

Lemma stable_call_is_list_empty v : stable (call_is_list_empty is_list_empty v).
Proof. intros s. unfold call_is_list_empty. by case_match. Qed.
#[local] Hint Resolve stable_call_is_list_empty : stable.

Lemma stable_get_reference_shoreline a b :
  stable (get_reference_shoreline ext a b).
Proof. unfold get_reference_shoreline. solve_stable. Qed.

Lemma stable_create_geodataframe a b : stable (create_geodataframe ext a b).
Proof. unfold create_geodataframe. solve_stable. Qed.

Lemma stable_save_to_file a b : stable (save_to_file ext a b).
Proof. unfold save_to_file. solve_stable. Qed.

Lemma stable_style_layer a b c : stable (style_layer ext a b c).
Proof. unfold style_layer. solve_stable. Qed.

Lemma stable_get_layer_names : stable get_layer_names.
Proof. unfold get_layer_names. solve_stable. Qed.

Lemma stable_get_styled_layers : stable (get_styled_layers ext).
Proof.
  pose proof stable_style_layer. pose proof stable_get_layer_names.
  unfold get_styled_layers. solve_stable.
Qed.

(** When [create_shoreline_settings] returns, the settings of the instance
    are a dictionary with both flags [False]. *)
Lemma create_shoreline_settings_disables a b c :
  ensures detection_disabled (create_shoreline_settings recursion_limit a b c).
Proof.
  intros s u s' Hrun. unfold create_shoreline_settings in Hrun.
  apply bind_ok_inv in Hrun as (v & s1 & _ & Hrun).
  apply bind_ok_inv in Hrun as (? & s2 & (l & d & -> & Hl & ->)%setitem_ok_inv & Hrun).
  apply bind_ok_inv in Hrun as (? & s3 & (l3 & d3 & Heq3 & Hl3 & ->)%setitem_ok_inv & Hrun).
  apply bind_ok_inv in Hrun as (? & s4 & (l4 & d4 & Heq4 & Hl4 & ->)%setitem_ok_inv & Hrun).
  apply bind_ok_inv in Hrun as (? & s5 & (l5 & d5 & Heq5 & Hl5 & ->)%setitem_ok_inv & Hrun).
  simplify_eq. simpl in *.
  rewrite lookup_insert_eq in Hl3. rewrite lookup_insert_eq in Hl4.
  rewrite lookup_insert_eq in Hl5. simplify_eq.
  unfold set_shoreline_settings in Hrun. simplify_eq.
  eexists _, _. simpl. split; [reflexivity|]. split; [apply lookup_insert_eq|].
  by simplify_map_eq.
Qed.

Lemma create_shoreline_settings_raise_self a b c s e s' :
  create_shoreline_settings recursion_limit a b c s = Raise e s' →
  self s' = self s.
Proof.
  assert (∀ v k x s0, self (final_state (setitem v k x s0)) = self s0) as Hset.
  { intros v k x s0. unfold setitem. by repeat case_match. }
  unfold create_shoreline_settings, bind, copy_deepcopy.
  destruct (deepcopy recursion_limit a ∅ (heap s)) as [e0|[[v m] h']];
    [by intros [= _ <-]|].
  change (self s) with (self (set_heap h' s)).
  generalize (set_heap h' s). intros s0.
  pose proof (Hset v "reference_shoreline" c s0) as H1.
  destruct (setitem v "reference_shoreline" c s0) as [? s1|? s1];
    simpl in H1; [|by intros [= _ <-]].
  pose proof (Hset v "adjust_detection" (VBool false) s1) as H2.
  destruct (setitem v "adjust_detection" (VBool false) s1) as [? s2|? s2];
    simpl in H2; [|intros [= _ <-]; congruence].
  pose proof (Hset v "check_detection" (VBool false) s2) as H3.
  destruct (setitem v "check_detection" (VBool false) s2) as [? s3|? s3];
    simpl in H3; [|intros [= _ <-]; congruence].
  pose proof (Hset v "inputs" b s3) as H4.
  destruct (setitem v "inputs" b s3) as [? s4|? s4];
    simpl in H4; [|intros [= _ <-]; congruence].
  done.
Qed.

Lemma create_shoreline_settings_keeps a b c :
  preserves detection_disabled (create_shoreline_settings recursion_limit a b c).
Proof.
  intros s Hs.
  destruct (create_shoreline_settings recursion_limit a b c s) as [u s'|e s'] eqn:Hrun.
  { by eapply create_shoreline_settings_disables. }
  destruct Hs as (l & d & Hf & Hl & Hflags). exists l, d.
  pose proof (create_shoreline_settings_untouched recursion_limit a b c s
                l (ODict d) Hl) as Hkept. rewrite Hrun in Hkept.
  simpl in *. split; [|done].
  by rewrite (create_shoreline_settings_raise_self _ _ _ _ _ _ Hrun).
Qed.

End stability.

(** The flags under collaborators that leave them alone. *)

Lemma flags_off_disabled s l :
  self_shoreline_settings (self s) = VRef l → flags_off (heap s) l →
  detection_disabled s.
Proof. intros Hf (d & Hl & Ha & Hc). by exists l, d. Qed.

Lemma stable_flag_stable {A} (m : M A) : stable m → flag_stable m.
Proof.
  intros Hm s. destruct (Hm s) as [Hf Hd]. split; [done|].
  intros l (d & Hl & Hflags). exists d. split; [by apply Hd|done].
Qed.

Lemma flag_stable_bind {A B} (m : M A) (k : A → M B) :
  flag_stable m → (∀ a, flag_stable (k a)) → flag_stable (bind m k).
Proof.
  intros Hm Hk s. rewrite final_state_bind. destruct (Hm s) as [Hf Hd].
  destruct (m s) as [a s1|e s1]; simpl in *; [|done].
  destruct (Hk a s1) as [Hf1 Hd1]. split; [congruence|]. eauto.
Qed.

Lemma flag_stable_preserves {A} (m : M A) :
  flag_stable m → preserves detection_disabled m.
Proof.
  intros Hm s (l & d & Hl & Hd & Ha & Hc). destruct (Hm s) as [Hf Hk].
  apply (flags_off_disabled _ l); [congruence|]. apply Hk. by exists d.
Qed.

Lemma flag_stable_mapM {A B} (f : A → M B) xs :
  (∀ x, flag_stable (f x)) → flag_stable (mapM f xs).
Proof.
  intros Hf. induction xs as [|x xs IH]; [apply stable_flag_stable, stable_ret|].
  apply flag_stable_bind; [apply Hf|]. intros y.
  apply flag_stable_bind; [apply IH|]. intros ys.
  apply stable_flag_stable, stable_ret.
Qed.

Lemma flag_stable_for_enumerate body xs :
  (∀ i x, flag_stable (body i x)) → ∀ idx, flag_stable (for_enumerate body idx xs).
Proof.
  intros Hb. induction xs as [|x xs IH]; intros idx;
    [apply stable_flag_stable, stable_ret|].
  apply flag_stable_bind; [apply Hb|]. intros _. apply IH.
Qed.

Lemma ext_frame_keeps_flags ext : ext_frame ext → keeps_detection_flags ext.
Proof.
  intros Hframe t f args h v h' Hext l (d & Hl & Hflags).
  exists d. split; [by eapply Hframe|done].
Qed.

Create HintDb flags.

Ltac flag_step :=
  first
    [ apply flag_stable_bind; [|intros ?]
    | apply flag_stable_mapM; intros ?
    | apply flag_stable_for_enumerate; intros ? ?
    | solve [auto with flags]
    | solve [apply stable_flag_stable; auto with stable]
    | match goal with
      | |- flag_stable (if ?b then _ else _) => destruct b
      | |- flag_stable (match ?v with _ => _ end) => destruct v
      end ].

Ltac solve_flags := repeat flag_step.

Section flags.
Variable ext : list event -> extfn -> list value -> gmap loc object ->
               exn + (value * gmap loc object).
Variable is_list_empty : gmap loc object -> value -> exn + bool.
Variable recursion_limit : nat.
Hypothesis ext_flags : keeps_detection_flags ext.

Lemma flag_stable_ext_call f args : flag_stable (ext_call ext f args).
Proof.
  intros s. unfold ext_call.
  destruct (ext (trace s) f args (heap s)) as [e|[v h']] eqn:Hext; [done|].
  simpl. split; [done|]. intros l Hl. by eapply ext_flags.
Qed.
#[local] Hint Resolve flag_stable_ext_call : flags.

Lemma flag_stable_gdf_method f obj args : flag_stable (gdf_method ext f obj args).
Proof. unfold gdf_method. solve_flags. Qed.
#[local] Hint Resolve flag_stable_gdf_method : flags.

Lemma flag_stable_to_file obj savepath driver encoding :
  flag_stable (to_file ext obj savepath driver encoding).
Proof.
  intros s. unfold to_file. destruct obj as [| | | | |l]; try done.
  destruct (heap s !! l) as [[d|xs|g|c p]|]; try done.
  apply (flag_stable_bind (ext_call ext _ _) (fun _ => write_file _ _));
    [apply flag_stable_ext_call|intros _; apply stable_flag_stable, stable_write_file].
Qed.
#[local] Hint Resolve flag_stable_to_file : flags.

Lemma flag_stable_py_len v : flag_stable (py_len ext v).
Proof.
  intros s. unfold py_len. repeat case_match; try done.
  apply flag_stable_ext_call.
Qed.
#[local] Hint Resolve flag_stable_py_len : flags.

Lemma flag_stable_call_is_list_empty v :
  flag_stable (call_is_list_empty is_list_empty v).
Proof. apply stable_flag_stable, stable_call_is_list_empty. Qed.
#[local] Hint Resolve flag_stable_call_is_list_empty : flags.

Lemma flag_stable_get_reference_shoreline a b :
  flag_stable (get_reference_shoreline ext a b).
Proof. unfold get_reference_shoreline. solve_flags. Qed.

Lemma flag_stable_create_geodataframe a b :
  flag_stable (create_geodataframe ext a b).
Proof. unfold create_geodataframe. solve_flags. Qed.

Lemma flag_stable_save_to_file a b : flag_stable (save_to_file ext a b).
Proof. unfold save_to_file. solve_flags. Qed.

Lemma flag_stable_style_layer a b c : flag_stable (style_layer ext a b c).
Proof. unfold style_layer. solve_flags. Qed.

Lemma flag_stable_get_layer_names : flag_stable get_layer_names.
Proof. unfold get_layer_names. solve_flags. Qed.

Lemma flag_stable_get_styled_layers : flag_stable (get_styled_layers ext).
Proof.
  pose proof flag_stable_style_layer. pose proof flag_stable_get_layer_names.
  unfold get_styled_layers. solve_flags.
Qed.

Lemma extract_shorelines_disables a b c :
  ensures detection_disabled (extract_shorelines ext recursion_limit a b c).
Proof.
  unfold extract_shorelines.
  apply ensures_bind_r; intros ?. apply ensures_bind_r; intros ?.
  apply ensures_bind_l; [apply create_shoreline_settings_disables|intros _].
  apply flag_stable_preserves. solve_flags.
Qed.

Lemma extract_shorelines_keeps a b c :
  preserves detection_disabled (extract_shorelines ext recursion_limit a b c).
Proof.
  pose proof flag_stable_get_reference_shoreline.
  unfold extract_shorelines.
  apply preserves_bind; [apply flag_stable_preserves; solve_flags|intros ?].
  apply preserves_bind; [apply flag_stable_preserves; solve_flags|intros ?].
  apply preserves_bind; [apply create_shoreline_settings_keeps|intros _].
  apply flag_stable_preserves. solve_flags.
Qed.

Lemma init_disables a b c d :
  ensures detection_disabled (__init__ ext is_list_empty recursion_limit a b c d).
Proof.
  pose proof flag_stable_create_geodataframe.
  unfold __init__.
  repeat first
    [ apply ensures_raise
    | apply ensures_bind_l;
        [apply extract_shorelines_disables
        |intros ?; apply flag_stable_preserves; solve_flags]
    | apply ensures_bind_r; intros ?
    | match goal with
      | |- ensures _ (if ?b then _ else _) => destruct b
      end ].
Qed.

Lemma run_keeps op :
  is_method op →
  preserves detection_disabled (run ext is_list_empty recursion_limit op).
Proof.
  pose proof flag_stable_get_reference_shoreline.
  pose proof flag_stable_create_geodataframe.
  pose proof flag_stable_save_to_file.
  pose proof flag_stable_style_layer.
  pose proof flag_stable_get_layer_names.
  pose proof flag_stable_get_styled_layers.
  destruct op; simpl; intros Hop; try done;
    try solve [apply flag_stable_preserves; solve_flags].
  - apply extract_shorelines_keeps.
  - apply preserves_bind; [apply create_shoreline_settings_keeps|intros _].
    apply flag_stable_preserves. solve_flags.
Qed.

End flags.

(** C8. Let the collaborators leave the two flags alone: what they are
    handed they may change, the settings included, but a dictionary in which
    ['adjust_detection'] and ['check_detection'] are [False] is still such a
    dictionary when a call returns.  Then every construction that succeeds
    leaves in [self.shoreline_settings] a dictionary in which both are
    [False], whatever the caller's settings said, and every method of the
    class keeps it so, however the method ends. *)
Theorem detection_stays_disabled ext is_list_empty recursion_limit :
  keeps_detection_flags ext →
  (∀ roi_id shoreline roi_settings settings s s',
     __init__ ext is_list_empty recursion_limit
       roi_id shoreline roi_settings settings s = Ok tt s' →
     detection_disabled s') ∧
  (∀ op s, is_method op → detection_disabled s →
     detection_disabled
       (final_state (run ext is_list_empty recursion_limit op s))).
Proof.
  intros Hflags. split.
  - intros roi_id shoreline roi_settings settings s s' Hrun.
    by eapply init_disables.
  - intros op s Hop Hs. by apply run_keeps.
Qed.

(** ** The constructor's checks *)

Lemma type_of_gdf h v :
  type_of h v = Some TGeoDataFrame → ∃ l g, v = VRef l ∧ h !! l = Some (OGdf g).
Proof.
  destruct v as [| | | | |l]; simpl; try done.
  destruct (h !! l) as [[d|xs|g|c p]|] eqn:Hl; simpl; try done. intros _. eauto.
Qed.

Lemma type_of_dict h v :
  type_of h v = Some TDict → ∃ l d, v = VRef l ∧ h !! l = Some (ODict d).
Proof.
  destruct v as [| | | | |l]; simpl; try done.
  destruct (h !! l) as [[d|xs|g|c p]|] eqn:Hl; simpl; try done. intros _. eauto.
Qed.

Lemma init_invalid_raises ext is_list_empty recursion_limit
    roi_id shoreline roi_settings settings s :
  invalid_args (heap s) roi_id shoreline roi_settings settings →
  __init__ ext is_list_empty recursion_limit
    roi_id shoreline roi_settings settings s = Raise ValueError s.
Proof.
  intros Hinv. unfold __init__, bind, isinstance, raise.
  case_bool_decide as Hid; simpl; [|done].
  case_bool_decide as Hgdf; simpl; [|done].
  destruct (type_of_gdf _ _ Hgdf) as (l1 & g & -> & Hl1).
  unfold gdf_empty. rewrite Hl1.
  destruct (gdf_is_empty g) eqn:Hg; [done|].
  case_bool_decide as Hroi; simpl; [|done].
  destruct (type_of_dict _ _ Hroi) as (l2 & d2 & -> & Hl2).
  unfold eq_empty_dict at 1. rewrite Hl2.
  case_bool_decide as Hd2; [done|].
  case_bool_decide as Hset; simpl; [|done].
  destruct (type_of_dict _ _ Hset) as (l3 & d3 & -> & Hl3).
  unfold eq_empty_dict at 1. rewrite Hl3.
  case_bool_decide as Hd3; [done|].
  exfalso.
  destruct Hinv as [?|[?|[(l & g' & ? & ? & ?)|[?|[(l & ? & ?)|[?|(l & ? & ?)]]]]]];
    simplify_eq; congruence.
Qed.

(** C1. Called with a [roi_id] that is not a string, a [shoreline] that is
    not a GeoDataFrame or is an empty one, or a [roi_settings] or [settings]
    that is not a dictionary or is the empty dictionary, the constructor
    raises [ValueError] in the state it was called in: nothing was allocated
    or assigned and no collaborator was called. *)
Theorem init_rejects_invalid_arguments ext is_list_empty recursion_limit
    roi_id shoreline roi_settings settings s :
  invalid_args (heap s) roi_id shoreline roi_settings settings →
  __init__ ext is_list_empty recursion_limit
    roi_id shoreline roi_settings settings s = Raise ValueError s.
Proof. apply init_invalid_raises. Qed.

(** ** The calls an operation makes *)

Lemma silent_emits {A} P (m : M A) : silent m → emits P m.
Proof. intros Hm s. exists []. by rewrite app_nil_r. Qed.

Lemma silent_bind {A B} (m : M A) (k : A → M B) :
  silent m → (∀ a, silent (k a)) → silent (bind m k).
Proof.
  intros Hm Hk s. rewrite final_state_bind. specialize (Hm s).
  destruct (m s) as [a s1|e s1]; simpl in *; [|done]. by rewrite Hk.
Qed.

Lemma emits_bind {A B} P (m : M A) (k : A → M B) :
  emits P m → (∀ a, emits P (k a)) → emits P (bind m k).
Proof.
  intros Hm Hk s. rewrite final_state_bind. destruct (Hm s) as (t & Ht & HP).
  destruct (m s) as [a s1|e s1]; simpl in *; [|eauto].
  destruct (Hk a s1) as (t' & Ht' & HP'). exists (t ++ t').
  split; [by rewrite Ht', Ht, app_assoc|by apply Forall_app].
Qed.

Lemma silent_ret {A} (a : A) : silent (ret a).
Proof. done. Qed.

Lemma silent_raise {A} e : silent (@raise A e).
Proof. done. Qed.

Lemma silent_get_self : silent get_self.
Proof. done. Qed.

Lemma silent_isinstance v ty : silent (isinstance v ty).
Proof. done. Qed.

Lemma silent_getitem v k : silent (getitem v k).
Proof. intros s. unfold getitem. by repeat case_match. Qed.

Lemma silent_setitem v k x : silent (setitem v k x).
Proof. intros s. unfold setitem. by repeat case_match. Qed.

Lemma silent_copy_deepcopy n v : silent (copy_deepcopy n v).
Proof. intros s. unfold copy_deepcopy. by repeat case_match. Qed.

Lemma silent_set_shoreline_settings v : silent (set_shoreline_settings v).
Proof. done. Qed.

Lemma silent_create_shoreline_settings n a b c :
  silent (create_shoreline_settings n a b c).
Proof.
  unfold create_shoreline_settings.
  repeat first
    [ apply silent_bind; [|intros ?]
    | apply silent_copy_deepcopy | apply silent_setitem
    | apply silent_set_shoreline_settings ].
Qed.

Lemma getitem_ok_inv v k x s s' :
  getitem v k s = Ok x s' →
  s' = s ∧ ∃ l d, v = VRef l ∧ heap s !! l = Some (ODict d) ∧ d !! k = Some x.
Proof. unfold getitem. intros Hrun. repeat case_match; simplify_eq. eauto 10. Qed.

Lemma filter_coastsat_none t :
  Forall (fun e => is_coastsat (ev_fn e) = false) t → coastsat_calls t = [].
Proof.
  unfold coastsat_calls. induction 1 as [|e t He _ IH]; [done|].
  rewrite filter_cons_False; [done|congruence].
Qed.

Section calls.
Variable ext : list event -> extfn -> list value -> gmap loc object ->
               exn + (value * gmap loc object).
Variable recursion_limit : nat.

Lemma ext_call_ok_inv f args s v s' :
  ext_call ext f args s = Ok v s' →
  ext (trace s) f args (heap s) = inr (v, heap s') ∧
  self s' = self s ∧ files s' = files s ∧
  trace s' = trace s ++ [Call f args (inr v)].
Proof.
  unfold ext_call.
  destruct (ext (trace s) f args (heap s)) as [e|[v0 h']]; [done|].
  by intros [= -> <-].
Qed.

Lemma emits_ext_call (P : event → Prop) f args :
  (∀ r, P (Call f args r)) → emits P (ext_call ext f args).
Proof.
  intros HP s. unfold ext_call.
  destruct (ext (trace s) f args (heap s)) as [e|[v0 h']]; simpl;
    eexists; (split; [done|]); by constructor.
Qed.

Lemma emits_gdf_method (P : event → Prop) f obj args :
  (∀ r, P (Call f (obj :: args) r)) → emits P (gdf_method ext f obj args).
Proof.
  intros HP. unfold gdf_method.
  apply emits_bind; [apply silent_emits, silent_isinstance|].
  intros []; [by apply emits_ext_call|apply silent_emits, silent_raise].
Qed.

Lemma emits_py_len (P : event → Prop) v :
  (∀ r, P (Call builtin_len [v] r)) → emits P (py_len ext v).
Proof.
  intros HP s. unfold py_len.
  repeat case_match; try (exists []; by rewrite app_nil_r).
  by apply emits_ext_call.
Qed.

Lemma emits_get_reference_shoreline a b :
  emits (fun e => is_coastsat (ev_fn e) = false)
    (get_reference_shoreline ext a b).
Proof.
  unfold get_reference_shoreline.
  repeat first
    [ by apply emits_gdf_method
    | by apply emits_ext_call
    | by apply emits_py_len
    | apply silent_emits, silent_ret
    | apply emits_bind; [|intros ?] ].
Qed.

(** What a run of [extract_shorelines] that returns has called: first the
    collaborators that prepare the reference shoreline, none of them from
    coastsat, then four functions of coastsat in a chain. *)
Lemma extract_shorelines_calls shoreline_gdf roi_settings settings s v s' :
  extract_shorelines ext recursion_limit shoreline_gdf roi_settings settings s
    = Ok v s' →
  ∃ pre inputs metadata ss raw dedup h0 h1 h2 h3,
    Forall (fun e => is_coastsat (ev_fn e) = false) pre ∧
    let t0 := trace s ++ pre in
    let e1 := Call SDS_download_get_metadata [inputs] (inr metadata) in
    let e2 := Call SDS_shoreline_extract_shorelines [metadata; ss] (inr raw) in
    let e3 := Call SDS_tools_remove_duplicates [raw] (inr dedup) in
    let e4 := Call SDS_tools_remove_inaccurate_georef [dedup; VInt 10] (inr v) in
    ext t0 SDS_download_get_metadata [inputs] h0 = inr (metadata, h1) ∧
    ext (t0 ++ [e1]) SDS_shoreline_extract_shorelines [metadata; ss] h1
      = inr (raw, h2) ∧
    ext (t0 ++ [e1; e2]) SDS_tools_remove_duplicates [raw] h2 = inr (dedup, h3) ∧
    ext (t0 ++ [e1; e2; e3]) SDS_tools_remove_inaccurate_georef
      [dedup; VInt 10] h3 = inr (v, heap s') ∧
    trace s' = t0 ++ [e1; e2; e3; e4].
Proof.
  unfold extract_shorelines. intros Hrun.
  apply bind_ok_inv in Hrun as (epsg & s1 & [-> _]%getitem_ok_inv & Hrun).
  apply bind_ok_inv in Hrun as (ref & s2 & Href & Hrun).
  destruct (emits_get_reference_shoreline shoreline_gdf epsg s) as (pre & Hpre & Hnone).
  rewrite Href in Hpre. simpl in Hpre.
  apply bind_ok_inv in Hrun as (? & s3 & Hcreate & Hrun).
  pose proof (silent_create_shoreline_settings recursion_limit
                settings roi_settings ref s2) as Hsilent.
  rewrite Hcreate in Hsilent. simpl in Hsilent.
  apply bind_ok_inv in Hrun as (this & ? & [= <- <-] & Hrun).
  apply bind_ok_inv in Hrun as (inputs & ? & [-> _]%getitem_ok_inv & Hrun).
  apply bind_ok_inv in Hrun as (metadata & s4 & (He1 & Hs1 & _ & Ht1)%ext_call_ok_inv & Hrun).
  apply bind_ok_inv in Hrun as (this' & ? & [= <- <-] & Hrun).
  apply bind_ok_inv in Hrun as (raw & s5 & (He2 & _ & _ & Ht2)%ext_call_ok_inv & Hrun).
  apply bind_ok_inv in Hrun as (dedup & s6 & (He3 & _ & _ & Ht3)%ext_call_ok_inv & Hrun).
  apply bind_ok_inv in Hrun as (last & s7 & (He4 & _ & _ & Ht4)%ext_call_ok_inv & Hrun).
  unfold ret in Hrun. simplify_eq.
  exists pre, inputs, metadata, (self_shoreline_settings (self s4)), raw, dedup,
    (heap s3), (heap s4), (heap s5), (heap s6).
  split; [done|]. simpl.
  rewrite Hsilent, Hpre in Ht1. rewrite Ht1 in Ht2. rewrite Ht2 in Ht3.
  rewrite Ht3 in Ht4. rewrite Hsilent, Hpre in He1.
  rewrite Ht1 in He2. rewrite Ht2 in He3. rewrite Ht3 in He4.
  rewrite <- !app_assoc in *. simpl in *. done.
Qed.

End calls.

(** C2. The dictionary a run of [extract_shorelines] returns is what
    [remove_inaccurate_georef], called with threshold 10, makes of what
    [remove_duplicates] makes of the output of the detection,
    [SDS_shoreline.extract_shorelines]; these are the last three calls of the
    run, in this order. *)
Theorem extract_shorelines_post_filters ext recursion_limit
    shoreline_gdf roi_settings settings s v s' :
  extract_shorelines ext recursion_limit shoreline_gdf roi_settings settings s
    = Ok v s' →
  ∃ t detection_args raw h1 dedup h2,
    let e1 := Call SDS_shoreline_extract_shorelines detection_args (inr raw) in
    let e2 := Call SDS_tools_remove_duplicates [raw] (inr dedup) in
    let e3 := Call SDS_tools_remove_inaccurate_georef [dedup; VInt 10] (inr v) in
    ext (t ++ [e1]) SDS_tools_remove_duplicates [raw] h1 = inr (dedup, h2) ∧
    ext (t ++ [e1; e2]) SDS_tools_remove_inaccurate_georef [dedup; VInt 10] h2
      = inr (v, heap s') ∧
    trace s' = t ++ [e1; e2; e3].
Proof.
  intros Hrun.
  apply extract_shorelines_calls in Hrun
    as (pre & inputs & metadata & ss & raw & dedup & h0 & h1 & h2 & h3 &
        _ & _ & _ & H3 & H4 & Ht).
  exists ((trace s ++ pre) ++ [Call SDS_download_get_metadata [inputs] (inr metadata)]),
    [metadata; ss], raw, h2, dedup, h3.
  simpl. rewrite <- !app_assoc. simpl.
  rewrite <- !app_assoc in H3, H4, Ht. done.
Qed.

(** C6, as the code has it. A run of [extract_shorelines] that returns has
    called four functions of coastsat, not three: [get_metadata], then
    [extract_shorelines] on the metadata, then [remove_duplicates] on the
    detection's output, then [remove_inaccurate_georef] on the deduplicated
    output; each call after the first takes the result of the call before it
    as its first argument, and the method returns the result of the last. *)
Theorem extract_shorelines_chains_four_calls ext recursion_limit
    shoreline_gdf roi_settings settings s v s' :
  extract_shorelines ext recursion_limit shoreline_gdf roi_settings settings s
    = Ok v s' →
  ∃ t inputs metadata ss raw dedup,
    trace s' = trace s ++ t ∧
    coastsat_calls t =
      [Call SDS_download_get_metadata [inputs] (inr metadata);
       Call SDS_shoreline_extract_shorelines [metadata; ss] (inr raw);
       Call SDS_tools_remove_duplicates [raw] (inr dedup);
       Call SDS_tools_remove_inaccurate_georef [dedup; VInt 10] (inr v)].
Proof.
  intros Hrun.
  apply extract_shorelines_calls in Hrun
    as (pre & inputs & metadata & ss & raw & dedup & h0 & h1 & h2 & h3 &
        Hpre & _ & _ & _ & _ & Ht).
  eexists _, inputs, metadata, ss, raw, dedup.
  split; [by rewrite Ht, <- app_assoc|].
  unfold coastsat_calls. rewrite filter_app.
  fold (coastsat_calls pre). by rewrite filter_coastsat_none.
Qed.

(** The sample run of [extract_shorelines] returns after four calls into
    coastsat. *)
Lemma extract_shorelines_sample_not_three_calls :
  ∃ v s',
    extract_shorelines (sample_ext 1) 10
      (VRef 1%positive) (VRef 2%positive) (VRef 3%positive) sample_state
      = Ok v s' ∧
    length (coastsat_calls (trace s')) ≠ 3.
Proof. eexists _, _. split; [vm_compute; reflexivity|]. vm_compute. lia. Qed.

(** ** [create_geodataframe] *)

Lemma set_crs_ok_inv ext v crs s u s' :
  set_crs ext v crs s = Ok u s' →
  ∃ l g, v = VRef l ∧ heap s !! l = Some (OGdf g) ∧
         s' = set_heap (<[l := OGdf (mkGeoDataFrame crs (gdf_len g)
                                      (gdf_columns g))]> (heap s)) s.
Proof. unfold set_crs. intros Hrun. repeat case_match; simplify_eq. eauto. Qed.

Lemma gdf_method_ok_inv ext f obj args s v s' :
  gdf_method ext f obj args s = Ok v s' →
  ext (trace s) f (obj :: args) (heap s) = inr (v, heap s') ∧
  self s' = self s ∧ files s' = files s ∧
  trace s' = trace s ++ [Call f (obj :: args) (inr v)].
Proof.
  unfold gdf_method, bind, isinstance. case_bool_decide; [|done].
  apply ext_call_ok_inv.
Qed.

(** The frame [create_geodataframe] builds, the store in which it asks for
    the reprojection, and what the reprojection returned. *)
Lemma create_geodataframe_ok_inv ext input_crs output_crs s v s' :
  create_geodataframe ext input_crs output_crs s = Ok v s' →
  ∃ src g h0 h,
    ext (trace s) SDS_tools_output_to_gdf
      [self_extracted_shorelines (self s); VStr "lines"] (heap s)
      = inr (VRef src, h0) ∧
    h0 !! src = Some (OGdf g) ∧
    h = <[src := OGdf (mkGeoDataFrame input_crs (gdf_len g) (gdf_columns g))]> h0 ∧
    self s' = self s ∧
    ((output_crs = VNone ∧ v = VRef src ∧ heap s' = h) ∨
     (output_crs ≠ VNone ∧
      ∃ t, ext t GeoDataFrame_to_crs [VRef src; output_crs] h = inr (v, heap s') ∧
           trace s' = t ++ [Call GeoDataFrame_to_crs [VRef src; output_crs] (inr v)])).
Proof.
  unfold create_geodataframe. intros Hrun.
  apply bind_ok_inv in Hrun as (this & ? & [= <- <-] & Hrun).
  apply bind_ok_inv in Hrun as (gdf0 & s1 & (Hout & Hself & _ & _)%ext_call_ok_inv & Hrun).
  apply bind_ok_inv in Hrun as (? & s2 & (src & g & -> & Hsrc & ->)%set_crs_ok_inv & Hrun).
  exists src, g, (heap s1), (<[src := OGdf (mkGeoDataFrame input_crs (gdf_len g)
                                   (gdf_columns g))]> (heap s1)).
  split; [done|]. split; [done|]. split; [done|].
  destruct (decide (output_crs = VNone)) as [->|Hne].
  - unfold ret in Hrun. simplify_eq. split; [done|]. by left.
  - assert (gdf_method ext GeoDataFrame_to_crs (VRef src) [output_crs]
              (set_heap (<[src := OGdf (mkGeoDataFrame input_crs (gdf_len g)
                                          (gdf_columns g))]> (heap s1)) s1)
            = Ok v s') as Hcall by (by destruct output_crs).
    apply gdf_method_ok_inv in Hcall as (Hext & Hself' & _ & Ht). simpl in *.
    split; [congruence|]. right. eauto.
Qed.

(** ** The constructor after its checks *)

Lemma keeps_bind {A B X} (f : state → X) (m : M A) (k : A → M B) :
  keeps f m → (∀ a, keeps f (k a)) → keeps f (bind m k).
Proof.
  intros Hm Hk s. rewrite final_state_bind. specialize (Hm s).
  destruct (m s) as [a s1|e s1]; simpl in *; [|done]. by rewrite Hk.
Qed.

Lemma valid_or_invalid h roi_id shoreline roi_settings settings :
  valid_args h roi_id shoreline roi_settings settings ∨
  invalid_args h roi_id shoreline roi_settings settings.
Proof.
  unfold valid_args, invalid_args, is_empty_gdf, is_empty_dict.
  destruct (decide (type_of h roi_id = Some TStr)); [|by (right; left)].
  destruct (decide (type_of h shoreline = Some TGeoDataFrame)) as [Hg|];
    [|by (right; right; left)].
  destruct (decide (type_of h roi_settings = Some TDict)) as [Hr|];
    [|by (right; right; right; right; left)].
  destruct (decide (type_of h settings = Some TDict)) as [Hs|];
    [|by (right; right; right; right; right; right; left)].
  apply type_of_gdf in Hg as (l1 & g & -> & Hl1).
  apply type_of_dict in Hr as (l2 & d2 & -> & Hl2).
  apply type_of_dict in Hs as (l3 & d3 & -> & Hl3).
  destruct (gdf_is_empty g) eqn:Hg; [right; right; right; left; eauto|].
  destruct (decide (d2 = ∅)) as [->|]; [right; right; right; right; right; left; eauto|].
  destruct (decide (d3 = ∅)) as [->|]; [right; right; right; right; right; right; right; eauto|].
  left. split; [done|]. split; [by eexists _, _|]. split; by eexists _, _.
Qed.

Section constructor.
Variable ext : list event -> extfn -> list value -> gmap loc object ->
               exn + (value * gmap loc object).
Variable is_list_empty : gmap loc object -> value -> exn + bool.
Variable recursion_limit : nat.

Lemma init_valid roi_id shoreline roi_settings settings s :
  valid_args (heap s) roi_id shoreline roi_settings settings →
  __init__ ext is_list_empty recursion_limit
    roi_id shoreline roi_settings settings s =
  (let* extracted :=
     extract_shorelines ext recursion_limit shoreline roi_settings settings in
   init_finish ext is_list_empty extracted)
    (final_state (fresh_instance roi_id s)).
Proof.
  intros (Hid & (l1 & g & -> & Hl1 & Hg) & (l2 & d2 & -> & Hl2 & Hd2) &
          (l3 & d3 & -> & Hl3 & Hd3)).
  assert (type_of (heap s) (VRef l1) = Some TGeoDataFrame) as Ht1
    by (simpl; by rewrite Hl1).
  assert (type_of (heap s) (VRef l2) = Some TDict) as Ht2
    by (simpl; by rewrite Hl2).
  assert (type_of (heap s) (VRef l3) = Some TDict) as Ht3
    by (simpl; by rewrite Hl3).
  unfold __init__, bind at 1, isinstance at 1.
  rewrite (bool_decide_eq_true_2 _ Hid). cbv beta iota delta [negb].
  unfold bind at 1, isinstance at 1.
  rewrite (bool_decide_eq_true_2 _ Ht1). cbv beta iota delta [negb].
  unfold bind at 1, gdf_empty. rewrite Hl1, Hg. cbv beta iota.
  unfold bind at 1, isinstance at 1.
  rewrite (bool_decide_eq_true_2 _ Ht2). cbv beta iota delta [negb].
  unfold bind at 1, eq_empty_dict at 1. rewrite Hl2.
  rewrite (bool_decide_eq_false_2 _ Hd2). cbv beta iota.
  unfold bind at 1, isinstance at 1.
  rewrite (bool_decide_eq_true_2 _ Ht3). cbv beta iota delta [negb].
  unfold bind at 1, eq_empty_dict at 1. rewrite Hl3.
  rewrite (bool_decide_eq_false_2 _ Hd3). cbv beta iota.
  reflexivity.
Qed.

Lemma init_ok_inv roi_id shoreline roi_settings settings s s' :
  __init__ ext is_list_empty recursion_limit
    roi_id shoreline roi_settings settings s = Ok tt s' →
  valid_args (heap s) roi_id shoreline roi_settings settings ∧
  ∃ extracted s1,
    extract_shorelines ext recursion_limit shoreline roi_settings settings
      (final_state (fresh_instance roi_id s)) = Ok extracted s1 ∧
    init_finish ext is_list_empty extracted s1 = Ok tt s'.
Proof.
  intros Hrun.
  destruct (valid_or_invalid (heap s) roi_id shoreline roi_settings settings)
    as [Hvalid|Hinvalid].
  - split; [done|]. rewrite init_valid in Hrun by done.
    by apply bind_ok_inv in Hrun.
  - by rewrite init_invalid_raises in Hrun.
Qed.

Lemma extract_shorelines_keeps_identity a b c :
  keeps (fun s => (self_roi_id (self s), self_gdf (self s)))
    (extract_shorelines ext recursion_limit a b c).
Proof.
  unfold extract_shorelines, get_reference_shoreline,
    create_shoreline_settings, gdf_method.
  repeat (apply keeps_bind; [|intros ?]);
    try (intros s;
         unfold getitem, isinstance, ext_call, py_len, ext_call, copy_deepcopy,
           setitem, set_shoreline_settings, get_self, ret, raise;
         by repeat case_match).
Qed.

Lemma init_finish_ok_inv extracted s s' :
  init_finish ext is_list_empty extracted s = Ok tt s' →
  ∃ le d sl lset dset epsg gdf s2,
    extracted = VRef le ∧ heap s !! le = Some (ODict d) ∧
    d !! "shorelines" = Some sl ∧ is_list_empty (heap s) sl = inr false ∧
    self_shoreline_settings (self s) = VRef lset ∧
    heap s !! lset = Some (ODict dset) ∧ dset !! "output_epsg" = Some epsg ∧
    create_geodataframe ext epsg (VStr "EPSG:4326")
      (final_state (set_extracted_shorelines extracted s)) = Ok gdf s2 ∧
    s' = final_state (set_gdf gdf s2).
Proof.
  unfold init_finish. intros Hrun.
  apply bind_ok_inv in Hrun as (? & ? & [= <-] & Hrun).
  apply bind_ok_inv in Hrun as (this & ? & [= <- <-] & Hrun).
  apply bind_ok_inv in Hrun
    as (sl & ? & [-> (le & d & Hle & Hd & Hsl)]%getitem_ok_inv & Hrun).
  apply bind_ok_inv in Hrun as (b & s3 & Hempty & Hrun).
  unfold call_is_list_empty in Hempty.
  destruct (is_list_empty _ sl) as [e|b'] eqn:Hb in Hempty; [done|].
  simpl in Hb. simplify_eq. destruct b; [done|].
  apply bind_ok_inv in Hrun as (this' & ? & [= <- <-] & Hrun).
  apply bind_ok_inv in Hrun
    as (epsg & ? & [-> (lset & dset & Hlset & Hdset & Hepsg)]%getitem_ok_inv & Hrun).
  apply bind_ok_inv in Hrun as (gdf & s4 & Hcreate & Hrun).
  unfold set_gdf in Hrun. simpl in *. simplify_eq.
  eexists le, d, sl, lset, dset, epsg, gdf, s4. done.
Qed.

End constructor.
(** C5. With a [to_crs] that returns a GeoDataFrame in the coordinate system
    asked for, the GeoDataFrame [create_geodataframe] returns has the CRS
    [output_crs] when that is not [None], and [input_crs] otherwise.  A
    construction that succeeds leaves in [self.gdf] a GeoDataFrame in
    ['EPSG:4326']: the one [to_crs] returned when it was called, for
    ['EPSG:4326'], on the frame [output_to_gdf] had returned, labelled with
    the CRS found under ['output_epsg'] in [self.shoreline_settings] when
    [output_to_gdf] was called. *)
Theorem create_geodataframe_crs ext is_list_empty recursion_limit :
  to_crs_contract ext →
  (∀ input_crs output_crs s v s',
     create_geodataframe ext input_crs output_crs s = Ok v s' →
     ∃ l g, v = VRef l ∧ heap s' !! l = Some (OGdf g) ∧
            gdf_crs g = if decide (output_crs = VNone) then input_crs
                        else output_crs) ∧
  (∀ roi_id shoreline roi_settings settings s s',
     __init__ ext is_list_empty recursion_limit
       roi_id shoreline roi_settings settings s = Ok tt s' →
     ∃ l g t src src_gdf t0 extracted h_read h0 lset dset epsg,
       self_gdf (self s') = VRef l ∧ heap s' !! l = Some (OGdf g) ∧
       gdf_crs g = VStr "EPSG:4326" ∧
       trace s' = t ++ [Call GeoDataFrame_to_crs [VRef src; VStr "EPSG:4326"]
                          (inr (VRef l))] ∧
       ext t GeoDataFrame_to_crs [VRef src; VStr "EPSG:4326"]
         (<[src := OGdf (mkGeoDataFrame epsg (gdf_len src_gdf)
                           (gdf_columns src_gdf))]> h0)
         = inr (VRef l, heap s') ∧
       ext t0 SDS_tools_output_to_gdf [extracted; VStr "lines"] h_read
         = inr (VRef src, h0) ∧
       h0 !! src = Some (OGdf src_gdf) ∧
       self_shoreline_settings (self s') = VRef lset ∧
       h_read !! lset = Some (ODict dset) ∧
       dset !! "output_epsg" = Some epsg).
Proof.
  intros Hcontract. split.
  - intros input_crs output_crs s v s' Hrun.
    apply create_geodataframe_ok_inv in Hrun
      as (src & g & h0 & h & _ & _ & -> & _ &
          [(-> & -> & Hh)|(Hout & t & Hext & _)]).
    + eexists _, _. split; [done|]. rewrite Hh, lookup_insert_eq.
      split; [done|]. by rewrite decide_True.
    + apply Hcontract in Hext as (l & g' & -> & Hl & Hcrs).
      exists l, g'. by rewrite decide_False.
  - intros roi_id shoreline roi_settings settings s s' Hrun.
    apply init_ok_inv in Hrun as (_ & extracted & s1 & _ & Hfin).
    apply init_finish_ok_inv in Hfin
      as (le & d & sl & lset & dset & epsg & gdf & s2 & -> & _ & _ & _ &
          Hlset & Hdset & Hepsg & Hcreate & ->).
    apply create_geodataframe_ok_inv in Hcreate
      as (src & g & h0 & h & Hout & Hsrc & -> & Hself &
          [(? & _)|(_ & t & Hext & Ht)]); [done|].
    pose proof Hext as Hext'.
    apply Hcontract in Hext' as (l & g' & -> & Hl & Hcrs).
    exists l, g', t, src, g, (trace s1), (VRef le), (heap s1), h0, lset, dset, epsg.
    simpl in *.
    split; [done|]. split; [done|]. split; [done|]. split; [done|].
    split; [done|]. split; [done|]. split; [done|].
    split; [by rewrite Hself|]. done.
Qed.

(** ** The check for extracted shorelines *)

(** C9. Let the constructor be called with arguments it accepts, and let
    [common.is_list_empty] answer [True] on the empty list.  If
    [extract_shorelines] returns a dictionary whose ['shorelines'] is an empty
    list, the constructor assigns it to [self.extracted_shorelines] and raises
    [No_Extracted_Shoreline] for the [roi_id] given: nothing else happens
    after the extraction, and in particular [SDS_tools.output_to_gdf], with
    which [create_geodataframe] starts, is never called.  If the constructor
    returns, the extraction returned a dictionary for whose ['shorelines']
    [is_list_empty] answered [False], so that it was not an empty list. *)
Theorem init_raises_without_shorelines ext is_list_empty recursion_limit
    roi_id shoreline roi_settings settings s :
  is_list_empty_contract is_list_empty →
  valid_args (heap s) roi_id shoreline roi_settings settings →
  (∀ le s1 d l,
     extract_shorelines ext recursion_limit shoreline roi_settings settings
       (final_state (fresh_instance roi_id s)) = Ok (VRef le) s1 →
     heap s1 !! le = Some (ODict d) → d !! "shorelines" = Some (VRef l) →
     heap s1 !! l = Some (OList []) →
     __init__ ext is_list_empty recursion_limit
       roi_id shoreline roi_settings settings s
     = Raise (No_Extracted_Shoreline roi_id)
         (final_state (set_extracted_shorelines (VRef le) s1)) ∧
     ∃ t, trace s1 = trace s ++ t ∧
          Forall (fun e => ev_fn e ≠ SDS_tools_output_to_gdf) t) ∧
  (∀ s',
     __init__ ext is_list_empty recursion_limit
       roi_id shoreline roi_settings settings s = Ok tt s' →
     ∃ le s1 d sl,
       extract_shorelines ext recursion_limit shoreline roi_settings settings
         (final_state (fresh_instance roi_id s)) = Ok (VRef le) s1 ∧
       heap s1 !! le = Some (ODict d) ∧ d !! "shorelines" = Some sl ∧
       is_list_empty (heap s1) sl = inr false ∧
       ∀ l, sl = VRef l → heap s1 !! l ≠ Some (OList [])).
Proof.
  intros Hcontract Hvalid. split.
  - intros le s1 d l Hextract Hle Hd Hl. split.
    + rewrite init_valid by done. unfold bind at 1. rewrite Hextract.
      pose proof (extract_shorelines_keeps_identity ext recursion_limit
                    shoreline roi_settings settings
                    (final_state (fresh_instance roi_id s))) as Hid.
      rewrite Hextract in Hid. simpl in Hid. injection Hid as Hid _.
      unfold init_finish, bind, set_extracted_shorelines, get_self, getitem,
        call_is_list_empty. simpl.
      rewrite Hle, Hd. simpl. rewrite (Hcontract _ _ Hl). simpl.
      by rewrite Hid.
    + apply extract_shorelines_calls in Hextract
        as (pre & inputs & metadata & ss & raw & dedup & h0 & h1 & h2 & h3 &
            Hpre & _ & _ & _ & _ & Ht).
      eexists. split; [rewrite Ht, <- app_assoc; reflexivity|].
      apply Forall_app. split.
      * eapply Forall_impl; [exact Hpre|]. intros e He Hfn.
        simpl in He. by rewrite Hfn in He.
      * by repeat constructor.
  - intros s' Hrun.
    apply init_ok_inv in Hrun as (_ & extracted & s1 & Hextract & Hfin).
    apply init_finish_ok_inv in Hfin
      as (le & d & sl & lset & dset & epsg & gdf & s2 & -> & Hle & Hsl & Hempty & _).
    exists le, s1, d, sl. split; [done|]. split; [done|]. split; [done|].
    split; [done|]. intros l -> Hl.
    rewrite (Hcontract _ _ Hl) in Hempty. done.
Qed.

(** ** [get_layer_names] *)

Lemma mapM_cons {A B} (f : A → M B) x xs s :
  mapM f (x :: xs) s =
  match f x s with
  | Ok y s1 =>
    match mapM f xs s1 with
    | Ok ys s2 => Ok (y :: ys) s2
    | Raise e s2 => Raise e s2
    end
  | Raise e s1 => Raise e s1
  end.
Proof. reflexivity. Qed.

Lemma mapM_pure {A B} (f : A → M B) (g : A → B) xs s :
  (∀ x, x ∈ xs → ∀ s, f x s = Ok (g x) s) → mapM f xs s = Ok (g <$> xs) s.
Proof.
  induction xs as [|x xs IH]; intros Hf; [done|].
  rewrite mapM_cons, Hf by apply list_elem_of_here.
  rewrite IH; [done|]. intros y Hy. apply Hf. by apply list_elem_of_further.
Qed.

Lemma mapM_layer_names r ds s :
  mapM (fun date_str =>
          let* a := str_add (VStr "ID") (VStr r) in
          let* b := str_add a (VStr "_") in
          str_add b date_str) (VStr <$> ds) s
  = Ok ((fun d => VStr (layer_name r d)) <$> ds) s.
Proof.
  rewrite (mapM_pure _ (fun v => match v with
                                 | VStr d => VStr (layer_name r d)
                                 | _ => VNone
                                 end)).
  - by rewrite <- list_fmap_compose.
  - intros x (d & -> & _)%list_elem_of_fmap s0. reflexivity.
Qed.

(** C10. On an instance whose [roi_id] is a string and whose GeoDataFrame
    has a ['date'] column of strings, one for each row, [get_layer_names]
    returns a new list with as many entries as the frame has rows, the i-th
    being ['ID' + roi_id + '_'] followed by the i-th date. *)
Theorem get_layer_names_lists_rows s l g r ds :
  self_gdf (self s) = VRef l → heap s !! l = Some (OGdf g) →
  self_roi_id (self s) = VStr r →
  gdf_columns g !! "date" = Some (VStr <$> ds) → length ds = gdf_len g →
  ∃ l' names,
    get_layer_names s = Ok (VRef l') (set_heap (<[l' := OList names]> (heap s)) s) ∧
    (l' ∉ dom (heap s)) ∧ length names = gdf_len g ∧
    ∀ i, names !! i = (fun d => VStr (layer_name r d)) <$> ds !! i.
Proof.
  intros Hgdf Hl Hid Hdate Hlen.
  exists (fresh (dom (heap s))), ((fun d => VStr (layer_name r d)) <$> ds).
  split; [|split; [apply is_fresh|split]].
  - unfold get_layer_names, bind at 1, get_self. cbv beta iota.
    unfold bind at 1, gdf_column. rewrite Hgdf, Hl, Hdate, Hid.
    unfold bind at 1. by rewrite mapM_layer_names.
  - by rewrite length_fmap.
  - intros i. apply list_lookup_fmap.
Qed.

(** ** Files *)

Lemma same_but_files_refl s : same_but_files s s.
Proof. done. Qed.

Lemma blind_bind {A B} (m : M A) (k : A → M B) :
  files_blind m → (∀ a, files_blind (k a)) → files_blind (bind m k).
Proof.
  intros Hm Hk s1 s2 Hs. unfold bind. specialize (Hm s1 s2 Hs).
  destruct (m s1) as [a1 t1|e1 t1], (m s2) as [a2 t2|e2 t2]; simpl in Hm;
    try done.
  destruct Hm as [-> Ht]. by apply Hk.
Qed.

Ltac blind_prim :=
  let s1 := fresh "s1" in
  let s2 := fresh "s2" in
  let Hh := fresh "Hh" in
  let Hs := fresh "Hs" in
  let Ht := fresh "Ht" in
  intros s1 s2 (Hh & Hs & Ht);
  cbv beta delta [ret raise get_self get_heap alloc isinstance getitem setitem
                  eq_empty_dict as_str set_gdf set_roi_id
                  set_extracted_shorelines set_shoreline_settings gdf_empty
                  set_crs gdf_column list_items list_append str_add write_file
                  copy_deepcopy];
  rewrite ?Hh, ?Hs, ?Ht;
  repeat case_match; simpl; rewrite ?Hh, ?Hs, ?Ht; done.

Lemma blind_ret {A} (a : A) : files_blind (ret a).
Proof. blind_prim. Qed.
Lemma blind_raise {A} e : files_blind (@raise A e).
Proof. blind_prim. Qed.
Lemma blind_get_self : files_blind get_self.
Proof. blind_prim. Qed.
Lemma blind_alloc o : files_blind (alloc o).
Proof. blind_prim. Qed.
Lemma blind_isinstance v ty : files_blind (isinstance v ty).
Proof. blind_prim. Qed.
Lemma blind_getitem v k : files_blind (getitem v k).
Proof. blind_prim. Qed.
Lemma blind_setitem v k x : files_blind (setitem v k x).
Proof. blind_prim. Qed.
Lemma blind_eq_empty_dict v : files_blind (eq_empty_dict v).
Proof. blind_prim. Qed.
Lemma blind_as_str v : files_blind (as_str v).
Proof. destruct v; blind_prim. Qed.
Lemma blind_set_gdf v : files_blind (set_gdf v).
Proof. blind_prim. Qed.
Lemma blind_set_roi_id v : files_blind (set_roi_id v).
Proof. blind_prim. Qed.
Lemma blind_set_extracted_shorelines v : files_blind (set_extracted_shorelines v).
Proof. blind_prim. Qed.
Lemma blind_set_shoreline_settings v : files_blind (set_shoreline_settings v).
Proof. blind_prim. Qed.
Lemma blind_gdf_empty v : files_blind (gdf_empty v).
Proof. blind_prim. Qed.
Lemma blind_set_crs ext v crs : files_blind (set_crs ext v crs).
Proof. blind_prim. Qed.
Lemma blind_gdf_column v c : files_blind (gdf_column v c).
Proof. blind_prim. Qed.
Lemma blind_list_items v : files_blind (list_items v).
Proof. blind_prim. Qed.
Lemma blind_list_append v x : files_blind (list_append v x).
Proof. blind_prim. Qed.
Lemma blind_str_add a b : files_blind (str_add a b).
Proof. destruct a, b; blind_prim. Qed.
Lemma blind_write_file path f : files_blind (write_file path f).
Proof. blind_prim. Qed.
Lemma blind_copy_deepcopy n v : files_blind (copy_deepcopy n v).
Proof. blind_prim. Qed.

Lemma blind_list_index v idx : files_blind (list_index v idx).
Proof.
  apply blind_bind; [apply blind_list_items|]. intros xs.
  destruct (xs !! idx); [apply blind_ret|apply blind_raise].
Qed.

Lemma blind_os_path_join a p : files_blind (os_path_join a p).
Proof.
  unfold os_path_join. apply blind_bind; [apply blind_as_str|]. intros x.
  revert x. induction p as [|b p IH]; intros x; [apply blind_ret|].
  apply blind_bind; [apply blind_as_str|]. intros y. apply IH.
Qed.

Lemma blind_mapM {A B} (f : A → M B) xs :
  (∀ x, files_blind (f x)) → files_blind (mapM f xs).
Proof.
  intros Hf. induction xs as [|x xs IH]; [apply blind_ret|].
  apply blind_bind; [apply Hf|]. intros y.
  apply blind_bind; [apply IH|]. intros ys. apply blind_ret.
Qed.

Lemma blind_for_enumerate body xs :
  (∀ i x, files_blind (body i x)) →
  ∀ idx, files_blind (for_enumerate body idx xs).
Proof.
  intros Hb. induction xs as [|x xs IH]; intros idx; [apply blind_ret|].
  apply blind_bind; [apply Hb|]. intros _. apply IH.
Qed.

Create HintDb blind.
#[local] Hint Resolve blind_ret blind_raise blind_get_self blind_alloc
  blind_isinstance blind_getitem blind_setitem blind_eq_empty_dict blind_as_str
  blind_set_gdf blind_set_roi_id blind_set_extracted_shorelines
  blind_set_shoreline_settings blind_gdf_empty blind_set_crs blind_gdf_column
  blind_list_items blind_list_append blind_str_add blind_write_file
  blind_copy_deepcopy blind_list_index blind_os_path_join : blind.

Ltac blind_step :=
  first
    [ solve [auto with blind]
    | apply blind_mapM; intros ?
    | apply blind_for_enumerate; intros ? ?
    | apply blind_bind; [|intros ?]
    | match goal with
      | |- files_blind (if ?b then _ else _) => destruct b
      | |- files_blind (match ?v with _ => _ end) => destruct v
      end ].

Ltac solve_blind := repeat blind_step.

Section files.
Variable ext : list event -> extfn -> list value -> gmap loc object ->
               exn + (value * gmap loc object).
Variable is_list_empty : gmap loc object -> value -> exn + bool.
Variable recursion_limit : nat.

Lemma blind_ext_call f args : files_blind (ext_call ext f args).
Proof.
  intros s1 s2 (Hh & Hs & Ht). unfold ext_call. rewrite Hh, Ht.
  destruct (ext (trace s2) f args (heap s2)) as [e|[v h']]; simpl;
    by rewrite ?Hs, ?Ht.
Qed.
#[local] Hint Resolve blind_ext_call : blind.

Lemma blind_gdf_method f obj args : files_blind (gdf_method ext f obj args).
Proof. unfold gdf_method. solve_blind. Qed.
#[local] Hint Resolve blind_gdf_method : blind.

Lemma blind_to_file obj savepath driver encoding :
  files_blind (to_file ext obj savepath driver encoding).
Proof.
  intros s1 s2 Hs. pose proof Hs as (Hh & _ & _). unfold to_file.
  destruct obj as [| | | | |l]; try done. rewrite Hh.
  destruct (heap s2 !! l) as [[d|xs|g|c p]|]; try done.
  apply (blind_bind (ext_call ext _ _) (fun _ => write_file _ _));
    auto with blind.
Qed.
#[local] Hint Resolve blind_to_file : blind.

Lemma blind_py_len v : files_blind (py_len ext v).
Proof.
  intros s1 s2 Hs. pose proof Hs as (Hh & _ & _). unfold py_len.
  destruct v as [| | | | |l]; try done. rewrite Hh.
  destruct (heap s2 !! l) as [[d|xs|g|c p]|]; try done.
  by apply blind_ext_call.
Qed.
#[local] Hint Resolve blind_py_len : blind.

Lemma blind_call_is_list_empty v :
  files_blind (call_is_list_empty is_list_empty v).
Proof.
  intros s1 s2 (Hh & Hs & Ht). unfold call_is_list_empty. rewrite Hh.
  by case_match.
Qed.
#[local] Hint Resolve blind_call_is_list_empty : blind.

Lemma blind_get_reference_shoreline a b :
  files_blind (get_reference_shoreline ext a b).
Proof. unfold get_reference_shoreline. solve_blind. Qed.

Lemma blind_create_shoreline_settings a b c :
  files_blind (create_shoreline_settings recursion_limit a b c).
Proof. unfold create_shoreline_settings. solve_blind. Qed.

Lemma blind_extract_shorelines a b c :
  files_blind (extract_shorelines ext recursion_limit a b c).
Proof.
  pose proof blind_get_reference_shoreline.
  pose proof blind_create_shoreline_settings.
  unfold extract_shorelines. solve_blind.
Qed.

Lemma blind_create_geodataframe a b : files_blind (create_geodataframe ext a b).
Proof. unfold create_geodataframe. solve_blind. Qed.

Lemma blind_init a b c d :
  files_blind (__init__ ext is_list_empty recursion_limit a b c d).
Proof.
  pose proof blind_extract_shorelines. pose proof blind_create_geodataframe.
  unfold __init__. solve_blind.
Qed.

Lemma blind_save_to_file a b : files_blind (save_to_file ext a b).
Proof. unfold save_to_file. solve_blind. Qed.

Lemma blind_style_layer a b c : files_blind (style_layer ext a b c).
Proof. unfold style_layer. solve_blind. Qed.

Lemma blind_get_layer_names : files_blind get_layer_names.
Proof. unfold get_layer_names. solve_blind. Qed.

Lemma blind_get_styled_layers : files_blind (get_styled_layers ext).
Proof.
  pose proof blind_style_layer. pose proof blind_get_layer_names.
  unfold get_styled_layers. solve_blind.
Qed.

Lemma blind_run op : files_blind (run ext is_list_empty recursion_limit op).
Proof.
  pose proof blind_get_reference_shoreline.
  pose proof blind_create_shoreline_settings.
  pose proof blind_extract_shorelines.
  pose proof blind_create_geodataframe.
  pose proof blind_init.
  pose proof blind_save_to_file.
  pose proof blind_style_layer.
  pose proof blind_get_layer_names.
  pose proof blind_get_styled_layers.
  destruct op; simpl; solve_blind.
Qed.

End files.

(** Whatever the collaborators, the module has no operation that reads a
    file back. *)
Lemma no_operation_reads_files :
  ¬ ∃ ext is_list_empty recursion_limit,
      serializes_and_deserializes ext is_list_empty recursion_limit.
Proof.
  intros (ext & is_list_empty & recursion_limit & _ & op & Hreads).
  apply Hreads, blind_run.
Qed.

(** C7, as the code has it. [save_to_file] serializes: when the
    collaborator's [to_file] returns, the file
    [filepath/sitename/extracted_shorelines.geojson] holds [self.gdf], written
    with driver GeoJSON in utf-8, and nothing else changed but the record of
    that call.  No operation deserializes: what any operation of the module
    does and returns is the same whatever the files hold. *)
Theorem save_to_file_writes_and_nothing_reads ext is_list_empty recursion_limit :
  (∀ sitename filepath s l g v h',
     self_gdf (self s) = VRef l → heap s !! l = Some (OGdf g) →
     let savepath := path_join2 (path_join2 filepath sitename) FILE_NAME in
     let args := [VRef l; VStr savepath; VStr "GeoJSON"; VStr "utf-8"] in
     ext (trace s) GeoDataFrame_to_file args (heap s) = inr (v, h') →
     save_to_file ext (VStr sitename) (VStr filepath) s =
     Ok tt (mkState h' (self s)
              (trace s ++ [Call GeoDataFrame_to_file args (inr v)])
              (<[savepath := mkFile "GeoJSON" "utf-8" g]> (files s)))) ∧
  (∀ op, files_blind (run ext is_list_empty recursion_limit op)).
Proof.
  split; [|apply blind_run].
  intros sitename filepath s l g v h' Hgdf Hl savepath args Hext.
  unfold save_to_file, os_path_join, bind, as_str, ret, get_self, to_file.
  simpl. rewrite Hgdf, Hl. unfold bind, ext_call.
  fold savepath. fold args. by rewrite Hext.
Qed.

(** ** The sample collaborators honour the contracts *)

Ltac solve_untouched :=
  repeat first
    [ apply untouched_refl
    | eapply untouched_trans; [|apply untouched_insert, is_fresh] ].

Lemma sample_ext_frame n : ext_frame (sample_ext n).
Proof.
  intros t f args h v h' Hext l o Hl.
  eapply untouched_lookup; [|exact Hl].
  unfold sample_ext, halloc in Hext.
  repeat case_match; simplify_eq; solve_untouched.
Qed.

Lemma sample_ext_to_crs n : to_crs_contract (sample_ext n).
Proof.
  intros t g crs h v h' Hext. unfold sample_ext, halloc in Hext.
  repeat case_match; simplify_eq.
  eexists _, _. split; [done|]. split; [apply lookup_insert_eq|done].
Qed.

(** The detection that writes into the settings leaves the flags alone, and
    it does change an object that exists. *)
Lemma sample_ext_writing_flags n : keeps_detection_flags (sample_ext_writing n).
Proof.
  pose proof (ext_frame_keeps_flags _ (sample_ext_frame n)) as Hsample.
  intros t f args h v h' Hext l Hl. unfold sample_ext_writing in Hext.
  assert (∀ st d, h !! st = Some (ODict d) →
            flags_off (<[st := ODict (<["min_length_sl" := VInt 500]> d)]> h) l)
    as Hwritten.
  { intros st d Hst. destruct (decide (l = st)) as [->|Hne].
    - destruct Hl as (d0 & Hd0 & Ha & Hc). assert (d0 = d) as -> by congruence.
      exists (<["min_length_sl" := VInt 500]> d).
      split; [apply lookup_insert_eq|]. by rewrite !lookup_insert_ne.
    - destruct Hl as (d0 & Hd0 & Hflags). exists d0.
      by rewrite lookup_insert_ne. }
  repeat case_match; simplify_eq;
    solve [ eapply Hsample; [exact Hext|done]
          | eapply Hsample; [exact Hext|by apply Hwritten] ].
Qed.

Lemma sample_ext_writing_not_frame : ¬ ext_frame (sample_ext_writing 1).
Proof.
  intros Hframe.
  assert (∃ v h',
            sample_ext_writing 1 [] SDS_shoreline_extract_shorelines
              [VNone; VRef 3%positive] sample_heap = inr (v, h') ∧
            h' !! 3%positive
            = Some (ODict (<["min_length_sl" := VInt 500]> sample_settings)))
    as (v & h' & Hext & Hwritten).
  { eexists _, _. split; vm_compute; reflexivity. }
  assert (sample_heap !! 3%positive = Some (ODict sample_settings)) as Hbefore
    by (vm_compute; reflexivity).
  apply (Hframe _ _ _ _ _ _ Hext) in Hbefore.
  rewrite Hwritten in Hbefore.
  assert (<["min_length_sl" := VInt 500]> sample_settings = sample_settings)
    as Heq by congruence.
  apply (f_equal (fun d : gmap string value => d !! "min_length_sl")) in Heq.
  vm_compute in Heq. discriminate Heq.
Qed.

Lemma is_list_empty_model_contract : is_list_empty_contract is_list_empty_model.
Proof. intros h l Hl. unfold is_list_empty_model. by rewrite Hl. Qed.

(** ** The theorems at the sample run *)

Lemma sample_region_closed : region sample_region ∅ (heap sample_state).
Proof.
  split; [|split; [|split]].
  - simpl. unfold sample_heap, sample_region. rewrite !dom_insert_L. set_solver.
  - by rewrite dom_empty_L.
  - intros l [->%elem_of_singleton| ->%elem_of_singleton]%elem_of_union.
    + exists (ODict sample_settings). split; [vm_compute; reflexivity|].
      change (map_Forall (fun _ v => val_in sample_region v) sample_settings).
      unfold sample_settings.
      apply map_Forall_insert_2; [exact I|].
      apply map_Forall_insert_2; [exact I|].
      apply map_Forall_insert_2; [|apply map_Forall_empty].
      apply elem_of_union. right. by apply elem_of_singleton.
    + exists (OList [VStr "L8"; VStr "S2"]).
      split; [vm_compute; reflexivity|]. by repeat constructor.
  - intros l l' Hl. by rewrite lookup_empty in Hl.
Qed.

Lemma sample_region_containers : containers sample_region (heap sample_state).
Proof.
  intros l o Hl Ho. unfold sample_region in Hl.
  apply elem_of_union in Hl as [->%elem_of_singleton| ->%elem_of_singleton];
    vm_compute in Ho; by injection Ho as <-.
Qed.

Lemma init_rejects_invalid_arguments_witness :
  invalid_args (heap sample_state)
    (VInt 21) (VRef 1%positive) (VRef 2%positive) (VRef 3%positive) ∧
  __init__ (sample_ext 1) is_list_empty_model 10
    (VInt 21) (VRef 1%positive) (VRef 2%positive) (VRef 3%positive) sample_state
  = Raise ValueError sample_state.
Proof.
  assert (invalid_args (heap sample_state)
            (VInt 21) (VRef 1%positive) (VRef 2%positive) (VRef 3%positive)) as H.
  { left. simpl. discriminate. }
  split; [exact H|].
  exact (init_rejects_invalid_arguments (sample_ext 1) is_list_empty_model 10
           _ _ _ _ sample_state H).
Defined.

Lemma sample_args_valid :
  valid_args (heap sample_state)
    (VStr "21") (VRef 1%positive) (VRef 2%positive) (VRef 3%positive).
Proof.
  split; [reflexivity|]. split; [|split].
  - eexists _, _. split; [reflexivity|]. split; vm_compute; reflexivity.
  - eexists _, _. split; [reflexivity|]. split; [vm_compute; reflexivity|].
    intros H. vm_compute in H. discriminate H.
  - eexists _, _. split; [reflexivity|]. split; [vm_compute; reflexivity|].
    intros H. vm_compute in H. discriminate H.
Qed.

Lemma extract_shorelines_post_filters_witness :
  sample_extraction
    = Ok (returned sample_extraction VNone) (final_state sample_extraction) ∧
  ∃ t detection_args raw h1 dedup h2,
    let e1 := Call SDS_shoreline_extract_shorelines detection_args (inr raw) in
    let e2 := Call SDS_tools_remove_duplicates [raw] (inr dedup) in
    let e3 := Call SDS_tools_remove_inaccurate_georef [dedup; VInt 10]
                (inr (returned sample_extraction VNone)) in
    sample_ext 1 (t ++ [e1]) SDS_tools_remove_duplicates [raw] h1
      = inr (dedup, h2) ∧
    sample_ext 1 (t ++ [e1; e2]) SDS_tools_remove_inaccurate_georef
      [dedup; VInt 10] h2
      = inr (returned sample_extraction VNone, heap (final_state sample_extraction)) ∧
    trace (final_state sample_extraction) = t ++ [e1; e2; e3].
Proof.
  assert (sample_extraction
          = Ok (returned sample_extraction VNone) (final_state sample_extraction))
    as H by (vm_compute; reflexivity).
  split; [exact H|].
  exact (extract_shorelines_post_filters (sample_ext 1) 10 _ _ _ _ _ _ H).
Defined.

Lemma create_shoreline_settings_patches_deep_copy_witness :
  region sample_region ∅ (heap sample_state) ∧
  containers sample_region (heap sample_state) ∧
  3%positive ∈ sample_region ∧
  heap sample_state !! 3%positive = Some (ODict sample_settings) ∧
  (∀ u s',
     create_shoreline_settings 10 (VRef 3%positive) (VRef 2%positive) VNone
       sample_state = Ok u s' →
     ∃ l' d' m,
       self_shoreline_settings (self s') = VRef l' ∧
       heap s' !! l' = Some (ODict d') ∧
       d' !! "reference_shoreline" = Some VNone ∧
       d' !! "inputs" = Some (VRef 2%positive) ∧
       d' !! "adjust_detection" = Some (VBool false) ∧
       d' !! "check_detection" = Some (VBool false) ∧
       (∀ k, k ∉ patched_keys → d' !! k = rename m <$> sample_settings !! k) ∧
       deep_copy_of (heap sample_state) (heap s') m 3%positive l') ∧
  (size sample_region ≤ 10 →
   ∃ s', create_shoreline_settings 10 (VRef 3%positive) (VRef 2%positive) VNone
           sample_state = Ok tt s').
Proof.
  assert (3%positive ∈ sample_region) as H1
    by (apply elem_of_union; left; by apply elem_of_singleton).
  assert (heap sample_state !! 3%positive = Some (ODict sample_settings)) as H2
    by (vm_compute; reflexivity).
  split; [exact sample_region_closed|].
  split; [exact sample_region_containers|]. split; [exact H1|].
  split; [exact H2|].
  exact (create_shoreline_settings_patches_deep_copy 10 sample_state
           sample_region 3%positive sample_settings (VRef 2%positive) VNone
           sample_region_closed sample_region_containers H1 H2).
Defined.

Lemma create_shoreline_settings_leaves_objects_witness :
  heap sample_state !! 3%positive = Some (ODict sample_settings) ∧
  heap (final_state (create_shoreline_settings 10
                       (VRef 3%positive) (VRef 2%positive) VNone sample_state))
    !! 3%positive = Some (ODict sample_settings).
Proof.
  assert (heap sample_state !! 3%positive = Some (ODict sample_settings)) as H
    by (vm_compute; reflexivity).
  split; [exact H|].
  exact (create_shoreline_settings_leaves_objects 10 _ _ _ sample_state _ _ H).
Defined.

Lemma create_geodataframe_crs_witness :
  to_crs_contract (sample_ext 1) ∧
  sample_run 1 = Ok tt (final_state (sample_run 1)) ∧
  ∃ l g t src src_gdf t0 extracted h_read h0 lset dset epsg,
    self_gdf (self (final_state (sample_run 1))) = VRef l ∧
    heap (final_state (sample_run 1)) !! l = Some (OGdf g) ∧
    gdf_crs g = VStr "EPSG:4326" ∧
    trace (final_state (sample_run 1))
      = t ++ [Call GeoDataFrame_to_crs [VRef src; VStr "EPSG:4326"]
                (inr (VRef l))] ∧
    sample_ext 1 t GeoDataFrame_to_crs [VRef src; VStr "EPSG:4326"]
      (<[src := OGdf (mkGeoDataFrame epsg (gdf_len src_gdf)
                        (gdf_columns src_gdf))]> h0)
      = inr (VRef l, heap (final_state (sample_run 1))) ∧
    sample_ext 1 t0 SDS_tools_output_to_gdf [extracted; VStr "lines"] h_read
      = inr (VRef src, h0) ∧
    h0 !! src = Some (OGdf src_gdf) ∧
    self_shoreline_settings (self (final_state (sample_run 1))) = VRef lset ∧
    h_read !! lset = Some (ODict dset) ∧
    dset !! "output_epsg" = Some epsg.
Proof.
  assert (sample_run 1 = Ok tt (final_state (sample_run 1))) as H
    by (vm_compute; reflexivity).
  split; [exact (sample_ext_to_crs 1)|]. split; [exact H|].
  exact (proj2 (create_geodataframe_crs (sample_ext 1) is_list_empty_model 10
                  (sample_ext_to_crs 1))
           _ _ _ _ _ _ H).
Defined.

Lemma extract_shorelines_chains_four_calls_witness :
  sample_extraction
    = Ok (returned sample_extraction VNone) (final_state sample_extraction) ∧
  ∃ t inputs metadata ss raw dedup,
    trace (final_state sample_extraction) = trace sample_state ++ t ∧
    coastsat_calls t =
      [Call SDS_download_get_metadata [inputs] (inr metadata);
       Call SDS_shoreline_extract_shorelines [metadata; ss] (inr raw);
       Call SDS_tools_remove_duplicates [raw] (inr dedup);
       Call SDS_tools_remove_inaccurate_georef [dedup; VInt 10]
         (inr (returned sample_extraction VNone))].
Proof.
  assert (sample_extraction
          = Ok (returned sample_extraction VNone) (final_state sample_extraction))
    as H by (vm_compute; reflexivity).
  split; [exact H|].
  exact (extract_shorelines_chains_four_calls (sample_ext 1) 10 _ _ _ _ _ _ H).
Defined.

Lemma detection_stays_disabled_witness :
  keeps_detection_flags (sample_ext_writing 1) ∧
  sample_run_writing = Ok tt (final_state sample_run_writing) ∧
  detection_disabled (final_state sample_run_writing) ∧
  detection_disabled
    (final_state (run (sample_ext_writing 1) is_list_empty_model 10
                    Op_get_styled_layers (final_state sample_run_writing))).
Proof.
  assert (sample_run_writing = Ok tt (final_state sample_run_writing)) as H
    by (vm_compute; reflexivity).
  pose proof (detection_stays_disabled (sample_ext_writing 1) is_list_empty_model
                10 (sample_ext_writing_flags 1)) as [Hinit Hrun].
  split; [exact (sample_ext_writing_flags 1)|]. split; [exact H|].
  split; [exact (Hinit _ _ _ _ _ _ H)|].
  exact (Hrun Op_get_styled_layers _ I (Hinit _ _ _ _ _ _ H)).
Defined.

Lemma save_to_file_writes_and_nothing_reads_witness :
  self_gdf (self sample_instance) = VRef 23%positive ∧
  heap sample_instance !! 23%positive = Some (OGdf sample_gdf) ∧
  sample_ext 1 (trace sample_instance) GeoDataFrame_to_file
    [VRef 23%positive; VStr sample_savepath; VStr "GeoJSON"; VStr "utf-8"]
    (heap sample_instance) = inr (VNone, heap sample_instance) ∧
  save_to_file (sample_ext 1) (VStr "ID21") (VStr "/data") sample_instance =
  Ok tt (mkState (heap sample_instance) (self sample_instance)
           (trace sample_instance ++
            [Call GeoDataFrame_to_file
               [VRef 23%positive; VStr sample_savepath; VStr "GeoJSON";
                VStr "utf-8"] (inr VNone)])
           (<[sample_savepath := mkFile "GeoJSON" "utf-8" sample_gdf]>
              (files sample_instance))).
Proof.
  assert (self_gdf (self sample_instance) = VRef 23%positive) as H1
    by (vm_compute; reflexivity).
  assert (heap sample_instance !! 23%positive = Some (OGdf sample_gdf)) as H2
    by (vm_compute; reflexivity).
  assert (sample_ext 1 (trace sample_instance) GeoDataFrame_to_file
            [VRef 23%positive; VStr sample_savepath; VStr "GeoJSON"; VStr "utf-8"]
            (heap sample_instance) = inr (VNone, heap sample_instance)) as H3
    by reflexivity.
  split; [exact H1|]. split; [exact H2|]. split; [exact H3|].
  exact (proj1 (save_to_file_writes_and_nothing_reads (sample_ext 1)
                  is_list_empty_model 10)
           "ID21" "/data" sample_instance _ _ _ _ H1 H2 H3).
Defined.

Lemma init_raises_without_shorelines_witness :
  is_list_empty_contract is_list_empty_model ∧
  valid_args (heap sample_state)
    (VStr "21") (VRef 1%positive) (VRef 2%positive) (VRef 3%positive) ∧
  sample_run 0
  = Raise (No_Extracted_Shoreline (VStr "21"))
      (final_state (set_extracted_shorelines (returned sample_empty_extraction VNone)
                      (final_state sample_empty_extraction))) ∧
  ∃ t, trace (final_state sample_empty_extraction) = trace sample_state ++ t ∧
       Forall (fun e => ev_fn e ≠ SDS_tools_output_to_gdf) t.
Proof.
  split; [exact is_list_empty_model_contract|]. split; [exact sample_args_valid|].
  pose proof (proj1 (init_raises_without_shorelines (sample_ext 0)
                       is_list_empty_model 10 _ _ _ _ sample_state
                       is_list_empty_model_contract sample_args_valid)) as H.
  assert (sample_empty_extraction
          = Ok (VRef 21%positive) (final_state sample_empty_extraction)) as H1
    by (vm_compute; reflexivity).
  assert (heap (final_state sample_empty_extraction) !! 21%positive
          = Some (ODict (<["shorelines" := VRef 17%positive]>
                         (<["dates" := VRef 18%positive]> ∅)))) as H2
    by (vm_compute; reflexivity).
  assert ((<["shorelines" := VRef 17%positive]>
           (<["dates" := VRef 18%positive]> (∅ : gmap string value)))
            !! "shorelines" = Some (VRef 17%positive)) as H3
    by (vm_compute; reflexivity).
  assert (heap (final_state sample_empty_extraction) !! 17%positive
          = Some (OList [])) as H4
    by (vm_compute; reflexivity).
  assert (returned sample_empty_extraction VNone = VRef 21%positive) as ->
    by (vm_compute; reflexivity).
  exact (H 21%positive (final_state sample_empty_extraction) _ 17%positive
           H1 H2 H3 H4).
Defined.

Lemma get_layer_names_lists_rows_witness :
  self_gdf (self sample_instance) = VRef 23%positive ∧
  heap sample_instance !! 23%positive = Some (OGdf sample_gdf) ∧
  self_roi_id (self sample_instance) = VStr "21" ∧
  gdf_columns sample_gdf !! "date" = Some (VStr <$> [sample_date]) ∧
  length [sample_date] = gdf_len sample_gdf ∧
  ∃ l' names,
    get_layer_names sample_instance
      = Ok (VRef l') (set_heap (<[l' := OList names]> (heap sample_instance))
                        sample_instance) ∧
    (l' ∉ dom (heap sample_instance)) ∧ length names = gdf_len sample_gdf ∧
    ∀ i, names !! i = (fun d => VStr (layer_name "21" d)) <$> [sample_date] !! i.
Proof.
  assert (self_gdf (self sample_instance) = VRef 23%positive) as H1
    by (vm_compute; reflexivity).
  assert (heap sample_instance !! 23%positive = Some (OGdf sample_gdf)) as H2
    by (vm_compute; reflexivity).
  assert (self_roi_id (self sample_instance) = VStr "21") as H3
    by (vm_compute; reflexivity).
  assert (gdf_columns sample_gdf !! "date" = Some (VStr <$> [sample_date])) as H4
    by (vm_compute; reflexivity).
  assert (length [sample_date] = gdf_len sample_gdf) as H5 by reflexivity.
  split; [exact H1|]. split; [exact H2|]. split; [exact H3|].
  split; [exact H4|]. split; [exact H5|].
  exact (get_layer_names_lists_rows sample_instance _ _ _ _ H1 H2 H3 H4 H5).
Defined.


(** * Further properties *)

(** ** [get_reference_shoreline] and [extract_shorelines] *)

Lemma py_len_ok_inv ext v s n s' :
  py_len ext v s = Ok n s' →
  (s' = s ∧ ∃ k, n = VInt k) ∨ ext_call ext builtin_len [v] s = Ok n s'.
Proof.
  unfold py_len. intros Hrun. repeat case_match; simplify_eq; eauto.
Qed.

Lemma get_reference_shoreline_ok_inv ext shoreline_gdf output_crs s v s' :
  get_reference_shoreline ext shoreline_gdf output_crs s = Ok v s' →
  ∃ reprojected compatible stacked n zeros lens,
    type_of (heap s) shoreline_gdf = Some TGeoDataFrame ∧
    (lens = [] ∨ lens = [Call builtin_len [stacked] (inr n)]) ∧
    trace s' =
      trace s ++
      [Call GeoDataFrame_to_crs [shoreline_gdf; output_crs] (inr reprojected);
       Call common_make_coastsat_compatible [reprojected] (inr compatible);
       Call np_vstack [compatible] (inr stacked)] ++
      lens ++
      [Call np_zeros [n] (inr zeros);
       Call np_insert [stacked; VInt 2; zeros; VInt 1] (inr v)] ∧
    self s' = self s ∧ files s' = files s.
Proof.
  unfold get_reference_shoreline. intros Hrun.
  apply bind_ok_inv in Hrun as (g1 & s1 & Hcrs & Hrun).
  assert (type_of (heap s) shoreline_gdf = Some TGeoDataFrame) as Htype.
  { unfold gdf_method, bind, isinstance in Hcrs.
    case_bool_decide; [done|]. by simpl in Hcrs. }
  apply gdf_method_ok_inv in Hcrs as (_ & Hs1 & Hf1 & Ht1).
  apply bind_ok_inv in Hrun as (c1 & s2 & (_ & Hs2 & Hf2 & Ht2)%ext_call_ok_inv & Hrun).
  apply bind_ok_inv in Hrun as (st & s3 & (_ & Hs3 & Hf3 & Ht3)%ext_call_ok_inv & Hrun).
  apply bind_ok_inv in Hrun as (n & s4 & Hlen & Hrun).
  apply bind_ok_inv in Hrun as (z & s5 & (_ & Hs5 & Hf5 & Ht5)%ext_call_ok_inv & Hrun).
  apply bind_ok_inv in Hrun as (r & s6 & (_ & Hs6 & Hf6 & Ht6)%ext_call_ok_inv & Hrun).
  unfold ret in Hrun. simplify_eq.
  apply py_len_ok_inv in Hlen as [[-> _]|(_ & Hs4 & Hf4 & Ht4)%ext_call_ok_inv].
  - exists g1, c1, st, n, z, []. split; [done|]. split; [by left|].
    split; [|split; congruence].
    rewrite Ht6, Ht5, Ht3, Ht2, Ht1. by rewrite <- !app_assoc.
  - exists g1, c1, st, n, z, [Call builtin_len [st] (inr n)].
    split; [done|]. split; [by right|]. split; [|split; congruence].
    rewrite Ht6, Ht5, Ht4, Ht3, Ht2, Ht1. by rewrite <- !app_assoc.
Qed.

(** X1. A run of [get_reference_shoreline] that returns has made these
    calls, in this order: [to_crs] on the frame with the output CRS,
    [make_coastsat_compatible] on the reprojected frame, [np.vstack] on its
    result, [len] of the stacked array (recorded as a call when the array is
    a foreign object such as an ndarray), [np.zeros] of that length and
    [np.insert] of the zeros into the stacked array at column index 2 along
    axis 1; it returns what [np.insert] returned and assigns no field of the
    instance. *)
Theorem get_reference_shoreline_chain ext shoreline_gdf output_crs s v s' :
  get_reference_shoreline ext shoreline_gdf output_crs s = Ok v s' →
  ∃ reprojected compatible stacked n zeros lens,
    (lens = [] ∨ lens = [Call builtin_len [stacked] (inr n)]) ∧
    trace s' =
      trace s ++
      [Call GeoDataFrame_to_crs [shoreline_gdf; output_crs] (inr reprojected);
       Call common_make_coastsat_compatible [reprojected] (inr compatible);
       Call np_vstack [compatible] (inr stacked)] ++
      lens ++
      [Call np_zeros [n] (inr zeros);
       Call np_insert [stacked; VInt 2; zeros; VInt 1] (inr v)] ∧
    self s' = self s ∧ files s' = files s.
Proof.
  intros Hrun. apply get_reference_shoreline_ok_inv in Hrun
    as (reprojected & compatible & stacked & n & zeros & lens & _ & Hrun).
  by exists reprojected, compatible, stacked, n, zeros, lens.
Qed.

(** What a call of [create_shoreline_settings] that returns has done. *)
Lemma create_shoreline_settings_ok_inv recursion_limit a b c s u s' :
  create_shoreline_settings recursion_limit a b c s = Ok u s' →
  ∃ l d,
    self_shoreline_settings (self s') = VRef l ∧
    heap s' !! l = Some (ODict d) ∧
    d !! "reference_shoreline" = Some c ∧ d !! "inputs" = Some b ∧
    d !! "adjust_detection" = Some (VBool false) ∧
    d !! "check_detection" = Some (VBool false) ∧
    trace s' = trace s ∧ files s' = files s ∧
    self_gdf (self s') = self_gdf (self s) ∧
    self_roi_id (self s') = self_roi_id (self s) ∧
    self_extracted_shorelines (self s') = self_extracted_shorelines (self s).
Proof.
  intros Hrun. unfold create_shoreline_settings in Hrun.
  apply bind_ok_inv in Hrun as (v & s1 & Hcp & Hrun).
  assert (trace s1 = trace s ∧ files s1 = files s ∧ self s1 = self s)
    as (Ht & Hf & Hs).
  { unfold copy_deepcopy in Hcp. by repeat case_match; simplify_eq. }
  apply bind_ok_inv in Hrun as (? & s2 & (l & d & -> & Hl & ->)%setitem_ok_inv & Hrun).
  apply bind_ok_inv in Hrun as (? & s3 & (l3 & d3 & Heq3 & Hl3 & ->)%setitem_ok_inv & Hrun).
  apply bind_ok_inv in Hrun as (? & s4 & (l4 & d4 & Heq4 & Hl4 & ->)%setitem_ok_inv & Hrun).
  apply bind_ok_inv in Hrun as (? & s5 & (l5 & d5 & Heq5 & Hl5 & ->)%setitem_ok_inv & Hrun).
  simplify_eq. simpl in *.
  rewrite lookup_insert_eq in Hl3. rewrite lookup_insert_eq in Hl4.
  rewrite lookup_insert_eq in Hl5. simplify_eq.
  unfold set_shoreline_settings in Hrun. simplify_eq.
  eexists _, _. simpl. split; [reflexivity|]. split; [apply lookup_insert_eq|].
  rewrite Hs. by simplify_map_eq.
Qed.

(** X2. With collaborators that leave existing objects alone, whenever
    [extract_shorelines] returns, the detection
    [SDS_shoreline.extract_shorelines] was called right after
    [SDS_download.get_metadata], which was called on [roi_settings] itself;
    the settings handed to the detection are the dictionary the method left
    in [self.shoreline_settings], and when the detection was called this
    dictionary had ['adjust_detection'] and ['check_detection'] [False],
    [roi_settings] under ['inputs'], and under ['reference_shoreline'] the
    array [np.insert] had returned.  [settings] is a dictionary, as the
    constructor requires. *)
Theorem detection_runs_unattended ext recursion_limit
    shoreline_gdf roi_settings settings s v s' :
  ext_frame ext → type_of (heap s) settings = Some TDict →
  extract_shorelines ext recursion_limit shoreline_gdf roi_settings settings s
    = Ok v s' →
  ∃ t insert_args reference metadata lset dset raw h h',
    ext (t ++ [Call np_insert insert_args (inr reference);
               Call SDS_download_get_metadata [roi_settings] (inr metadata)])
      SDS_shoreline_extract_shorelines [metadata; VRef lset] h = inr (raw, h') ∧
    self_shoreline_settings (self s') = VRef lset ∧
    h !! lset = Some (ODict dset) ∧
    dset !! "adjust_detection" = Some (VBool false) ∧
    dset !! "check_detection" = Some (VBool false) ∧
    dset !! "inputs" = Some roi_settings ∧
    dset !! "reference_shoreline" = Some reference.
Proof.
  intros Hframe _. unfold extract_shorelines. intros Hrun.
  apply bind_ok_inv in Hrun as (epsg & s1 & [-> _]%getitem_ok_inv & Hrun).
  apply bind_ok_inv in Hrun as (ref & s2 & Href & Hrun).
  apply get_reference_shoreline_ok_inv in Href
    as (g1 & c1 & st & n & z & lens & _ & _ & Ht2 & _ & _).
  apply bind_ok_inv in Hrun as (? & s3 & Hcreate & Hrun).
  apply create_shoreline_settings_ok_inv in Hcreate
    as (lset & dset & Hfield & Hlset & Hdref & Hdin & Hadj & Hchk & Ht3 & _).
  apply bind_ok_inv in Hrun as (this & ? & [= <- <-] & Hrun).
  rewrite Hfield in Hrun.
  apply bind_ok_inv in Hrun
    as (inputs & ? & [-> (l0 & d0 & Hl0 & Hd0 & Hin0)]%getitem_ok_inv & Hrun).
  simplify_eq.
  apply bind_ok_inv in Hrun as (metadata & s4 & (He1 & Hs1 & _ & Ht4)%ext_call_ok_inv & Hrun).
  apply bind_ok_inv in Hrun as (this' & ? & [= <- <-] & Hrun).
  apply bind_ok_inv in Hrun as (raw & s5 & (He2 & Hs5 & _ & Ht5)%ext_call_ok_inv & Hrun).
  apply bind_ok_inv in Hrun as (dedup & s6 & (He3 & Hs6 & _ & Ht6)%ext_call_ok_inv & Hrun).
  apply bind_ok_inv in Hrun as (last & s7 & (He4 & Hs7 & _ & Ht7)%ext_call_ok_inv & Hrun).
  unfold ret in Hrun. simplify_eq.
  rewrite Hs1, Hfield in He2. rewrite Ht4, Ht3, Ht2 in He2.
  eexists (trace s ++ [_; _; _] ++ lens ++ [_]), _, ref, metadata, _, _, raw,
    (heap s4), (heap s5).
  split.
  { rewrite <- He2. f_equal.
    repeat (rewrite <- ?app_assoc; simpl). reflexivity. }
  split; [congruence|]. split; [eapply Hframe; [exact He1|eassumption]|]. done.
Qed.

(** X3. However [extract_shorelines] ends, it has assigned no field of the
    instance but [shoreline_settings]: [self.gdf], [self.roi_id] and
    [self.extracted_shorelines] are what they were (the method returns the
    extracted shorelines, it does not store them), and no file has changed. *)
Theorem extract_shorelines_assigns_settings_only ext recursion_limit
    shoreline_gdf roi_settings settings s :
  let s' := final_state (extract_shorelines ext recursion_limit
                           shoreline_gdf roi_settings settings s) in
  self_gdf (self s') = self_gdf (self s) ∧
  self_roi_id (self s') = self_roi_id (self s) ∧
  self_extracted_shorelines (self s') = self_extracted_shorelines (self s) ∧
  files s' = files s.
Proof.
  assert (keeps (fun s => (self_gdf (self s), self_roi_id (self s),
                           self_extracted_shorelines (self s), files s))
            (extract_shorelines ext recursion_limit
               shoreline_gdf roi_settings settings)) as Hkeeps.
  { unfold extract_shorelines, get_reference_shoreline,
      create_shoreline_settings, gdf_method.
    repeat (apply keeps_bind; [|intros ?]);
      try (intros s0;
           unfold getitem, isinstance, ext_call, py_len, ext_call, copy_deepcopy,
             setitem, set_shoreline_settings, get_self, ret, raise;
           by repeat case_match). }
  specialize (Hkeeps s). simpl in *. by simplify_eq.
Qed.

(** ** The constructor *)

Lemma instance_eq (i : instance) g r e t :
  self_gdf i = g → self_roi_id i = r → self_extracted_shorelines i = e →
  self_shoreline_settings i = t → i = mkInstance g r e t.
Proof. destruct i; simpl; congruence. Qed.

(** The calls and assignments of a run of [extract_shorelines] that
    returns. *)
Lemma extract_shorelines_ok_inv ext recursion_limit
    shoreline_gdf roi_settings settings s v s' :
  extract_shorelines ext recursion_limit shoreline_gdf roi_settings settings s
    = Ok v s' →
  ∃ pre metadata lset raw dedup,
    Forall (fun e => is_coastsat (ev_fn e) = false) pre ∧
    trace s' =
      trace s ++ pre ++
      [Call SDS_download_get_metadata [roi_settings] (inr metadata);
       Call SDS_shoreline_extract_shorelines [metadata; VRef lset] (inr raw);
       Call SDS_tools_remove_duplicates [raw] (inr dedup);
       Call SDS_tools_remove_inaccurate_georef [dedup; VInt 10] (inr v)] ∧
    self s' = mkInstance (self_gdf (self s)) (self_roi_id (self s))
                (self_extracted_shorelines (self s)) (VRef lset) ∧
    files s' = files s.
Proof.
  unfold extract_shorelines. intros Hrun.
  apply bind_ok_inv in Hrun as (epsg & s1 & [-> _]%getitem_ok_inv & Hrun).
  apply bind_ok_inv in Hrun as (ref & s2 & Href & Hrun).
  destruct (emits_get_reference_shoreline ext shoreline_gdf epsg s)
    as (pre & Hpre & Hnone).
  rewrite Href in Hpre. simpl in Hpre.
  apply get_reference_shoreline_ok_inv in Href
    as (g1 & c1 & st & n & z & lens & _ & _ & _ & Hs2 & Hf2).
  apply bind_ok_inv in Hrun as (? & s3 & Hcreate & Hrun).
  apply create_shoreline_settings_ok_inv in Hcreate
    as (lset & dset & Hfield & Hlset & Hdref & Hdin & Hadj & Hchk & Ht3 & Hf3 &
        Hg3 & Hr3 & He3).
  apply bind_ok_inv in Hrun as (this & ? & [= <- <-] & Hrun).
  rewrite Hfield in Hrun.
  apply bind_ok_inv in Hrun
    as (inputs & ? & [-> (l0 & d0 & Hl0 & Hd0 & Hin0)]%getitem_ok_inv & Hrun).
  simplify_eq.
  apply bind_ok_inv in Hrun as (metadata & s4 & (_ & Hs4 & Hf4 & Ht4)%ext_call_ok_inv & Hrun).
  apply bind_ok_inv in Hrun as (this' & ? & [= <- <-] & Hrun).
  apply bind_ok_inv in Hrun as (raw & s5 & (_ & Hs5 & Hf5 & Ht5)%ext_call_ok_inv & Hrun).
  apply bind_ok_inv in Hrun as (dedup & s6 & (_ & Hs6 & Hf6 & Ht6)%ext_call_ok_inv & Hrun).
  apply bind_ok_inv in Hrun as (last & s7 & (_ & Hs7 & Hf7 & Ht7)%ext_call_ok_inv & Hrun).
  unfold ret in Hrun. simplify_eq.
  exists pre, metadata, l0, raw, dedup. split; [done|]. split; [|split].
  - rewrite Ht7, Ht6, Ht5, Ht4, Ht3, Hpre, Hs4, Hfield.
    by repeat (rewrite <- ?app_assoc; simpl).
  - rewrite Hs7, Hs6, Hs5, Hs4. apply instance_eq; congruence.
  - congruence.
Qed.

Lemma create_geodataframe_reprojected_inv ext input_crs crs s v s' :
  crs ≠ VNone →
  create_geodataframe ext input_crs crs s = Ok v s' →
  ∃ src,
    trace s' =
      trace s ++
      [Call SDS_tools_output_to_gdf
         [self_extracted_shorelines (self s); VStr "lines"] (inr (VRef src));
       Call GeoDataFrame_to_crs [VRef src; crs] (inr v)] ∧
    self s' = self s ∧ files s' = files s.
Proof.
  unfold create_geodataframe. intros Hcrs Hrun.
  apply bind_ok_inv in Hrun as (this & ? & [= <- <-] & Hrun).
  apply bind_ok_inv in Hrun as (gdf0 & s1 & (_ & Hs1 & Hf1 & Ht1)%ext_call_ok_inv & Hrun).
  apply bind_ok_inv in Hrun as (? & s2 & (src & g & -> & Hsrc & ->)%set_crs_ok_inv & Hrun).
  assert (gdf_method ext GeoDataFrame_to_crs (VRef src) [crs]
            (set_heap (<[src := OGdf (mkGeoDataFrame input_crs (gdf_len g)
                                        (gdf_columns g))]> (heap s1)) s1)
          = Ok v s') as Hcall by (by destruct crs).
  apply gdf_method_ok_inv in Hcall as (_ & Hs2 & Hf2 & Ht2). simpl in *.
  exists src. split; [|split; congruence].
  rewrite Ht2, Ht1. by rewrite <- app_assoc.
Qed.

(** X4. A construction that succeeds has made these calls after the ones
    that prepare the reference shoreline (none of which is into coastsat):
    [get_metadata] on [roi_settings], the detection on the metadata and the
    settings of the instance, [remove_duplicates], [remove_inaccurate_georef]
    with threshold 10, [output_to_gdf] in mode ['lines'] on the filtered
    dictionary, and [to_crs] to ['EPSG:4326'] on the frame so built.  It
    leaves the instance with [roi_id] as given, the filtered dictionary in
    [extracted_shorelines], the reprojected frame in [gdf], and it writes no
    file. *)
Theorem construction_calls_and_fields ext is_list_empty recursion_limit
    roi_id shoreline roi_settings settings s s' :
  __init__ ext is_list_empty recursion_limit
    roi_id shoreline roi_settings settings s = Ok tt s' →
  ∃ pre metadata lset raw dedup extracted src gdf,
    Forall (fun e => is_coastsat (ev_fn e) = false) pre ∧
    trace s' =
      trace s ++ pre ++
      [Call SDS_download_get_metadata [roi_settings] (inr metadata);
       Call SDS_shoreline_extract_shorelines [metadata; VRef lset] (inr raw);
       Call SDS_tools_remove_duplicates [raw] (inr dedup);
       Call SDS_tools_remove_inaccurate_georef [dedup; VInt 10] (inr extracted);
       Call SDS_tools_output_to_gdf [extracted; VStr "lines"] (inr (VRef src));
       Call GeoDataFrame_to_crs [VRef src; VStr "EPSG:4326"] (inr gdf)] ∧
    self s' = mkInstance gdf roi_id extracted (VRef lset) ∧
    files s' = files s.
Proof.
  intros Hrun.
  apply init_ok_inv in Hrun as (_ & extracted & s1 & Hextract & Hfin).
  apply extract_shorelines_ok_inv in Hextract
    as (pre & metadata & lset & raw & dedup & Hpre & Ht1 & Hs1 & Hf1).
  apply init_finish_ok_inv in Hfin
    as (le & d & sl & lset' & dset & epsg & gdf & s2 & -> & _ & _ & _ &
        _ & _ & _ & Hcreate & ->).
  apply create_geodataframe_reprojected_inv in Hcreate
    as (src & Ht2 & Hs2 & Hf2); [|done].
  exists pre, metadata, lset, raw, dedup, (VRef le), src, gdf.
  split; [done|]. simpl in *. rewrite Hs2, Hf2, Ht2, Ht1, Hs1. simpl.
  split; [by repeat (rewrite <- ?app_assoc; simpl)|]. done.
Qed.

(** X5. With arguments the constructor's checks accept but a [settings]
    without the key ['output_epsg'], the constructor raises
    [KeyError('output_epsg')] once the fields of the instance are initialised
    and before any collaborator is called. *)
Theorem init_needs_output_epsg ext is_list_empty recursion_limit
    roi_id shoreline roi_settings l d s :
  valid_args (heap s) roi_id shoreline roi_settings (VRef l) →
  heap s !! l = Some (ODict d) → d !! "output_epsg" = None →
  __init__ ext is_list_empty recursion_limit
    roi_id shoreline roi_settings (VRef l) s
  = Raise (KeyError "output_epsg") (final_state (fresh_instance roi_id s)) ∧
  trace (final_state (fresh_instance roi_id s)) = trace s.
Proof.
  intros Hvalid Hl Hd. split; [|done].
  rewrite init_valid by done. unfold bind at 1, extract_shorelines, bind at 1.
  assert (heap (final_state (fresh_instance roi_id s)) !! l = Some (ODict d)) as Hl'.
  { eapply untouched_lookup; [|exact Hl].
    unfold fresh_instance, bind, alloc. simpl. solve_untouched. }
  unfold getitem. by rewrite Hl', Hd.
Qed.

(** ** What the operations leave alone *)

Lemma stable_dicts_kept {A} (m : M A) : stable m → dicts_kept m.
Proof. intros Hm s l d Hl. by apply Hm. Qed.

Lemma dicts_kept_bind {A B} (m : M A) (k : A → M B) :
  dicts_kept m → (∀ a, dicts_kept (k a)) → dicts_kept (bind m k).
Proof.
  intros Hm Hk s l d Hl. rewrite final_state_bind. specialize (Hm s l d Hl).
  destruct (m s) as [a s1|e s1]; simpl in *; [|done]. by apply Hk.
Qed.

Section dicts.
Variable ext : list event -> extfn -> list value -> gmap loc object ->
               exn + (value * gmap loc object).
Variable is_list_empty : gmap loc object -> value -> exn + bool.
Variable recursion_limit : nat.
Hypothesis ext_untouched : ext_frame ext.

Lemma dicts_kept_create_shoreline_settings a b c :
  dicts_kept (create_shoreline_settings recursion_limit a b c).
Proof. intros s l d Hl. by apply create_shoreline_settings_untouched. Qed.

Lemma dicts_kept_extract_shorelines a b c :
  dicts_kept (extract_shorelines ext recursion_limit a b c).
Proof.
  unfold extract_shorelines.
  apply dicts_kept_bind; [apply stable_dicts_kept, stable_getitem|intros ?].
  apply dicts_kept_bind;
    [by apply stable_dicts_kept, stable_get_reference_shoreline|intros ?].
  apply dicts_kept_bind; [apply dicts_kept_create_shoreline_settings|intros _].
  apply stable_dicts_kept.
  repeat first [ apply stable_bind; [|intros ?] | apply stable_get_self
               | apply stable_getitem | by apply stable_ext_call
               | apply stable_ret ].
Qed.

Lemma dicts_kept_init a b c d :
  dicts_kept (__init__ ext is_list_empty recursion_limit a b c d).
Proof.
  assert (∀ v, dicts_kept (set_shoreline_settings v)) as Hset by (by intros v s l).
  unfold __init__.
  repeat first
    [ apply dicts_kept_extract_shorelines
    | apply Hset
    | apply stable_dicts_kept;
      first [ apply stable_isinstance | apply stable_gdf_empty
            | apply stable_eq_empty_dict | apply stable_raise
            | apply stable_alloc | apply stable_set_gdf | apply stable_set_roi_id
            | apply stable_set_extracted_shorelines | apply stable_get_self
            | apply stable_getitem | apply stable_call_is_list_empty
            | by apply stable_create_geodataframe ]
    | apply dicts_kept_bind; [|intros ?]
    | match goal with
      | |- dicts_kept (if ?b then _ else _) => destruct b
      end ].
Qed.

Lemma dicts_kept_run op :
  dicts_kept (run ext is_list_empty recursion_limit op).
Proof.
  destruct op; simpl.
  - apply dicts_kept_bind; [apply dicts_kept_init|intros _].
    apply stable_dicts_kept, stable_ret.
  - apply dicts_kept_extract_shorelines.
  - apply dicts_kept_bind; [apply dicts_kept_create_shoreline_settings|intros _].
    apply stable_dicts_kept, stable_ret.
  - by apply stable_dicts_kept, stable_create_geodataframe.
  - apply dicts_kept_bind;
      [by apply stable_dicts_kept, stable_save_to_file|intros _].
    apply stable_dicts_kept, stable_ret.
  - by apply stable_dicts_kept, stable_style_layer.
  - apply stable_dicts_kept, stable_get_layer_names.
  - by apply stable_dicts_kept, stable_get_styled_layers.
  - by apply stable_dicts_kept, stable_get_reference_shoreline.
Qed.

End dicts.

(** X6. With collaborators that leave existing objects alone, no operation
    of the module, the constructor included, changes a dictionary that exists
    when it is called, however the operation ends: the caller's [settings]
    and [roi_settings] are never written to. *)
Theorem no_operation_modifies_a_dictionary ext is_list_empty recursion_limit
    op s l d :
  ext_frame ext → heap s !! l = Some (ODict d) →
  heap (final_state (run ext is_list_empty recursion_limit op s)) !! l
  = Some (ODict d).
Proof. intros Hframe Hl. by apply dicts_kept_run. Qed.

(** ** Files *)

Lemma keeps_mapM {A B X} (f : state → X) (g : A → M B) xs :
  (∀ x, keeps f (g x)) → keeps f (mapM g xs).
Proof.
  intros Hg. induction xs as [|x xs IH]; [done|].
  apply keeps_bind; [apply Hg|]. intros y.
  apply keeps_bind; [apply IH|]. by intros ys.
Qed.

Lemma keeps_for_enumerate {X} (f : state → X) body xs :
  (∀ i x, keeps f (body i x)) → ∀ idx, keeps f (for_enumerate body idx xs).
Proof.
  intros Hb. induction xs as [|x xs IH]; intros idx; [done|].
  apply keeps_bind; [apply Hb|]. intros _. apply IH.
Qed.

Ltac keeps_files_prim :=
  intros ?;
  unfold getitem, setitem, isinstance, ext_call, py_len, ext_call, copy_deepcopy,
    set_shoreline_settings, set_gdf, set_roi_id, set_extracted_shorelines,
    get_self, ret, raise, alloc, gdf_empty, eq_empty_dict, set_crs, gdf_column,
    list_items, list_append, str_add, call_is_list_empty, as_str;
  by repeat case_match.

Ltac keeps_files_step :=
  first
    [ apply keeps_mapM; intros ?
    | apply keeps_for_enumerate; intros ? ?
    | match goal with
      | |- keeps _ (if ?b then _ else _) => destruct b
      | |- keeps _ (match ?v with VNone => _ | _ => _ end) => destruct v
      | |- keeps _ (match ?o with Some _ => _ | None => _ end) => destruct o
      end
    | apply keeps_bind; [|intros ?]
    | keeps_files_prim ].

Lemma emits_mapM {A B} P (g : A → M B) xs :
  (∀ x, emits P (g x)) → emits P (mapM g xs).
Proof.
  intros Hg. induction xs as [|x xs IH]; [apply silent_emits, silent_ret|].
  apply emits_bind; [apply Hg|]. intros y.
  apply emits_bind; [apply IH|]. intros ys. apply silent_emits, silent_ret.
Qed.

Lemma emits_for_enumerate P body xs :
  (∀ i x, emits P (body i x)) → ∀ idx, emits P (for_enumerate body idx xs).
Proof.
  intros Hb. induction xs as [|x xs IH]; intros idx;
    [apply silent_emits, silent_ret|].
  apply emits_bind; [apply Hb|]. intros _. apply IH.
Qed.

Ltac silent_prim :=
  intros ?;
  unfold getitem, setitem, isinstance, copy_deepcopy,
    set_shoreline_settings, set_gdf, set_roi_id, set_extracted_shorelines,
    get_self, ret, raise, alloc, gdf_empty, eq_empty_dict, set_crs, gdf_column,
    list_items, list_append, str_add, call_is_list_empty, as_str;
  by repeat case_match.

Ltac no_to_file_step :=
  first
    [ apply emits_mapM; intros ?
    | apply emits_for_enumerate; intros ? ?
    | match goal with
      | |- emits _ (if ?b then _ else _) => destruct b
      | |- emits _ (match ?v with VNone => _ | _ => _ end) => destruct v
      | |- emits _ (match ?o with Some _ => _ | None => _ end) => destruct o
      end
    | by apply emits_gdf_method
    | by apply emits_ext_call
    | by apply emits_py_len
    | apply emits_bind; [|intros ?]
    | apply silent_emits; silent_prim ].

Section files_kept.
Variable ext : list event -> extfn -> list value -> gmap loc object ->
               exn + (value * gmap loc object).
Variable is_list_empty : gmap loc object -> value -> exn + bool.
Variable recursion_limit : nat.

Lemma keeps_files_run op :
  ¬ is_save_to_file op →
  keeps files (run ext is_list_empty recursion_limit op).
Proof.
  destruct op; simpl; intros Hop; try done;
    unfold __init__, extract_shorelines, create_geodataframe, style_layer,
      get_styled_layers, get_layer_names, get_reference_shoreline,
      create_shoreline_settings, style_layer, list_index, gdf_method;
    repeat keeps_files_step.
Qed.

Lemma no_to_file_run op :
  ¬ is_save_to_file op →
  emits (fun e => ev_fn e ≠ GeoDataFrame_to_file)
    (run ext is_list_empty recursion_limit op).
Proof.
  destruct op; simpl; intros Hop; try done;
    unfold __init__, extract_shorelines, create_geodataframe, style_layer,
      get_styled_layers, get_layer_names, get_reference_shoreline,
      create_shoreline_settings, style_layer, list_index;
    repeat no_to_file_step.
Qed.

End files_kept.

(** X7. Only [save_to_file] writes a frame to a file: whatever any other
    operation of the module does, and however it ends, it has not called
    [GeoDataFrame.to_file] and the files written that way are what they
    were. *)
Theorem only_save_to_file_writes ext is_list_empty recursion_limit op s :
  ¬ is_save_to_file op →
  files (final_state (run ext is_list_empty recursion_limit op s)) = files s ∧
  ∃ t, trace (final_state (run ext is_list_empty recursion_limit op s))
       = trace s ++ t ∧
       Forall (fun e => ev_fn e ≠ GeoDataFrame_to_file) t.
Proof.
  intros Hop. split; [by apply keeps_files_run|by apply no_to_file_run].
Qed.

(** ** Failures of [get_layer_names] *)

Lemma name_of_date_outcome roi_id date_str s :
  name_of_date roi_id date_str s =
  match roi_id, date_str with
  | VStr r, VStr d => Ok (VStr (layer_name r d)) s
  | _, _ => Raise TypeError s
  end.
Proof. by destruct roi_id, date_str. Qed.

Lemma mapM_names_ok roi_id col s :
  (col = [] ∨ is_str roi_id) → Forall is_str col →
  ∃ names, mapM (name_of_date roi_id) col s = Ok names s.
Proof.
  intros Hroi Hcol. induction Hcol as [|d col Hd Hcol IH]; [by exists []|].
  destruct Hroi as [|Hroi]; [done|].
  destruct IH as [names IH]; [by right|].
  rewrite mapM_cons, name_of_date_outcome.
  destruct roi_id; try done. destruct d; try done. rewrite IH. eauto.
Qed.

Lemma mapM_names_raise roi_id col s :
  col ≠ [] → (¬ is_str roi_id ∨ ∃ d, d ∈ col ∧ ¬ is_str d) →
  mapM (name_of_date roi_id) col s = Raise TypeError s.
Proof.
  induction col as [|d col IH]; [done|]. intros _ Hbad.
  rewrite mapM_cons, name_of_date_outcome.
  destruct roi_id as [| | | |r|]; try done.
  destruct d as [| | | |x|]; try done.
  rewrite IH; [done| |].
    + intros ->. destruct Hbad as [[]|(d & Hd & Hnot)]; [done|].
      apply list_elem_of_singleton in Hd as ->. by apply Hnot.
    + right. destruct Hbad as [[]|(d & Hd & Hnot)]; [done|].
      apply elem_of_cons in Hd as [->|Hd]; [by destruct Hnot|eauto].
Qed.

Lemma get_layer_names_unfold s l g :
  self_gdf (self s) = VRef l → heap s !! l = Some (OGdf g) →
  get_layer_names s =
  match gdf_columns g !! "date" with
  | Some col =>
    match mapM (name_of_date (self_roi_id (self s))) col s with
    | Ok names s1 => alloc (OList names) s1
    | Raise e s1 => Raise e s1
    end
  | None => Raise (KeyError "date") s
  end.
Proof.
  intros Hgdf Hl. unfold get_layer_names, bind at 1, get_self. cbv beta iota.
  unfold bind at 1, gdf_column. rewrite Hgdf, Hl.
  destruct (gdf_columns g !! "date") as [col|]; [|done].
  unfold bind at 1. reflexivity.
Qed.

Lemma get_layer_names_raises_iff s l g e s' :
  self_gdf (self s) = VRef l → heap s !! l = Some (OGdf g) →
  get_layer_names s = Raise e s' ↔
  s' = s ∧
  ((e = KeyError "date" ∧ gdf_columns g !! "date" = None) ∨
   (e = TypeError ∧
    ∃ col, gdf_columns g !! "date" = Some col ∧ col ≠ [] ∧
           (¬ is_str (self_roi_id (self s)) ∨ ∃ d, d ∈ col ∧ ¬ is_str d))).
Proof.
  intros Hgdf Hl. rewrite (get_layer_names_unfold _ _ _ Hgdf Hl).
  destruct (gdf_columns g !! "date") as [col|] eqn:Hcol.
  - destruct (decide (col ≠ [] ∧
                      (¬ is_str (self_roi_id (self s)) ∨ ¬ Forall is_str col)))
      as [[Hne Hbad]|Hgood].
    + assert (¬ is_str (self_roi_id (self s)) ∨ ∃ d, d ∈ col ∧ ¬ is_str d)
        as Hbad'.
      { destruct Hbad as [?|Hbad]; [by left|right].
        by apply not_Forall_Exists, Exists_exists in Hbad; [|apply _]. }
      rewrite (mapM_names_raise _ _ _ Hne Hbad'). split.
      * intros [= <- <-]. split; [done|]. right. split; [done|]. by exists col.
      * intros (-> & [[_ [=]]|[-> _]]). done.
    + destruct (mapM_names_ok (self_roi_id (self s)) col s) as [names ->].
      * destruct (decide (col = [])); [by left|right].
        destruct (decide (is_str (self_roi_id (self s)))); [done|].
        destruct Hgood. by split; [|left].
      * destruct (decide (Forall is_str col)) as [|Hnot]; [done|].
        destruct Hgood. split; [|by right]. intros ->.
        apply Hnot. constructor.
      * split; [done|].
        intros (_ & [[_ [=]]|(_ & col' & [= <-] & Hne & Hbad)]).
        destruct Hgood. split; [done|].
        destruct Hbad as [?|(d & Hd & Hnot)]; [by left|right].
        intros Hall. apply Hnot. by eapply Forall_forall in Hall.
  - split.
    + intros [= <- <-]. split; [done|]. by left.
    + intros (-> & [[-> _]|(_ & col & [=] & _)]). done.
Qed.

(** X8. On an instance whose [gdf] is a GeoDataFrame, [get_layer_names]
    raises [KeyError('date')] when the frame has no ['date'] column.  When it
    has one and [roi_id] and the dates are values without identity ([None],
    booleans, numbers, strings), the method fails in one case and no other:
    with [TypeError], when the column has rows and [roi_id] or one of the
    dates is not a string.  Either failure changes nothing; a column without
    rows gives no [TypeError], whatever [roi_id] is. *)
Theorem get_layer_names_failures s l g :
  self_gdf (self s) = VRef l → heap s !! l = Some (OGdf g) →
  (gdf_columns g !! "date" = None →
   get_layer_names s = Raise (KeyError "date") s) ∧
  (∀ col, gdf_columns g !! "date" = Some col →
     Forall is_atom (self_roi_id (self s) :: col) →
     ∀ e s', get_layer_names s = Raise e s' ↔
       s' = s ∧ e = TypeError ∧ col ≠ [] ∧
       (¬ is_str (self_roi_id (self s)) ∨ ∃ d, d ∈ col ∧ ¬ is_str d)).
Proof.
  intros Hgdf Hl. split.
  - intros Hcol. apply (get_layer_names_raises_iff _ _ _ _ _ Hgdf Hl).
    split; [done|]. by left.
  - intros col Hcol _ e s'. rewrite (get_layer_names_raises_iff _ _ _ _ _ Hgdf Hl).
    split.
    + intros (-> & [[_ Hnone]|(-> & col' & Hcol' & Hne & Hbad)]); [congruence|].
      assert (col' = col) as -> by congruence. done.
    + intros (-> & -> & Hne & Hbad). split; [done|]. right.
      split; [done|]. by exists col.
Qed.

(** ** The calls of [create_geodataframe] *)

(** X10. However [create_geodataframe] ends, it has made one call or two and
    changed neither the instance nor the files.  The first call is
    [SDS_tools.output_to_gdf(self.extracted_shorelines, 'lines')].  A second
    call is made only when [output_crs] is not [None] and the first returned
    an object: it is [to_crs(output_crs)] on that very object. *)
Theorem create_geodataframe_call_discipline ext input_crs output_crs s :
  let s' := final_state (create_geodataframe ext input_crs output_crs s) in
  self s' = self s ∧ files s' = files s ∧
  ∃ r,
    let first := Call SDS_tools_output_to_gdf
                   [self_extracted_shorelines (self s); VStr "lines"] r in
    trace s' = trace s ++ [first] ∨
    ∃ src r', r = inr (VRef src) ∧ output_crs ≠ VNone ∧
      trace s' = trace s ++
        [first; Call GeoDataFrame_to_crs [VRef src; output_crs] r'].
Proof.
  unfold create_geodataframe, gdf_method, isinstance, bind, get_self, ext_call,
    set_crs, ret.
  cbv beta iota zeta.
  destruct (ext (trace s) _ _ (heap s)) as [e|[v h0]]; simpl.
  { split; [done|]. split; [done|]. exists (inl e). by left. }
  destruct v as [| | | | |src]; simpl;
    try (split; [done|]; split; [done|]; eexists; by left).
  destruct (h0 !! src) as [[d|xs|g|c p]|] eqn:Hsrc; simpl;
    try (split; [done|]; split; [done|]; eexists; by left).
  destruct (ext _ GeoDataFrame_crs_setter _ _) as [e|accepted]; simpl.
  { split; [done|]. split; [done|]. eexists; by left. }
  destruct (decide (output_crs = VNone)) as [->|Hne]; simpl.
  { split; [done|]. split; [done|]. eexists; by left. }
  destruct output_crs; try done; simpl;
    rewrite lookup_insert_eq; simpl;
    (destruct (ext _ GeoDataFrame_to_crs _ _) as [e|[v h1]]; simpl;
     (split; [done|]); (split; [done|]); eexists; right;
     [exists src, (inl e)|exists src, (inr v)];
     (split; [done|]); (split; [done|]); by rewrite <- app_assoc).
Qed.

(** ** [style_layer] and [get_styled_layers] *)

Lemma list_index_ok_inv v idx x s s' :
  list_index v idx s = Ok x s' → s' = s ∧ item (heap s) v idx x.
Proof.
  unfold list_index, list_items, bind, item, ret, raise. intros Hrun.
  repeat case_match; simplify_eq. eauto 10.
Qed.

Lemma list_items_ok_inv v xs s s' :
  list_items v s = Ok xs s' →
  s' = s ∧ ∃ l, v = VRef l ∧ heap s !! l = Some (OList xs).
Proof. unfold list_items. intros Hrun. repeat case_match; simplify_eq. eauto. Qed.

Lemma list_append_ok_inv v x s u s' :
  list_append v x s = Ok u s' →
  ∃ l xs, v = VRef l ∧ heap s !! l = Some (OList xs) ∧
          s' = set_heap (<[l := OList (xs ++ [x])]> (heap s)) s.
Proof. unfold list_append. intros Hrun. repeat case_match; simplify_eq. eauto. Qed.

Lemma alloc_ok_inv o v s s' :
  alloc o s = Ok v s' →
  ∃ l, v = VRef l ∧ (l ∉ dom (heap s)) ∧ s' = set_heap (<[l := o]> (heap s)) s.
Proof.
  unfold alloc. intros [= <- <-]. eexists. split; [done|].
  split; [apply is_fresh|done].
Qed.

Lemma mapM_names_ok_inv roi_id col : ∀ s names s',
  mapM (name_of_date roi_id) col s = Ok names s' →
  s' = s ∧ length names = length col ∧
  ∀ i x, col !! i = Some x →
    ∃ r d, roi_id = VStr r ∧ x = VStr d ∧
           names !! i = Some (VStr (layer_name r d)).
Proof.
  induction col as [|x col IH]; intros s names s'.
  - intros [= <- <-]. by split.
  - rewrite mapM_cons, name_of_date_outcome.
    destruct roi_id as [| | | |r|]; try done. destruct x as [| | | |d|]; try done.
    destruct (mapM _ col s) as [names' s1|] eqn:Hrest; [|done].
    intros [= <- <-]. apply IH in Hrest as (-> & Hlen & Hnames).
    split; [done|]. split; [simpl; by rewrite Hlen|].
    intros [|i] x Hx; simpl in *; [|by apply Hnames].
    simplify_eq. eauto.
Qed.

Lemma get_layer_names_ok_inv s v s' :
  get_layer_names s = Ok v s' →
  ∃ l g col ln names,
    self_gdf (self s) = VRef l ∧ heap s !! l = Some (OGdf g) ∧
    gdf_columns g !! "date" = Some col ∧
    v = VRef ln ∧ (ln ∉ dom (heap s)) ∧
    s' = set_heap (<[ln := OList names]> (heap s)) s ∧
    length names = length col ∧
    ∀ i x, col !! i = Some x →
      ∃ r d, self_roi_id (self s) = VStr r ∧ x = VStr d ∧
             names !! i = Some (VStr (layer_name r d)).
Proof.
  intros Hrun.
  assert (∃ l g, self_gdf (self s) = VRef l ∧ heap s !! l = Some (OGdf g))
    as (l & g & Hgdf & Hl).
  { revert Hrun. unfold get_layer_names, bind at 1, get_self. cbv beta iota.
    unfold bind at 1, gdf_column. intros Hrun.
    repeat case_match; simplify_eq; eauto. }
  rewrite (get_layer_names_unfold _ _ _ Hgdf Hl) in Hrun.
  destruct (gdf_columns g !! "date") as [col|] eqn:Hcol; [|done].
  destruct (mapM _ col s) as [names s1|] eqn:Hnames; [|done].
  apply mapM_names_ok_inv in Hnames as (-> & Hlen & Hnames).
  apply alloc_ok_inv in Hrun as (ln & -> & Hln & ->).
  exists l, g, col, ln, names. done.
Qed.

Section styled_layers.
Variable ext : list event -> extfn -> list value -> gmap loc object ->
               exn + (value * gmap loc object).
Hypothesis ext_untouched : ext_frame ext.

Lemma style_layer_ok_inv feature name color s layer s' :
  style_layer ext feature name color s = Ok layer s' →
  ∃ e, trace s' = trace s ++ [e] ∧ self s' = self s ∧
       styled (heap s') feature name color layer e ∧
       ∀ l o, heap s !! l = Some o → heap s' !! l = Some o.
Proof.
  unfold style_layer. intros Hrun.
  apply bind_ok_inv in Hrun as (empty & s0 & Hempty & Hrun).
  assert (s0 = s) as ->.
  { revert Hempty. unfold eq_empty_dict. intros ?.
    repeat case_match; by simplify_eq. }
  destruct empty; [done|].
  apply bind_ok_inv in Hrun as (? & s1 & (ls & -> & Hls & ->)%alloc_ok_inv & Hrun).
  apply bind_ok_inv in Hrun as (? & s2 & (lh & -> & Hlh & ->)%alloc_ok_inv & Hrun).
  apply ext_call_ok_inv in Hrun as (Hext & Hself & _ & Htrace). simpl in *.
  assert (ls ≠ lh) as Hne.
  { intros ->. apply Hlh. apply elem_of_dom. by rewrite lookup_insert_eq. }
  eexists. split; [exact Htrace|]. split; [done|]. split.
  - exists ls, lh. split; [done|]. split; [done|]. split.
    + eapply ext_untouched; [exact Hext|].
      rewrite lookup_insert_ne by done. apply lookup_insert_eq.
    + eapply ext_untouched; [exact Hext|]. apply lookup_insert_eq.
  - intros l o Hl. eapply ext_untouched; [exact Hext|].
    rewrite !lookup_insert_ne; [done| |].
    + intros ->. apply Hls. by apply elem_of_dom.
    + intros ->. apply Hlh. apply elem_of_dom.
      rewrite lookup_insert_ne; [by eexists|].
      intros ->. apply Hls. by apply elem_of_dom.
Qed.

Lemma item_not_layers h ll acc v x :
  h !! ll = Some (OList acc) → item h v (length acc) x → v ≠ VRef ll.
Proof.
  intros Hll (l & xs & -> & Hl & Hx) [= ->].
  rewrite Hll in Hl. simplify_eq.
  apply lookup_lt_Some in Hx. lia.
Qed.

Lemma item_kept (h h' : gmap loc object) ll v i x :
  v ≠ VRef ll → (∀ l o, l ≠ ll → h !! l = Some o → h' !! l = Some o) →
  item h v i x → item h' v i x.
Proof.
  intros Hne Hkept (l & xs & -> & Hl & Hx). exists l, xs.
  split; [done|]. split; [|done]. apply Hkept; [|done]. by intros ->.
Qed.

Lemma styled_kept (h h' : gmap loc object) ll feature name color layer e :
  (∀ l o, l ≠ ll → h !! l = Some o → h' !! l = Some o) →
  (∃ o, h !! ll = Some (OList o)) →
  styled h feature name color layer e → styled h' feature name color layer e.
Proof.
  intros Hkept [o Hll] (ls & lh & Hne & -> & Hls & Hlh). exists ls, lh.
  split; [done|]. split; [done|].
  split; (apply Hkept; [|done]); intros ->; by simplify_eq.
Qed.

Lemma for_enumerate_cons body idx x xs s :
  for_enumerate body idx (x :: xs) s =
  match body idx x s with
  | Ok _ s1 => for_enumerate body (S idx) xs s1
  | Raise e s1 => Raise e s1
  end.
Proof. reflexivity. Qed.

Lemma styled_loop names colors ll : ∀ xs idx acc s s',
  heap s !! ll = Some (OList acc) → length acc = idx →
  for_enumerate
    (fun idx feature =>
       let* name := list_index names idx in
       let* color := list_index colors idx in
       let* geojson_layer := style_layer ext feature name color in
       list_append (VRef ll) geojson_layer)
    idx xs s = Ok tt s' →
  ∃ layers calls,
    heap s' !! ll = Some (OList (acc ++ layers)) ∧
    trace s' = trace s ++ calls ∧ self s' = self s ∧
    length layers = length xs ∧ length calls = length xs ∧
    (∀ l o, l ≠ ll → heap s !! l = Some o → heap s' !! l = Some o) ∧
    ∀ i feature, xs !! i = Some feature →
      ∃ name color layer e,
        item (heap s') names (idx + i) name ∧
        item (heap s') colors (idx + i) color ∧
        layers !! i = Some layer ∧ calls !! i = Some e ∧
        styled (heap s') feature name color layer e.
Proof.
  induction xs as [|x xs IH]; intros idx acc s s' Hll Hlen.
  - intros [= <-]. exists [], []. rewrite !app_nil_r. done.
  - rewrite for_enumerate_cons.
    match goal with
    | |- match ?b with _ => _ end = _ → _ =>
      destruct b as [u s2|] eqn:Hbody; [|done]
    end.
    intros Hrest.
    apply bind_ok_inv in Hbody as (name & ? & [-> Hname]%list_index_ok_inv & Hbody).
    apply bind_ok_inv in Hbody as (color & ? & [-> Hcolor]%list_index_ok_inv & Hbody).
    apply bind_ok_inv in Hbody as (layer & s1 & Hstyle & Hbody).
    apply style_layer_ok_inv in Hstyle as (e & Htrace & Hself & Hstyled & Hkept).
    apply list_append_ok_inv in Hbody as (? & acc' & [= <-] & Hacc' & ->).
    rewrite (Hkept _ _ Hll) in Hacc'. injection Hacc' as <-.
    apply IH with (acc := acc ++ [layer]) in Hrest
      as (layers & calls & Hll' & Htrace' & Hself' & Hlayers & Hcalls & Hkept' & Hall);
      [|apply lookup_insert_eq|rewrite length_app; simpl; lia].
    simpl in *.
    assert (∀ l o, l ≠ ll → heap s !! l = Some o → heap s' !! l = Some o)
      as Hkept2.
    { intros l o Hne Hl. apply Hkept'; [done|].
      rewrite lookup_insert_ne by done. by apply Hkept. }
    exists (layer :: layers), (e :: calls).
    split; [by rewrite Hll', <- app_assoc|].
    split; [by rewrite Htrace', Htrace, <- app_assoc|].
    split; [congruence|]. split; [simpl; by rewrite Hlayers|].
    split; [simpl; by rewrite Hcalls|]. split; [done|].
    intros [|i] feature Hfeature; simpl in *.
    + injection Hfeature as <-. subst idx.
      exists name, color, layer, e. rewrite Nat.add_0_r.
      split; [|split; [|split; [done|split; [done|]]]].
      * eapply item_kept; [|exact Hkept2|exact Hname].
        exact (item_not_layers _ _ _ _ _ Hll Hname).
      * eapply item_kept; [|exact Hkept2|exact Hcolor].
        exact (item_not_layers _ _ _ _ _ Hll Hcolor).
      * eapply styled_kept; [exact Hkept'| |].
        -- rewrite lookup_insert_eq. eauto.
        -- destruct Hstyled as (ls & lh & Hne & -> & Hls & Hlh).
           exists ls, lh. split; [done|]. split; [done|].
           assert (∀ l o, heap s1 !! l = Some (ODict o) → l ≠ ll) as Hdict.
           { intros l o Hl ->. rewrite (Hkept _ _ Hll) in Hl. done. }
           split.
           ++ rewrite lookup_insert_ne; [done|].
              intros <-. by destruct (Hdict _ _ Hls).
           ++ rewrite lookup_insert_ne; [done|].
              intros <-. by destruct (Hdict _ _ Hlh).
    + destruct (Hall i feature Hfeature)
        as (name' & color' & layer' & e' & ? & ? & ? & ? & ?).
      exists name', color', layer', e'. rewrite Nat.add_succ_r. done.
Qed.

End styled_layers.

(** X11. With collaborators that leave existing objects alone, a
    [json.loads] that returns a feature collection and a [get_colors] that
    returns a list, a [get_styled_layers] that returns has made the calls [to_crs(4326)] on
    [self.gdf], [to_json] on its result, [json.loads] on that text and
    [get_colors] with the number of features, then one [GeoJSON] call for
    each feature, in order, and nothing else.  It returns a new list with one
    layer per feature: layer [i] is what the call for feature [i] returned,
    named ['ID' + roi_id + '_'] followed by date [i] of [self.gdf], drawn in
    colour [i] of the list [get_colors] returned, with style dictionaries of
    its own.  The instance is unchanged. *)
Theorem get_styled_layers_one_layer_per_feature ext s v s' :
  ext_frame ext → layers_contract ext →
  get_styled_layers ext s = Ok v s' →
  ∃ reprojected text lj dj lf features colors ll layers calls l g col,
    trace s' = trace s ++
      [Call GeoDataFrame_to_crs [self_gdf (self s); VInt 4326] (inr reprojected);
       Call GeoDataFrame_to_json [reprojected] (inr text);
       Call json_loads [text] (inr (VRef lj));
       Call common_get_colors [VInt (Z.of_nat (length features))] (inr colors)]
      ++ calls ∧
    heap s' !! lj = Some (ODict dj) ∧ dj !! "features" = Some (VRef lf) ∧
    heap s' !! lf = Some (OList features) ∧
    self_gdf (self s) = VRef l ∧ heap s !! l = Some (OGdf g) ∧
    gdf_columns g !! "date" = Some col ∧
    v = VRef ll ∧ heap s !! ll = None ∧ heap s' !! ll = Some (OList layers) ∧
    length layers = length features ∧ length calls = length features ∧
    self s' = self s ∧
    ∀ i feature, features !! i = Some feature →
      ∃ r d color layer e,
        self_roi_id (self s) = VStr r ∧ col !! i = Some (VStr d) ∧
        item (heap s') colors i color ∧
        layers !! i = Some layer ∧ calls !! i = Some e ∧
        styled (heap s') feature (VStr (layer_name r d)) color layer e.
Proof.
  intros Hframe _. unfold get_styled_layers. intros Hrun.
  apply bind_ok_inv in Hrun as (this & ? & [= <- <-] & Hrun).
  apply bind_ok_inv in Hrun as (reprojected & s1 & Hcrs & Hrun).
  assert (∃ l g, self_gdf (self s) = VRef l ∧ heap s !! l = Some (OGdf g))
    as (l & g & Hgdf & Hl).
  { revert Hcrs. unfold gdf_method, bind, isinstance.
    case_bool_decide as Hty; [|done]. intros _.
    apply type_of_gdf in Hty as (l & g & ? & ?). eauto. }
  apply gdf_method_ok_inv in Hcrs as (Hext1 & Hself1 & _ & Ht1).
  apply bind_ok_inv in Hrun as (text & s2 & Hjson & Hrun).
  apply gdf_method_ok_inv in Hjson as (Hext2 & Hself2 & _ & Ht2).
  apply bind_ok_inv in Hrun as (features_json & s3 & Hloads & Hrun).
  apply ext_call_ok_inv in Hloads as (Hext3 & Hself3 & _ & Ht3).
  apply bind_ok_inv in Hrun
    as (features & ? & (-> & lj & dj & -> & Hlj & Hfeat)%getitem_ok_inv & Hrun).
  apply bind_ok_inv in Hrun as (n & s4 & Hlen & Hrun).
  apply bind_ok_inv in Hrun as (colors & s5 & Hcolors & Hrun).
  apply ext_call_ok_inv in Hcolors as (Hext5 & Hself5 & _ & Ht5).
  apply bind_ok_inv in Hrun as (names & s6 & Hnames & Hrun).
  apply get_layer_names_ok_inv in Hnames
    as (l' & g' & col & ln & ns & Hgdf' & Hl' & Hcol & -> & Hln & -> & Hnslen & Hns).
  apply bind_ok_inv in Hrun as (? & s7 & (ll & -> & Hll & ->)%alloc_ok_inv & Hrun).
  apply bind_ok_inv in Hrun
    as (features' & ? & (-> & lj' & dj' & [= <-] & Hlj' & Hfeat')%getitem_ok_inv & Hrun).
  apply bind_ok_inv in Hrun
    as (items & ? & (-> & lf & -> & Hlf)%list_items_ok_inv & Hrun).
  apply bind_ok_inv in Hrun as ([] & s8 & Hloop & [= <- <-]).
  simpl in *.
  (* what exists is not touched on the way to the loop *)
  assert (ln ≠ ll) as Hlnll.
  { intros ->. apply Hll, elem_of_dom. by rewrite lookup_insert_eq. }
  assert (∀ x o, heap s3 !! x = Some o → heap s4 !! x = Some o) as H34.
  { intros x o Hx. apply py_len_ok_inv in Hlen as [[-> _]|Hcall]; [done|].
    apply ext_call_ok_inv in Hcall as (Hext4 & _). by eapply Hframe. }
  assert (∀ x o, heap s3 !! x = Some o →
                 <[ll := OList []]> (<[ln := OList ns]> (heap s5)) !! x = Some o)
    as H37.
  { intros x o Hx. apply H34 in Hx. eapply Hframe in Hx; [|exact Hext5].
    rewrite !lookup_insert_ne; [done| |].
    - intros ->. apply Hln. by apply elem_of_dom.
    - intros ->. apply Hll. apply elem_of_dom.
      rewrite lookup_insert_ne; [by eexists|].
      intros ->. apply Hln. by apply elem_of_dom. }
  rewrite (H37 _ _ Hlj) in Hlj'. injection Hlj' as <-.
  rewrite Hfeat in Hfeat'. injection Hfeat' as ->.
  (* the list of features had its elements when its length was taken *)
  assert (heap s3 !! lf = Some (OList items)) as Hlf3.
  { revert Hlen. unfold py_len.
    destruct (heap s3 !! lf) as [o|] eqn:Hlf3; [|done]. intros _.
    rewrite (H37 _ _ Hlf3) in Hlf. by injection Hlf as ->. }
  assert (n = VInt (Z.of_nat (length items)) ∧ s4 = s3) as [-> ->].
  { revert Hlen. unfold py_len. rewrite Hlf3. by intros [= <- <-]. }
  (* the frame of the instance still has its rows *)
  assert (heap s5 !! l = Some (OGdf g)) as Hl5.
  { eapply Hframe; [exact Hext5|]. eapply Hframe; [exact Hext3|].
    eapply Hframe; [exact Hext2|]. eapply Hframe; [exact Hext1|]. done. }
  assert (self s5 = self s) as Hself by congruence.
  rewrite Hself, Hgdf in Hgdf'. injection Hgdf' as <-.
  rewrite Hl5 in Hl'. injection Hl' as <-.
  apply (styled_loop ext Hframe) with (acc := []) in Hloop
    as (layers & calls & Hlayers & Htrace & Hself8 & Hlen1 & Hlen2 & Hkept & Hall);
    [|apply lookup_insert_eq|done].
  simpl in *.
  exists reprojected, text, lj, dj, lf, items, colors, ll, layers, calls, l, g, col.
  split.
  { rewrite Htrace, Ht5, Ht3, Ht2, Ht1.
    by repeat (rewrite <- ?app_assoc; simpl). }
  assert (∀ x o, heap s3 !! x = Some o → x ≠ ll) as H3ll.
  { intros x o Hx ->. apply Hll, elem_of_dom.
    rewrite lookup_insert_ne; [|intros ->; apply Hln; apply elem_of_dom].
    - exists o. eapply Hframe; [exact Hext5|]. done.
    - exists o. eapply Hframe; [exact Hext5|]. done. }
  assert (∀ x o, heap s3 !! x = Some o → heap s8 !! x = Some o) as H38.
  { intros x o Hx. apply Hkept; [by eapply H3ll|by apply H37]. }
  assert (∀ x o, heap s !! x = Some o → heap s3 !! x = Some o) as H03.
  { intros x o Hx. eapply Hframe; [exact Hext3|].
    eapply Hframe; [exact Hext2|]. eapply Hframe; [exact Hext1|]. done. }
  split; [by apply H38|]. split; [done|]. split; [by apply H38|].
  split; [done|]. split; [done|]. split; [done|]. split; [done|].
  split.
  { destruct (heap s !! ll) as [o|] eqn:Hll0; [|done].
    by destruct (H3ll _ _ (H03 _ _ Hll0)). }
  split; [done|]. split; [done|]. split; [done|]. split; [congruence|].
  intros i feature Hfeature.
  destruct (Hall i feature Hfeature)
    as (name & color & layer & e & Hname & Hcolor & Hlayer & Hcall & Hstyled).
  destruct Hname as (? & ns' & [= <-] & Hns' & Hname).
  rewrite (Hkept ln (OList ns)) in Hns'; [|done|].
  2: { rewrite lookup_insert_ne by done. apply lookup_insert_eq. }
  injection Hns' as <-.
  destruct (lookup_lt_is_Some_2 col i) as [x Hx].
  { rewrite <- Hnslen. by eapply lookup_lt_Some. }
  destruct (Hns i x Hx) as (r & d & Hroi & -> & Hname').
  rewrite Hname in Hname'. injection Hname' as ->.
  exists r, d, color, layer, e.
  split; [congruence|]. done.
Qed.

(** X12. [style_layer] refuses the empty dictionary: on [{}] it raises
    [AssertionError] before anything is built or called.  On a dictionary
    with an entry it makes one call, [GeoJSON], with the dictionary itself as
    [data] and two objects that did not exist before as [style] and
    [hover_style]. *)
Theorem style_layer_asserts_non_empty ext geojson name color s :
  (is_empty_dict (heap s) geojson →
   style_layer ext geojson name color s = Raise AssertionError s) ∧
  (∀ l d, geojson = VRef l → heap s !! l = Some (ODict d) → d ≠ ∅ →
   ∃ ls lh r, ls ≠ lh ∧ heap s !! ls = None ∧ heap s !! lh = None ∧
     trace (final_state (style_layer ext geojson name color s)) =
     trace s ++ [Call ipyleaflet_GeoJSON [geojson; name; VRef ls; VRef lh] r]).
Proof.
  split.
  - intros (l & -> & Hl). unfold style_layer, bind, eq_empty_dict.
    rewrite Hl. by rewrite bool_decide_eq_true_2.
  - intros l d -> Hl Hd.
    assert (eq_empty_dict (VRef l) s = Ok false s) as Hempty.
    { unfold eq_empty_dict. rewrite Hl. by rewrite bool_decide_eq_false_2. }
    unfold style_layer, bind at 1. rewrite Hempty. cbv beta iota.
    set (ls := fresh (dom (heap s))).
    set (lh := fresh (dom (<[ls := ODict (layer_style color)]> (heap s)))).
    assert (ls ∉ dom (heap s)) as Hls by apply is_fresh.
    assert (lh ∉ dom (<[ls := ODict (layer_style color)]> (heap s))) as Hlh
      by apply is_fresh.
    exists ls, lh.
    unfold bind, alloc, ext_call. simpl. fold ls. fold (layer_style color).
    fold lh. fold layer_hover_style.
    destruct (ext _ _ _ _) as [e|[v h']]; simpl.
    + exists (inl e). split; [|split; [|split; [|done]]].
      * intros Heq. apply Hlh. rewrite <- Heq. apply elem_of_dom.
        by rewrite lookup_insert_eq.
      * by apply not_elem_of_dom.
      * apply not_elem_of_dom. intros Hin. apply Hlh.
        rewrite dom_insert. set_solver.
    + exists (inr v). split; [|split; [|split; [|done]]].
      * intros Heq. apply Hlh. rewrite <- Heq. apply elem_of_dom.
        by rewrite lookup_insert_eq.
      * by apply not_elem_of_dom.
      * apply not_elem_of_dom. intros Hin. apply Hlh.
        rewrite dom_insert. set_solver.
Qed.

(** ** The further properties on the sample run *)

Lemma sample_ext_layers n : layers_contract (sample_ext n).
Proof.
  split.
  - intros t text h v h' Hext. simpl in Hext. unfold halloc in Hext.
    simpl in Hext. injection Hext as <- <-.
    set (ft := fresh (dom h)).
    set (h1 := <[ft := ODict (<["type" := VStr "Feature"]> ∅)]> h).
    set (fl := fresh (dom h1)).
    set (h2 := <[fl := OList (replicate n (VRef ft))]> h1).
    set (l := fresh (dom h2)).
    exists l, (<["features" := VRef fl]> ∅), fl, (replicate n (VRef ft)).
    split; [done|]. split; [apply lookup_insert_eq|].
    split; [apply lookup_insert_eq|].
    rewrite lookup_insert_ne; [apply lookup_insert_eq|].
    intros Heq. apply (is_fresh (dom h2)). fold l. rewrite Heq.
    apply elem_of_dom. unfold h2. rewrite lookup_insert_eq. by eexists.
  - intros t k h v h' Hext. simpl in Hext.
    destruct k as [| |k| | |]; try done. unfold halloc in Hext.
    simpl in Hext. injection Hext as <- <-.
    eexists _, _. split; [done|]. apply lookup_insert_eq.
Qed.

Lemma get_reference_shoreline_chain_witness :
  sample_reference = Ok (VRef 9%positive) (final_state sample_reference) ∧
  ∃ reprojected compatible stacked n zeros lens,
    (lens = [] ∨ lens = [Call builtin_len [stacked] (inr n)]) ∧
    trace (final_state sample_reference) =
      trace sample_state ++
      [Call GeoDataFrame_to_crs [VRef 1%positive; VInt 32610] (inr reprojected);
       Call common_make_coastsat_compatible [reprojected] (inr compatible);
       Call np_vstack [compatible] (inr stacked)] ++
      lens ++
      [Call np_zeros [n] (inr zeros);
       Call np_insert [stacked; VInt 2; zeros; VInt 1] (inr (VRef 9%positive))] ∧
    self (final_state sample_reference) = self sample_state ∧
    files (final_state sample_reference) = files sample_state.
Proof.
  assert (sample_reference = Ok (VRef 9%positive) (final_state sample_reference))
    as H by (vm_compute; reflexivity).
  split; [exact H|].
  exact (get_reference_shoreline_chain (sample_ext 1) _ _ _ _ _ H).
Defined.

Lemma detection_runs_unattended_witness :
  ext_frame (sample_ext 1) ∧
  type_of (heap sample_state) (VRef 3%positive) = Some TDict ∧
  sample_extraction
    = Ok (returned sample_extraction VNone) (final_state sample_extraction) ∧
  ∃ t insert_args reference metadata lset dset raw h h',
    sample_ext 1
      (t ++ [Call np_insert insert_args (inr reference);
             Call SDS_download_get_metadata [VRef 2%positive] (inr metadata)])
      SDS_shoreline_extract_shorelines [metadata; VRef lset] h = inr (raw, h') ∧
    self_shoreline_settings (self (final_state sample_extraction)) = VRef lset ∧
    h !! lset = Some (ODict dset) ∧
    dset !! "adjust_detection" = Some (VBool false) ∧
    dset !! "check_detection" = Some (VBool false) ∧
    dset !! "inputs" = Some (VRef 2%positive) ∧
    dset !! "reference_shoreline" = Some reference.
Proof.
  assert (sample_extraction
          = Ok (returned sample_extraction VNone) (final_state sample_extraction))
    as H by (vm_compute; reflexivity).
  assert (type_of (heap sample_state) (VRef 3%positive) = Some TDict) as Hty
    by (vm_compute; reflexivity).
  split; [exact (sample_ext_frame 1)|]. split; [exact Hty|]. split; [exact H|].
  exact (detection_runs_unattended (sample_ext 1) 10 _ _ _ _ _ _
           (sample_ext_frame 1) Hty H).
Defined.

Lemma construction_calls_and_fields_witness :
  sample_run 1 = Ok tt sample_instance ∧
  ∃ pre metadata lset raw dedup extracted src gdf,
    Forall (fun e => is_coastsat (ev_fn e) = false) pre ∧
    trace sample_instance =
      trace sample_state ++ pre ++
      [Call SDS_download_get_metadata [VRef 2%positive] (inr metadata);
       Call SDS_shoreline_extract_shorelines [metadata; VRef lset] (inr raw);
       Call SDS_tools_remove_duplicates [raw] (inr dedup);
       Call SDS_tools_remove_inaccurate_georef [dedup; VInt 10] (inr extracted);
       Call SDS_tools_output_to_gdf [extracted; VStr "lines"] (inr (VRef src));
       Call GeoDataFrame_to_crs [VRef src; VStr "EPSG:4326"] (inr gdf)] ∧
    self sample_instance = mkInstance gdf (VStr "21") extracted (VRef lset) ∧
    files sample_instance = files sample_state.
Proof.
  assert (sample_run 1 = Ok tt sample_instance) as H
    by (vm_compute; reflexivity).
  split; [exact H|].
  exact (construction_calls_and_fields (sample_ext 1) is_list_empty_model 10
           _ _ _ _ _ _ H).
Defined.

Lemma sample_args_without_epsg :
  valid_args (heap sample_state)
    (VStr "21") (VRef 1%positive) (VRef 2%positive) (VRef 2%positive).
Proof.
  split; [reflexivity|]. split; [|split].
  - eexists _, _. split; [reflexivity|]. split; vm_compute; reflexivity.
  - eexists _, _. split; [reflexivity|]. split; [vm_compute; reflexivity|].
    intros H. vm_compute in H. discriminate H.
  - eexists _, _. split; [reflexivity|]. split; [vm_compute; reflexivity|].
    intros H. vm_compute in H. discriminate H.
Qed.

Lemma init_needs_output_epsg_witness :
  valid_args (heap sample_state)
    (VStr "21") (VRef 1%positive) (VRef 2%positive) (VRef 2%positive) ∧
  heap sample_state !! 2%positive
    = Some (ODict (<["sitename" := VStr "ID21"]>
                   (<["dates" := VStr "2018-12-01"]> ∅))) ∧
  (<["sitename" := VStr "ID21"]> (<["dates" := VStr "2018-12-01"]> ∅)
     : gmap string value) !! "output_epsg" = None ∧
  __init__ (sample_ext 1) is_list_empty_model 10
    (VStr "21") (VRef 1%positive) (VRef 2%positive) (VRef 2%positive) sample_state
  = Raise (KeyError "output_epsg")
      (final_state (fresh_instance (VStr "21") sample_state)) ∧
  trace (final_state (fresh_instance (VStr "21") sample_state))
  = trace sample_state.
Proof.
  assert (heap sample_state !! 2%positive
          = Some (ODict (<["sitename" := VStr "ID21"]>
                         (<["dates" := VStr "2018-12-01"]> ∅)))) as H1
    by (vm_compute; reflexivity).
  assert ((<["sitename" := VStr "ID21"]> (<["dates" := VStr "2018-12-01"]> ∅)
             : gmap string value) !! "output_epsg" = None) as H2
    by (vm_compute; reflexivity).
  split; [exact sample_args_without_epsg|]. split; [exact H1|].
  split; [exact H2|].
  exact (init_needs_output_epsg (sample_ext 1) is_list_empty_model 10
           _ _ _ _ _ _ sample_args_without_epsg H1 H2).
Defined.

Lemma no_operation_modifies_a_dictionary_witness :
  ext_frame (sample_ext 1) ∧
  heap sample_state !! 3%positive = Some (ODict sample_settings) ∧
  heap (final_state
          (run (sample_ext 1) is_list_empty_model 10
             (Op_init (VStr "21") (VRef 1%positive) (VRef 2%positive)
                (VRef 3%positive))
             sample_state)) !! 3%positive
  = Some (ODict sample_settings).
Proof.
  assert (heap sample_state !! 3%positive = Some (ODict sample_settings)) as H
    by (vm_compute; reflexivity).
  split; [exact (sample_ext_frame 1)|]. split; [exact H|].
  exact (no_operation_modifies_a_dictionary (sample_ext 1) is_list_empty_model 10
           _ _ _ _ (sample_ext_frame 1) H).
Defined.

Lemma only_save_to_file_writes_witness :
  ¬ is_save_to_file Op_get_styled_layers ∧
  files (final_state (run (sample_ext 1) is_list_empty_model 10
                        Op_get_styled_layers sample_instance))
  = files sample_instance ∧
  ∃ t, trace (final_state (run (sample_ext 1) is_list_empty_model 10
                             Op_get_styled_layers sample_instance))
       = trace sample_instance ++ t ∧
       Forall (fun e => ev_fn e ≠ GeoDataFrame_to_file) t.
Proof.
  assert (¬ is_save_to_file Op_get_styled_layers) as H by (intros []).
  split; [exact H|].
  exact (only_save_to_file_writes (sample_ext 1) is_list_empty_model 10
           _ sample_instance H).
Defined.

Lemma get_layer_names_failures_witness :
  self_gdf (self sample_unnamed) = VRef 23%positive ∧
  heap sample_unnamed !! 23%positive = Some (OGdf sample_gdf) ∧
  gdf_columns sample_gdf !! "date" = Some [VStr sample_date] ∧
  Forall is_atom (self_roi_id (self sample_unnamed) :: [VStr sample_date]) ∧
  get_layer_names sample_unnamed = Raise TypeError sample_unnamed.
Proof.
  assert (self_gdf (self sample_unnamed) = VRef 23%positive) as H1
    by (vm_compute; reflexivity).
  assert (heap sample_unnamed !! 23%positive = Some (OGdf sample_gdf)) as H2
    by (vm_compute; reflexivity).
  assert (gdf_columns sample_gdf !! "date" = Some [VStr sample_date]) as H3
    by (vm_compute; reflexivity).
  assert (Forall is_atom (self_roi_id (self sample_unnamed) :: [VStr sample_date]))
    as H4 by (repeat constructor).
  split; [exact H1|]. split; [exact H2|]. split; [exact H3|]. split; [exact H4|].
  apply (proj2 (proj2 (get_layer_names_failures sample_unnamed _ _ H1 H2)
                  _ H3 H4 TypeError sample_unnamed)).
  split; [reflexivity|]. split; [reflexivity|].
  split; [discriminate|]. left. intros H. exact H.
Defined.

Lemma get_styled_layers_one_layer_per_feature_witness :
  ext_frame (sample_ext 1) ∧ layers_contract (sample_ext 1) ∧
  sample_layers = Ok (VRef 30%positive) (final_state sample_layers) ∧
  ∃ reprojected text lj dj lf features colors ll layers calls l g col,
    trace (final_state sample_layers) = trace sample_instance ++
      [Call GeoDataFrame_to_crs [self_gdf (self sample_instance); VInt 4326]
         (inr reprojected);
       Call GeoDataFrame_to_json [reprojected] (inr text);
       Call json_loads [text] (inr (VRef lj));
       Call common_get_colors [VInt (Z.of_nat (length features))] (inr colors)]
      ++ calls ∧
    heap (final_state sample_layers) !! lj = Some (ODict dj) ∧
    dj !! "features" = Some (VRef lf) ∧
    heap (final_state sample_layers) !! lf = Some (OList features) ∧
    self_gdf (self sample_instance) = VRef l ∧
    heap sample_instance !! l = Some (OGdf g) ∧
    gdf_columns g !! "date" = Some col ∧
    VRef 30%positive = VRef ll ∧ heap sample_instance !! ll = None ∧
    heap (final_state sample_layers) !! ll = Some (OList layers) ∧
    length layers = length features ∧ length calls = length features ∧
    self (final_state sample_layers) = self sample_instance ∧
    ∀ i feature, features !! i = Some feature →
      ∃ r d color layer e,
        self_roi_id (self sample_instance) = VStr r ∧
        col !! i = Some (VStr d) ∧
        item (heap (final_state sample_layers)) colors i color ∧
        layers !! i = Some layer ∧ calls !! i = Some e ∧
        styled (heap (final_state sample_layers)) feature
          (VStr (layer_name r d)) color layer e.
Proof.
  assert (sample_layers = Ok (VRef 30%positive) (final_state sample_layers))
    as H by (vm_compute; reflexivity).
  split; [exact (sample_ext_frame 1)|].
  split; [exact (sample_ext_layers 1)|]. split; [exact H|].
  exact (get_styled_layers_one_layer_per_feature (sample_ext 1) _ _ _
           (sample_ext_frame 1) (sample_ext_layers 1) H).
Defined.

Lemma style_layer_asserts_non_empty_witness :
  is_empty_dict (heap sample_instance) (VRef 6%positive) ∧
  style_layer (sample_ext 1) (VRef 6%positive) (VStr "ID21_2018")
    (VStr "#ff0000") sample_instance
  = Raise AssertionError sample_instance.
Proof.
  assert (is_empty_dict (heap sample_instance) (VRef 6%positive)) as H.
  { exists 6%positive. split; [reflexivity|]. vm_compute. reflexivity. }
  split; [exact H|].
  exact (proj1 (style_layer_asserts_non_empty (sample_ext 1) _ _ _ sample_instance)
           H).
Defined.
